(** * dexie-kit-sync: a shallow embedding of the synchronisation core

    The development follows the TypeScript sources file by file:
    [core/types.ts], [utils/backoff.ts], [conflict/strategies.ts],
    [conflict/resolver.ts], [push/outbox-manager.ts],
    [push/change-tracker.ts], [adapters/rest-adapter.ts],
    [push/push-processor.ts], [pull/change-applier.ts],
    [pull/pull-processor.ts], [core/sync-engine.ts],
    [utils/leader-election.ts], [utils/rate-limiter.ts],
    [adapters/http-client.ts] and [utils/metrics.ts].

    Conventions of the embedding.
    - JavaScript numbers that the program uses as counters, versions and
      millisecond timestamps are integers ([Z], [N] for the attempt
      counter); [NaN] is kept where the program can produce it.  The
      jitter of the backoff is computed over exact rationals ([Q]).
    - A Dexie table with an auto-incremented primary key is the list of its
      rows in primary-key order together with the key generator; a user
      table is a finite map from primary key to row.
    - Everything the program reads from its environment (the clock, the
      random generator, the outcome of an HTTP exchange, the order in which
      in-flight requests settle, the date parser) is an explicit input.
    - A promise that rejects is a value [Thrown]; one that resolves is
      [Returned].  The store itself does not fail: the [catch] branches
      that only a failing store reaches are left out. *)

From Stdlib Require Import ZArith NArith QArith Qround String List Bool.
From Stdlib Require Import Lia Lqa.
From Stdlib Require Import Permutation Sorted.
From stdpp Require Import base gmap strings list fin_maps pretty.

Local Open Scope string_scope.
Local Open Scope Z_scope.

(* ===================================================================== *)
(** ** JavaScript values met in the program                               *)
(* ===================================================================== *)

Module Js.

(** A JavaScript number: an integer or [NaN]. *)
Inductive number :=
| Num (n : Z)
| NaN.

(** The primitive values a field of a synchronised record can hold. *)
Inductive value :=
| Undefined
| Null
| Bool (b : bool)
| Number (x : number)
| Str (s : string).

(** [ToBoolean]: the test of [if (v)], [v && w], [v || w] and [!v]. *)
Definition truthy (v : value) : bool :=
  match v with
  | Undefined | Null => false
  | Bool b => b
  | Number (Num n) => negb (n =? 0)
  | Number NaN => false
  | Str s => negb (String.eqb s "")
  end.

(** [a !== b] on numbers: [NaN] differs from every number, itself
    included. *)
Definition number_strict_neq (a b : number) : bool :=
  match a, b with
  | Num x, Num y => negb (x =? y)
  | _, _ => true
  end.

(** [v !== w] on primitive values. *)
Definition strict_neq (v w : value) : bool :=
  match v, w with
  | Undefined, Undefined => false
  | Null, Null => false
  | Bool a, Bool b => negb (Bool.eqb a b)
  | Number a, Number b => number_strict_neq a b
  | Str a, Str b => negb (String.eqb a b)
  | _, _ => true
  end.

(** The bound of [TimeClip]: a time value beyond 8.64e15 ms is [NaN]. *)
Definition maxTime : Z := 8640000000000000.

Definition timeClip (n : Z) : number :=
  if Z.abs n <=? maxTime then Num n else NaN.

(** [new Date(v).getTime()].  [parse] stands for [Date.parse] on strings
    ([None] when the string is no date). *)
Definition Date_getTime (parse : string -> option Z) (v : value) : number :=
  match v with
  | Undefined => NaN
  | Null => Num 0
  | Bool b => Num (if b then 1 else 0)
  | Number (Num n) => timeClip n
  | Number NaN => NaN
  | Str s => match parse s with Some t => timeClip t | None => NaN end
  end.

(** The result of awaiting a promise. *)
Inductive outcome (A : Type) :=
| Returned (a : A)
| Thrown (message : string).

Arguments Returned {A} a.
Arguments Thrown {A} message.

End Js.

(* ===================================================================== *)
(** ** core/types.ts                                                      *)
(* ===================================================================== *)

(** [key: string | number]. *)
Inductive Key :=
| KNum (n : Z)
| KStr (s : string).

#[global] Instance Key_eq_dec : EqDecision Key.
Proof. solve_decision. Defined.

#[global] Instance Key_countable : Countable Key.
Proof.
  refine (inj_countable'
            (fun k => match k with KNum n => inl n | KStr s => inr s end)
            (fun x => match x with inl n => KNum n | inr s => KStr s end) _).
  intros []; reflexivity.
Defined.

(** [change.key === item.id]. *)
Definition Key_strict_eq (a b : Key) : bool := bool_decide (a = b).

Inductive Operation := create | update | delete.

(** A record of a synchronised table ([any] in the source): its primary
    key, the two fields the resolver inspects, and the rest of the
    record. *)
Module Row.
Record t := mk {
  id : Key;
  version : Js.value;
  updatedAt : Js.value;
  fields : string
}.
End Row.

Module OutboxItem.
Record t := mk {
  id : N;
  table : string;
  operation : Operation;
  key : Key;
  obj : option Row.t;
  attempt : N;
  createdAt : Z;
  lastError : option string;
  nextRetryAt : option Z
}.
End OutboxItem.

Module DeadLetterItem.
Record t := mk {
  id : N;
  table : string;
  operation : Operation;
  key : Key;
  obj : option Row.t;
  error : string;
  errorType : string;
  failedAt : Z;
  originalAttempts : N
}.
End DeadLetterItem.

Inductive ErrorType :=
| network | auth | validation | conflict | quota | server | client.

Definition ErrorType_name (t : ErrorType) : string :=
  match t with
  | network => "network"
  | auth => "auth"
  | validation => "validation"
  | conflict => "conflict"
  | quota => "quota"
  | server => "server"
  | client => "client"
  end.

Module SyncError.
Record t := mk {
  type : ErrorType;
  code : string;
  retryable : bool;
  message : string;
  status : option Z;
  retryAfter : option Z
}.
End SyncError.

(** What a [catch (error)] of the push and pull pipelines can receive: a
    classified [SyncError] object of the HTTP client, or a plain
    [Error] (thrown by the adapter when a route is missing). *)
Inductive Caught :=
| Classified (e : SyncError.t)
| PlainError (message : string).

(** [error.retryable], as a condition. *)
Definition Caught_retryable (e : Caught) : bool :=
  match e with
  | Classified s => SyncError.retryable s
  | PlainError _ => false
  end.

(** [error.message]. *)
Definition Caught_message (e : Caught) : string :=
  match e with
  | Classified s => SyncError.message s
  | PlainError m => m
  end.

(** [String(error)]. *)
Definition Caught_toString (e : Caught) : string :=
  match e with
  | Classified _ => "[object Object]"
  | PlainError m => if String.eqb m "" then "Error" else "Error: " ++ m
  end.

(** [error.type || 'unknown']. *)
Definition Caught_typeOrUnknown (e : Caught) : string :=
  match e with
  | Classified s => ErrorType_name (SyncError.type s)
  | PlainError _ => "unknown"
  end.

Module ConflictInfo.
Record t := mk {
  table : string;
  key : Key;
  local : Row.t;
  remote : Row.t;
  localTimestamp : option Js.number;
  remoteTimestamp : option Js.number;
  localVersion : Js.value;
  remoteVersion : Js.value
}.
End ConflictInfo.

(** [ConflictConfig].  The policy is the string the [switch] of
    [getStrategy] inspects. *)
Module ConflictConfig.
Record t := mk {
  policy : string;
  onConflict : option (ConflictInfo.t -> Js.outcome Row.t)
}.
End ConflictConfig.

Module ErrorConfig.
Record t := mk {
  maxRetries : option Z;
  retryDelay : option (N -> Z)
}.
End ErrorConfig.

Inductive HttpMethod := GET | POST | PUT | PATCH | DELETE.

Module OperationConfig.
Record t := mk {
  method : HttpMethod;
  url : string
}.
End OperationConfig.

Module PushRouteConfig.
Record t := mk {
  create : option OperationConfig.t;
  update : option OperationConfig.t;
  delete : option OperationConfig.t
}.
End PushRouteConfig.

Module PullRouteConfig.
Record t := mk {
  method : HttpMethod;
  url : string
}.
End PullRouteConfig.

Module TableRoute.
Record t := mk {
  push : option PushRouteConfig.t;
  pull : option PullRouteConfig.t
}.
End TableRoute.

(** [RouteConfiguration]: an object from table name to routes, its keys in
    insertion order. *)
Definition RouteConfiguration := list (string * TableRoute.t).

Fixpoint routes_get (routes : RouteConfiguration) (name : string)
  : option TableRoute.t :=
  match routes with
  | [] => None
  | (k, r) :: rest => if String.eqb k name then Some r else routes_get rest name
  end.

Module SyncConfig.
Record t := mk {
  baseUrl : string;
  routes : RouteConfiguration;
  push_batchSize : option N;
  push_concurrency : option N;
  interval : option Z;
  conflicts : option ConflictConfig.t;
  errors : option ErrorConfig.t
}.
End SyncConfig.

Module PushResult.
Record t := mk {
  success : bool;
  pushed : N;
  failed : N;
  errors : list Caught
}.
End PushResult.

Module PullResult.
Record t := mk {
  success : bool;
  pulled : N;
  applied : N;
  conflicts : N;
  errors : list Caught
}.
End PullResult.

Module SyncResult.
Record t := mk {
  success : bool;
  push : PushResult.t;
  pull : PullResult.t
}.
End SyncResult.

(** The events the engine and the resolver emit (the payload is dropped,
    except for the conflict that a [conflict] event reports). *)
Inductive SyncEvent :=
| sync_start | sync_complete | sync_error
| push_start | push_complete | push_error
| pull_start | pull_complete | pull_error
| conflict_event (c : ConflictInfo.t)
| online | offline.

(* ===================================================================== *)
(** ** utils/backoff.ts                                                   *)
(* ===================================================================== *)

Module Backoff.

(** [Math.min(1000 * Math.pow(2, attempt), maxDelay)]. *)
Definition delay (attempt : N) (maxDelay : Z) : Z :=
  Z.min (1000 * 2 ^ Z.of_N attempt) maxDelay.

(** [calculateBackoff(attempt, maxDelay)], with the draw of
    [Math.random()] as the input [random].  The arithmetic is exact, over
    the rationals: the rounding of the binary64 product and sum is left
    out. *)
Definition calculateBackoff (attempt : N) (maxDelay : Z) (random : Q) : Z :=
  let d := inject_Z (delay attempt maxDelay) in
  let jitter := (d * (2 # 10) * (random - (1 # 2)))%Q in
  Qfloor (d + jitter)%Q.

Definition defaultMaxDelay : Z := 60000.

(** [defaultRetryDelay], and every call site, leave [maxDelay] to its
    default. *)
Definition defaultRetryDelay (attempt : N) (random : Q) : Z :=
  calculateBackoff attempt defaultMaxDelay random.

End Backoff.

(* ===================================================================== *)
(** ** conflict/strategies.ts                                             *)
(* ===================================================================== *)

Module Strategies.

Definition serverWins (c : ConflictInfo.t) : Row.t := ConflictInfo.remote c.

Definition clientWins (c : ConflictInfo.t) : Row.t := ConflictInfo.local c.

(** [timestamp || 0]. *)
Definition orZero (t : option Js.number) : Z :=
  match t with
  | Some (Js.Num n) => n
  | Some Js.NaN | None => 0
  end.

Definition lastWriteWins (c : ConflictInfo.t) : Row.t :=
  let localTime := orZero (ConflictInfo.localTimestamp c) in
  let remoteTime := orZero (ConflictInfo.remoteTimestamp c) in
  if remoteTime <? localTime then ConflictInfo.local c
  else if localTime <? remoteTime then ConflictInfo.remote c
  else ConflictInfo.remote c.

Definition getStrategy (policy : string) : ConflictInfo.t -> Row.t :=
  if String.eqb policy "server-wins" then serverWins
  else if String.eqb policy "client-wins" then clientWins
  else if String.eqb policy "lww" then lastWriteWins
  else serverWins.

End Strategies.

(* ===================================================================== *)
(** ** conflict/resolver.ts                                               *)
(* ===================================================================== *)

Module ConflictResolver.

(** [resolve(conflict)]: the event it emits and the value it resolves
    to. *)
Definition resolve (config : ConflictConfig.t) (c : ConflictInfo.t)
  : list SyncEvent * Js.outcome Row.t :=
  let emitted := [conflict_event c] in
  match String.eqb (ConflictConfig.policy config) "custom",
        ConflictConfig.onConflict config with
  | true, Some handler => (emitted, handler c)
  | _, _ =>
      let strategy := Strategies.getStrategy (ConflictConfig.policy config) in
      (emitted, Js.Returned (strategy c))
  end.

(** [detectConflict(local, remote)]; [None] is an absent local record. *)
Definition detectConflict (parse : string -> option Z)
    (local : option Row.t) (remote : Row.t) : bool :=
  match local with
  | None => false
  | Some l =>
      if Js.strict_neq (Row.version l) Js.Undefined
         && Js.strict_neq (Row.version remote) Js.Undefined
      then Js.strict_neq (Row.version l) (Row.version remote)
      else if Js.truthy (Row.updatedAt l) && Js.truthy (Row.updatedAt remote)
      then
        let localTime := Js.Date_getTime parse (Row.updatedAt l) in
        let remoteTime := Js.Date_getTime parse (Row.updatedAt remote) in
        Js.number_strict_neq localTime remoteTime
      else true
  end.

End ConflictResolver.

(* ===================================================================== *)
(** ** The local store (Dexie)                                            *)
(* ===================================================================== *)

(** The three metadata tables the program reads and writes, and the user
    tables.  [outbox] and [deadLetters] have the schema ['++id, ...']: rows
    in primary-key order, the key generator beside them. *)
Module Db.
Record t := mk {
  outbox : list OutboxItem.t;
  outboxKeyGen : N;
  deadLetters : list DeadLetterItem.t;
  deadLettersKeyGen : N;
  tables : gmap string (gmap Key Row.t)
}.

Definition with_outbox (rows : list OutboxItem.t) (db : t) : t :=
  mk rows (outboxKeyGen db) (deadLetters db) (deadLettersKeyGen db) (tables db).

(** [db.table(name).get(key)] on a user table. *)
Definition get (name : string) (k : Key) (db : t) : option Row.t :=
  match tables db !! name with
  | Some rows => rows !! k
  | None => None
  end.

(** [db.table(name).put(row)] on a user table: an upsert under the row's
    primary key. *)
Definition put (name : string) (row : Row.t) (db : t) : t :=
  let rows := default ∅ (tables db !! name) in
  mk (outbox db) (outboxKeyGen db) (deadLetters db) (deadLettersKeyGen db)
     (<[name := <[Row.id row := row]> rows]> (tables db)).

(** [outboxTable.get(id)]. *)
Definition outbox_get (i : N) (db : t) : option OutboxItem.t :=
  List.find (fun it => N.eqb (OutboxItem.id it) i) (outbox db).

(** [outboxTable.delete(id)]. *)
Definition outbox_delete (i : N) (db : t) : t :=
  with_outbox
    (List.filter (fun it => negb (N.eqb (OutboxItem.id it) i)) (outbox db)) db.

(** [outboxTable.update(id, changes)]. *)
Definition outbox_update (i : N) (change : OutboxItem.t -> OutboxItem.t)
    (db : t) : t :=
  with_outbox
    (List.map (fun it => if N.eqb (OutboxItem.id it) i then change it else it)
              (outbox db)) db.

(** [outboxTable.add(row)]: the key generator assigns the next id. *)
Definition outbox_add (row : N -> OutboxItem.t) (db : t) : t :=
  let i := N.succ (outboxKeyGen db) in
  mk (outbox db ++ [row i]) i (deadLetters db) (deadLettersKeyGen db)
     (tables db).

(** [deadLettersTable.add(row)]. *)
Definition deadLetters_add (row : N -> DeadLetterItem.t) (db : t) : t :=
  let i := N.succ (deadLettersKeyGen db) in
  mk (outbox db) (outboxKeyGen db) (deadLetters db ++ [row i]) i (tables db).

(** [outboxTable.bulkDelete(ids)]. *)
Definition outbox_bulkDelete (ids : list N) (db : t) : t :=
  with_outbox
    (List.filter
       (fun it => negb (List.existsb (N.eqb (OutboxItem.id it)) ids))
       (outbox db)) db.

(** [outboxTable.clear()]: the rows go, the key generator stays. *)
Definition outbox_clear (db : t) : t := with_outbox [] db.

(** [deadLettersTable.get(id)]. *)
Definition deadLetters_get (i : N) (db : t) : option DeadLetterItem.t :=
  List.find (fun it => N.eqb (DeadLetterItem.id it) i) (deadLetters db).

(** [deadLettersTable.delete(id)]. *)
Definition deadLetters_delete (i : N) (db : t) : t :=
  mk (outbox db) (outboxKeyGen db)
     (List.filter (fun it => negb (N.eqb (DeadLetterItem.id it) i))
                  (deadLetters db))
     (deadLettersKeyGen db) (tables db).

(** What the store guarantees of a table with an auto-incremented
    primary key: the ids of its rows are distinct and none is beyond the
    key generator. *)
Definition outbox_wf (db : t) : Prop :=
  List.NoDup (List.map OutboxItem.id (outbox db))
  /\ Forall (fun it => (OutboxItem.id it <= outboxKeyGen db)%N) (outbox db).

Definition deadLetters_wf (db : t) : Prop :=
  List.NoDup (List.map DeadLetterItem.id (deadLetters db))
  /\ Forall (fun it => (DeadLetterItem.id it <= deadLettersKeyGen db)%N)
       (deadLetters db).

(** The two queues of the store with their key generators: everything
    but the user tables. *)
Definition queues (db : t)
  : list OutboxItem.t * N * list DeadLetterItem.t * N :=
  (outbox db, outboxKeyGen db, deadLetters db, deadLettersKeyGen db).

End Db.

(* ===================================================================== *)
(** ** The environment of one run                                         *)
(* ===================================================================== *)

(** The outcome of [adapter.pull]: the mapped records of the response, or
    what was thrown. *)
Inductive Fetched :=
| Records (items : list Row.t)
| Failed (e : Caught).

Module Env.
Record t := mk {
  (** [Date.parse]. *)
  Date_parse : string -> option Z;
  (** [Date.now()] as [getPending] reads it. *)
  now : Z;
  (** The HTTP exchange of a push, headers included: [None] when it
      succeeds, the error it throws otherwise. *)
  request_push : OutboxItem.t -> option Caught;
  (** [Date.now()] as the failure of this item's push reads it. *)
  failure_time : OutboxItem.t -> Z;
  (** [Math.random()] as the backoff of this item draws it. *)
  random : OutboxItem.t -> Q;
  (** The order in which the requests in flight together settle. *)
  settle : list OutboxItem.t -> list OutboxItem.t;
  (** The HTTP exchange of a pull with [mapResponse] applied. *)
  request_pull : string -> Fetched
}.
End Env.

(* ===================================================================== *)
(** ** push/outbox-manager.ts                                             *)
(* ===================================================================== *)

Module OutboxManager.

Definition add (now : Z) (table : string) (operation : Operation) (key : Key)
    (obj : option Row.t) (db : Db.t) : Db.t :=
  Db.outbox_add
    (fun i => OutboxItem.mk i table operation key obj 0%N now None None) db.

(** [orderBy('createdAt')]: by the index, then by primary key. *)
Fixpoint insert_createdAt (x : OutboxItem.t) (l : list OutboxItem.t)
  : list OutboxItem.t :=
  match l with
  | [] => [x]
  | y :: rest =>
      if OutboxItem.createdAt x <? OutboxItem.createdAt y then x :: l
      else y :: insert_createdAt x rest
  end.

Definition orderBy_createdAt (l : list OutboxItem.t) : list OutboxItem.t :=
  List.fold_left (fun acc x => insert_createdAt x acc) l [].

(** [if (table)] on the optional argument. *)
Definition given (table : option string) : option string :=
  match table with
  | Some name => if String.eqb name "" then None else Some name
  | None => None
  end.

Definition getAll (table : option string) (db : Db.t) : list OutboxItem.t :=
  let query := orderBy_createdAt (Db.outbox db) in
  match given table with
  | Some name =>
      List.filter (fun item => String.eqb (OutboxItem.table item) name) query
  | None => query
  end.

(** The filter of [getPending]:
    [!item.nextRetryAt || item.nextRetryAt <= now]. *)
Definition isPending (now : Z) (item : OutboxItem.t) : bool :=
  match OutboxItem.nextRetryAt item with
  | None => true
  | Some t => (t =? 0) || (t <=? now)
  end.

Definition getPending (now : Z) (db : Db.t) : list OutboxItem.t :=
  List.filter (isPending now) (Db.outbox db).

Definition remove (i : N) (db : Db.t) : Db.t := Db.outbox_delete i db.

(** The changes [{ attempt, lastError, nextRetryAt }] of [updateRetry],
    merged into the stored row. *)
Definition retryChanges (attempt : N) (error : string) (nextRetryAt : Z)
    (stored : OutboxItem.t) : OutboxItem.t :=
  OutboxItem.mk (OutboxItem.id stored) (OutboxItem.table stored)
    (OutboxItem.operation stored) (OutboxItem.key stored)
    (OutboxItem.obj stored) attempt (OutboxItem.createdAt stored)
    (Some error) (Some nextRetryAt).

Definition updateRetry (i : N) (error : string) (nextRetryAt : Z)
    (db : Db.t) : Db.t :=
  match Db.outbox_get i db with
  | Some item =>
      Db.outbox_update i
        (retryChanges (OutboxItem.attempt item + 1)%N error nextRetryAt) db
  | None => db
  end.

Definition getDepth (table : option string) (db : Db.t) : nat :=
  match given table with
  | Some name =>
      length (List.filter
                (fun item => String.eqb (OutboxItem.table item) name)
                (Db.outbox db))
  | None => length (Db.outbox db)
  end.

(** [orderBy('createdAt').first()]. *)
Definition getOldestItem (db : Db.t) : option OutboxItem.t :=
  List.head (orderBy_createdAt (Db.outbox db)).

Definition clear (table : option string) (db : Db.t) : Db.t :=
  match given table with
  | Some name =>
      let items :=
        List.filter (fun item => String.eqb (OutboxItem.table item) name)
                    (Db.outbox db) in
      Db.outbox_bulkDelete (List.map OutboxItem.id items) db
  | None => Db.outbox_clear db
  end.

(** The order of [orderBy('createdAt')]. *)
Definition older (x y : OutboxItem.t) : Prop :=
  OutboxItem.createdAt x <= OutboxItem.createdAt y.

End OutboxManager.

(* ===================================================================== *)
(** ** push/change-tracker.ts                                             *)
(* ===================================================================== *)

Module ChangeTracker.

Definition metadataTables : list string :=
  ["outbox"; "checkpoints"; "deadLetters"].

(** [trackChange(table, operation, key, obj)].  Its callers are the
    hooks that [startTracking] installs on a tracked table, and a hook
    runs inside the transaction of the write that fires it:
    [transaction] lists the tables of that transaction (for a write made
    outside [db.transaction], the written table alone).
    [outboxTable.add] is rejected when the outbox is not among them, and
    the [catch] of [trackChange] only logs the rejection.  [now] is the
    [Date.now()] that [add] reads. *)
Definition trackChange (transaction : list string) (now : Z) (table : string)
    (operation : Operation) (key : Key) (obj : option Row.t) (db : Db.t)
  : Db.t :=
  if List.existsb (String.eqb table) metadataTables then db
  else if List.existsb (String.eqb "outbox") transaction
       then OutboxManager.add now table operation key obj db
       else db.

End ChangeTracker.

(* ===================================================================== *)
(** ** adapters/rest-adapter.ts                                           *)
(* ===================================================================== *)

Module RestAdapter.

Definition Operation_name (op : Operation) : string :=
  match op with
  | create => "create"
  | update => "update"
  | delete => "delete"
  end.

(** [pushItem(item)]: [None] when the request resolves, the thrown value
    otherwise. *)
Definition pushItem (routes : RouteConfiguration) (env : Env.t)
    (item : OutboxItem.t) : option Caught :=
  match routes_get routes (OutboxItem.table item) ≫= TableRoute.push with
  | None =>
      Some (PlainError ("No push route configured for table: "
                          ++ OutboxItem.table item))
  | Some tableRoute =>
      let config :=
        match OutboxItem.operation item with
        | create => PushRouteConfig.create tableRoute
        | update => PushRouteConfig.update tableRoute
        | delete => PushRouteConfig.delete tableRoute
        end in
      match config with
      | None =>
          Some (PlainError ("No " ++ Operation_name (OutboxItem.operation item)
                              ++ " config for table: " ++ OutboxItem.table item))
      | Some _ => Env.request_push env item
      end
  end.

(** [pull(table)] for routes that have neither a [query] nor an
    [onComplete] callback; [Routed.adapterPull] is the method with the
    callbacks of the route. *)
Definition pull (routes : RouteConfiguration) (env : Env.t) (table : string)
  : Fetched :=
  match routes_get routes table ≫= TableRoute.pull with
  | None => Failed (PlainError ("No pull route configured for table: " ++ table))
  | Some _ => Env.request_pull env table
  end.

End RestAdapter.

(* ===================================================================== *)
(** ** push/push-processor.ts                                             *)
(* ===================================================================== *)

Module PushProcessor.

(** [value || fallback] on an optional count. *)
Definition orDefault (value : option N) (fallback : N) : N :=
  match value with
  | Some n => if N.eqb n 0 then fallback else n
  | None => fallback
  end.

(** [getMaxRetries(errorType)]; the argument is not used. *)
Definition getMaxRetries (config : SyncConfig.t) : Z :=
  match SyncConfig.errors config ≫= ErrorConfig.maxRetries with
  | Some m => if m =? 0 then 5 else m
  | None => 5
  end.

(** [getRetryDelay(attempt)]. *)
Definition getRetryDelay (config : SyncConfig.t) (attempt : N) (random : Q)
  : Z :=
  match SyncConfig.errors config ≫= ErrorConfig.retryDelay with
  | Some retryDelay => retryDelay attempt
  | None => Backoff.defaultRetryDelay attempt random
  end.

(** [error.message || String(error)]. *)
Definition messageOrString (error : Caught) : string :=
  if String.eqb (Caught_message error) "" then Caught_toString error
  else Caught_message error.

Definition moveToDeadLetters (now : Z) (item : OutboxItem.t) (error : Caught)
    (db : Db.t) : Db.t :=
  let db1 :=
    Db.deadLetters_add
      (fun i =>
         DeadLetterItem.mk i
           (OutboxItem.table item) (OutboxItem.operation item)
           (OutboxItem.key item) (OutboxItem.obj item)
           (messageOrString error) (Caught_typeOrUnknown error)
           now (OutboxItem.attempt item))
      db in
  OutboxManager.remove (OutboxItem.id item) db1.

Definition count_pushed (result : PushResult.t) : PushResult.t :=
  PushResult.mk (PushResult.success result) (PushResult.pushed result + 1)%N
    (PushResult.failed result) (PushResult.errors result).

Definition count_failed (error : Caught) (result : PushResult.t)
  : PushResult.t :=
  PushResult.mk (PushResult.success result) (PushResult.pushed result)
    (PushResult.failed result + 1)%N (PushResult.errors result ++ [error]).

(** [pushItem(item, result)], from the moment its request settles. *)
Definition pushItem (config : SyncConfig.t) (env : Env.t)
    (state : Db.t * PushResult.t) (item : OutboxItem.t)
  : Db.t * PushResult.t :=
  let '(db, result) := state in
  match RestAdapter.pushItem (SyncConfig.routes config) env item with
  | None =>
      (OutboxManager.remove (OutboxItem.id item) db, count_pushed result)
  | Some error =>
      let result := count_failed error result in
      let maxRetries := getMaxRetries config in
      if (maxRetries <=? Z.of_N (OutboxItem.attempt item))
         || negb (Caught_retryable error)
      then (moveToDeadLetters (Env.failure_time env item) item error db, result)
      else
        let retryDelay :=
          getRetryDelay config (OutboxItem.attempt item) (Env.random env item) in
        let nextRetryAt := Env.failure_time env item + retryDelay in
        (OutboxManager.updateRetry (OutboxItem.id item) (Caught_message error)
           nextRetryAt db,
         result)
  end.

(** [l.slice(0, n)], [l.slice(n, 2n)], ...: the batches of the outer loop,
    and the groups of requests awaited together inside a batch. *)
Fixpoint slices_upto {A : Type} (fuel : nat) (size : nat) (l : list A)
  : list (list A) :=
  match fuel with
  | O => []
  | S fuel' =>
      match l with
      | [] => []
      | _ => firstn size l :: slices_upto fuel' size (skipn size l)
      end
  end.

Definition slices {A : Type} (size : nat) (l : list A) : list (list A) :=
  slices_upto (length l) size l.

(** The items of one push in the order in which their requests settle:
    batch after batch, group after group, and inside a group as the
    environment decides. *)
Definition settled_order (env : Env.t) (batchSize concurrency : N)
    (items : list OutboxItem.t) : list OutboxItem.t :=
  List.concat
    (List.map
       (fun batch =>
          List.concat
            (List.map (Env.settle env) (slices (N.to_nat concurrency) batch)))
       (slices (N.to_nat batchSize) items)).

Definition initial : PushResult.t := PushResult.mk true 0 0 [].

Definition finish (result : PushResult.t) : PushResult.t :=
  PushResult.mk (N.eqb (PushResult.failed result) 0)
    (PushResult.pushed result) (PushResult.failed result)
    (PushResult.errors result).

(** The [filteredItems] of [push(table)]: the pending items, of the given
    table when one is given. *)
Definition filteredItems (env : Env.t) (table : option string) (db : Db.t)
  : list OutboxItem.t :=
  let items := OutboxManager.getPending (Env.now env) db in
  match OutboxManager.given table with
  | Some name =>
      List.filter (fun item => String.eqb (OutboxItem.table item) name) items
  | None => items
  end.

(** [push(table)]. *)
Definition push (config : SyncConfig.t) (env : Env.t) (table : option string)
    (db : Db.t) : Db.t * PushResult.t :=
  let filteredItems := filteredItems env table db in
  let batchSize := orDefault (SyncConfig.push_batchSize config) 10 in
  let concurrency := orDefault (SyncConfig.push_concurrency config) 3 in
  let '(db', result) :=
    List.fold_left (pushItem config env)
      (settled_order env batchSize concurrency filteredItems)
      (db, initial) in
  (db', finish result).

(** The push of [item] fails: its request, or the adapter before it,
    throws. *)
Definition fails (config : SyncConfig.t) (env : Env.t) (item : OutboxItem.t)
  : bool :=
  match RestAdapter.pushItem (SyncConfig.routes config) env item with
  | Some _ => true
  | None => false
  end.

(** [k] pushes in a row of the row with id [i], as long as the outbox
    has it: the row as stored is handed to [pushItem] each time. *)
Fixpoint pushAgain (config : SyncConfig.t) (env : Env.t) (k : nat) (i : N)
    (db : Db.t) : Db.t :=
  match k with
  | O => db
  | S k' =>
      match Db.outbox_get i db with
      | Some item =>
          pushAgain config env k' i (fst (pushItem config env (db, initial) item))
      | None => db
      end
  end.

(** The failure of [item] is final: its attempts are used up or the error
    is not retryable. *)
Definition terminal (config : SyncConfig.t) (item : OutboxItem.t)
    (error : Caught) : bool :=
  (getMaxRetries config <=? Z.of_N (OutboxItem.attempt item))
  || negb (Caught_retryable error).

(** The dead letter that [moveToDeadLetters] writes for [item] under the
    id [i]. *)
Definition deadLetterOf (env : Env.t) (i : N) (item : OutboxItem.t)
    (error : Caught) : DeadLetterItem.t :=
  DeadLetterItem.mk i (OutboxItem.table item) (OutboxItem.operation item)
    (OutboxItem.key item) (OutboxItem.obj item)
    (messageOrString error) (Caught_typeOrUnknown error)
    (Env.failure_time env item) (OutboxItem.attempt item).

(** The push of [item] ends in the dead letters. *)
Definition deadLettered (config : SyncConfig.t) (env : Env.t)
    (item : OutboxItem.t) : bool :=
  match RestAdapter.pushItem (SyncConfig.routes config) env item with
  | Some error => terminal config item error
  | None => false
  end.

End PushProcessor.

(* ===================================================================== *)
(** ** pull/change-applier.ts                                             *)
(* ===================================================================== *)

Module ChangeApplier.

(** What the loop of [applyChanges] carries: the store, the events
    emitted through the context, and the two counters. *)
Record state := mkState {
  db : Db.t;
  emitted : list SyncEvent;
  applied : N;
  conflicts : N
}.

(** [v ? new Date(v).getTime() : undefined]. *)
Definition timestampOf (parse : string -> option Z) (v : Js.value)
  : option Js.number :=
  if Js.truthy v then Some (Js.Date_getTime parse v) else None.

(** [resolveConflict(table, key, local, remote)]; [resolver] is the
    [conflictResolver] field, present when [config.conflicts] is. *)
Definition resolveConflict (resolver : option ConflictConfig.t)
    (parse : string -> option Z) (table : string) (key : Key)
    (local remote : Row.t) : list SyncEvent * Js.outcome Row.t :=
  let conflict :=
    ConflictInfo.mk table key local remote
      (timestampOf parse (Row.updatedAt local))
      (timestampOf parse (Row.updatedAt remote))
      (Row.version local) (Row.version remote) in
  match resolver with
  | Some config => ConflictResolver.resolve config conflict
  | None => ([], Js.Returned remote)
  end.

(** [pendingChanges.some((change) => change.key === item.id)]. *)
Definition hasPendingChange (table : string) (item : Row.t) (d : Db.t)
  : bool :=
  let pendingChanges := OutboxManager.getAll (Some table) d in
  List.existsb
    (fun change => Key_strict_eq (OutboxItem.key change) (Row.id item))
    pendingChanges.

(** One turn of the loop of [applyChanges].  A handler that throws is
    caught by the [try] of the loop: the record is not applied.  (The
    store is the table itself: the hooks that the change tracker may have
    installed on it are not followed.) *)
Definition applyChange (config : SyncConfig.t) (env : Env.t) (table : string)
    (s : state) (item : Row.t) : state :=
  let resolver := SyncConfig.conflicts config in
  let parse := Env.Date_parse env in
  let write row :=
    mkState (Db.put table row (db s)) (emitted s) (applied s + 1)%N
            (conflicts s) in
  if hasPendingChange table item (db s) then
    match Db.get table (Row.id item) (db s), resolver with
    | Some local, Some rc =>
        if ConflictResolver.detectConflict parse (Some local) item then
          match resolveConflict resolver parse table (Row.id item) local item
          with
          | (events, Js.Returned resolved) =>
              mkState (Db.put table resolved (db s)) (emitted s ++ events)
                      (applied s + 1)%N (conflicts s + 1)%N
          | (events, Js.Thrown _) =>
              mkState (db s) (emitted s ++ events) (applied s)
                      (conflicts s + 1)%N
          end
        else write item
    | _, _ => write item
    end
  else write item.

(** [applyChanges(table, items)]: [db.table(table)] throws on a table
    the schema does not have. *)
Definition applyChanges (config : SyncConfig.t) (env : Env.t) (table : string)
    (items : list Row.t) (d : Db.t) (log : list SyncEvent)
  : option state :=
  match Db.tables d !! table with
  | None => None
  | Some _ =>
      Some (List.fold_left (applyChange config env table) items
              (mkState d log 0 0))
  end.

(** A configured handler, if there is one, returns. *)
Definition handlerReturns (config : SyncConfig.t) : Prop :=
  forall rc h,
    SyncConfig.conflicts config = Some rc ->
    ConflictConfig.policy rc = "custom" ->
    ConflictConfig.onConflict rc = Some h ->
    forall c, exists row, h c = Js.Returned row.

(** An event is a [conflict] event. *)
Definition isConflictEvent (ev : SyncEvent) : Prop :=
  exists c, ev = conflict_event c.

End ChangeApplier.

(* ===================================================================== *)
(** ** pull/pull-processor.ts                                             *)
(* ===================================================================== *)

Module PullProcessor.

Record state := mkState {
  db : Db.t;
  emitted : list SyncEvent;
  result : PullResult.t
}.

(** [Object.keys(routes).filter((t) => routes[t].pull)].  [routes] lists
    the tables in the order of [Object.keys]: the names that are array
    indices first, in ascending order, then the others as they were
    inserted. *)
Definition pullTables (routes : RouteConfiguration) : list string :=
  List.filter
    (fun t => bool_decide (is_Some (routes_get routes t ≫= TableRoute.pull)))
    (List.map fst routes).

Definition invalidTable (table : string) : Caught :=
  PlainError ("Table " ++ table ++ " does not exist").

(** The body of the loop over the tables. *)
Definition pullTable (config : SyncConfig.t) (env : Env.t) (s : state)
    (tableName : string) : state :=
  let r := result s in
  match RestAdapter.pull (SyncConfig.routes config) env tableName with
  | Failed error =>
      mkState (db s) (emitted s)
        (PullResult.mk (PullResult.success r) (PullResult.pulled r)
           (PullResult.applied r) (PullResult.conflicts r)
           (PullResult.errors r ++ [error]))
  | Records items =>
      let pulled := (PullResult.pulled r + N.of_nat (length items))%N in
      match ChangeApplier.applyChanges config env tableName items (db s)
              (emitted s) with
      | Some a =>
          mkState (ChangeApplier.db a) (ChangeApplier.emitted a)
            (PullResult.mk (PullResult.success r) pulled
               (PullResult.applied r + ChangeApplier.applied a)%N
               (PullResult.conflicts r + ChangeApplier.conflicts a)%N
               (PullResult.errors r))
      | None =>
          mkState (db s) (emitted s)
            (PullResult.mk (PullResult.success r) pulled
               (PullResult.applied r) (PullResult.conflicts r)
               (PullResult.errors r ++ [invalidTable tableName]))
      end
  end.

Definition initial : PullResult.t := PullResult.mk true 0 0 0 [].

Definition finish (r : PullResult.t) : PullResult.t :=
  PullResult.mk (Nat.eqb (length (PullResult.errors r)) 0)
    (PullResult.pulled r) (PullResult.applied r) (PullResult.conflicts r)
    (PullResult.errors r).

(** [pull(table)]. *)
Definition pull (config : SyncConfig.t) (env : Env.t) (table : option string)
    (d : Db.t) (log : list SyncEvent) : state :=
  let tables :=
    match OutboxManager.given table with
    | Some name => [name]
    | None => pullTables (SyncConfig.routes config)
    end in
  let s := List.fold_left (pullTable config env) tables
             (mkState d log initial) in
  mkState (db s) (emitted s) (finish (result s)).

(** The [tables] of [pull(table)]: the named table, or every table with a
    pull route. *)
Definition selectedTables (config : SyncConfig.t) (table : option string)
  : list string :=
  match OutboxManager.given table with
  | Some name => [name]
  | None => pullTables (SyncConfig.routes config)
  end.

(** The number of records the fetch of a table returns. *)
Definition fetched (config : SyncConfig.t) (env : Env.t) (tableName : string)
  : nat :=
  match RestAdapter.pull (SyncConfig.routes config) env tableName with
  | Records items => length items
  | Failed _ => 0
  end.

(** The pull of a table fails: its fetch throws, or the store has no such
    table. *)
Definition tableFails (config : SyncConfig.t) (env : Env.t) (d : Db.t)
    (tableName : string) : bool :=
  match RestAdapter.pull (SyncConfig.routes config) env tableName with
  | Records _ => bool_decide (Db.tables d !! tableName = None)
  | Failed _ => true
  end.

(** The part of a table in the counters of a pull. *)
Definition share (config : SyncConfig.t) (env : Env.t) (d : Db.t)
    (name : string) : nat :=
  if tableFails config env d name then 0%nat else fetched config env name.

End PullProcessor.

(* ===================================================================== *)
(** ** core/sync-engine.ts                                                *)
(* ===================================================================== *)

Module SyncEngine.

(** The fields of the engine, with the state of its collaborators:
    [onlineStatus] and the emitted events are the context's, [db] the
    store's, [leader] is [leaderElection.isLeader()], [syncInterval] tells
    whether the periodic timer is armed, and the three counters are the
    metrics collector's. *)
Record t := mk {
  config : SyncConfig.t;
  db : Db.t;
  onlineStatus : bool;
  leader : bool;
  isRunning : bool;
  isPausedFlag : bool;
  isSyncingFlag : bool;
  syncInterval : bool;
  pausedTables : gset string;
  emitted : list SyncEvent;
  syncCount : N;
  pushCount : N;
  pullCount : N
}.

Definition create (c : SyncConfig.t) (d : Db.t) (isOnline : bool) : t :=
  mk c d isOnline false false false false false ∅ [] 0 0 0.

Definition with_db (d : Db.t) (e : t) : t :=
  mk (config e) d (onlineStatus e) (leader e) (isRunning e) (isPausedFlag e)
     (isSyncingFlag e) (syncInterval e) (pausedTables e) (emitted e)
     (syncCount e) (pushCount e) (pullCount e).

Definition with_isPausedFlag (b : bool) (e : t) : t :=
  mk (config e) (db e) (onlineStatus e) (leader e) (isRunning e) b
     (isSyncingFlag e) (syncInterval e) (pausedTables e) (emitted e)
     (syncCount e) (pushCount e) (pullCount e).

Definition with_isSyncingFlag (b : bool) (e : t) : t :=
  mk (config e) (db e) (onlineStatus e) (leader e) (isRunning e)
     (isPausedFlag e) b (syncInterval e) (pausedTables e) (emitted e)
     (syncCount e) (pushCount e) (pullCount e).

Definition with_syncInterval (b : bool) (e : t) : t :=
  mk (config e) (db e) (onlineStatus e) (leader e) (isRunning e)
     (isPausedFlag e) (isSyncingFlag e) b (pausedTables e) (emitted e)
     (syncCount e) (pushCount e) (pullCount e).

Definition with_pausedTables (s : gset string) (e : t) : t :=
  mk (config e) (db e) (onlineStatus e) (leader e) (isRunning e)
     (isPausedFlag e) (isSyncingFlag e) (syncInterval e) s (emitted e)
     (syncCount e) (pushCount e) (pullCount e).

Definition with_emitted (l : list SyncEvent) (e : t) : t :=
  mk (config e) (db e) (onlineStatus e) (leader e) (isRunning e)
     (isPausedFlag e) (isSyncingFlag e) (syncInterval e) (pausedTables e) l
     (syncCount e) (pushCount e) (pullCount e).

Definition with_counts (s p q : N) (e : t) : t :=
  mk (config e) (db e) (onlineStatus e) (leader e) (isRunning e)
     (isPausedFlag e) (isSyncingFlag e) (syncInterval e) (pausedTables e)
     (emitted e) s p q.

(** [this.context.emit(event)]. *)
Definition emit (event : SyncEvent) (e : t) : t :=
  with_emitted (emitted e ++ [event]) e.

Definition recordPush (e : t) : t :=
  with_counts (syncCount e) (pushCount e + 1)%N (pullCount e) e.

Definition recordPull (e : t) : t :=
  with_counts (syncCount e) (pushCount e) (pullCount e + 1)%N e.

Definition recordSyncComplete (e : t) : t :=
  with_counts (syncCount e + 1)%N (pushCount e) (pullCount e) e.

Definition stopSyncInterval (e : t) : t := with_syncInterval false e.

Definition startSyncInterval (e : t) : t :=
  let e := stopSyncInterval e in
  match SyncConfig.interval (config e) with
  | Some interval => if 0 <? interval then with_syncInterval true e else e
  | None => e
  end.

(** [push(table)] and [pull(table)] of the engine hand over to the two
    processors. *)
Definition push (env : Env.t) (table : option string) (e : t)
  : PushResult.t * t :=
  let '(d, r) := PushProcessor.push (config e) env table (db e) in
  (r, with_db d e).

Definition pull (env : Env.t) (table : option string) (e : t)
  : PullResult.t * t :=
  let s := PullProcessor.pull (config e) env table (db e) (emitted e) in
  (PullProcessor.result s,
   with_emitted (PullProcessor.emitted s) (with_db (PullProcessor.db s) e)).

(** The three guards at the head of [sync()]: the message of the error
    that is thrown, if one is. *)
Definition sync_guard (e : t) : option string :=
  if negb (onlineStatus e) then Some "Cannot sync while offline"
  else if isPausedFlag e then Some "Sync is paused"
  else if isSyncingFlag e then Some "Sync already in progress"
  else None.

(** [sync()] from the guards to its first suspension: the flag is set and
    [sync-start] is emitted. *)
Definition sync_enter (e : t) : t :=
  emit sync_start (with_isSyncingFlag true e).

(** The [try] block of [sync()] and its [finally]. *)
Definition sync_cycle (env : Env.t) (e : t) : SyncResult.t * t :=
  let e := emit push_start e in
  let '(pushResult, e) := push env None e in
  let e := recordPush (emit push_complete e) in
  let e := if PushResult.success pushResult then e else emit push_error e in
  let e := emit pull_start e in
  let '(pullResult, e) := pull env None e in
  let e := recordPull (emit pull_complete e) in
  let e := if PullResult.success pullResult then e else emit pull_error e in
  let result :=
    SyncResult.mk
      (PushResult.success pushResult && PullResult.success pullResult)
      pushResult pullResult in
  let e := recordSyncComplete (emit sync_complete e) in
  (result, with_isSyncingFlag false e).

(** [sync()]. *)
Definition sync (env : Env.t) (e : t) : Js.outcome SyncResult.t * t :=
  match sync_guard e with
  | Some message => (Js.Thrown message, e)
  | None =>
      let '(result, e') := sync_cycle env (sync_enter e) in
      (Js.Returned result, e')
  end.

Definition syncTable (env : Env.t) (table : string) (e : t)
  : SyncResult.t * t :=
  let '(pushResult, e) := push env (Some table) e in
  let '(pullResult, e) := pull env (Some table) e in
  (SyncResult.mk
     (PushResult.success pushResult && PullResult.success pullResult)
     pushResult pullResult,
   e).

Definition pause (e : t) : t := stopSyncInterval (with_isPausedFlag true e).

Definition pauseTable (table : string) (e : t) : t :=
  with_pausedTables ({[table]} ∪ pausedTables e) e.

Definition resumeTable (table : string) (e : t) : t :=
  with_pausedTables (pausedTables e ∖ {[table]}) e.

Definition with_isRunning (b : bool) (e : t) : t :=
  mk (config e) (db e) (onlineStatus e) (leader e) b (isPausedFlag e)
     (isSyncingFlag e) (syncInterval e) (pausedTables e) (emitted e)
     (syncCount e) (pushCount e) (pullCount e).

Definition with_leader (b : bool) (e : t) : t :=
  mk (config e) (db e) (onlineStatus e) b (isRunning e) (isPausedFlag e)
     (isSyncingFlag e) (syncInterval e) (pausedTables e) (emitted e)
     (syncCount e) (pushCount e) (pullCount e).

(** [resume()]: what its [await this.sync()] throws is thrown by
    [resume()] itself. *)
Definition resume (env : Env.t) (e : t) : Js.outcome unit * t :=
  let e := with_isPausedFlag false e in
  if isRunning e && leader e then
    match sync env (startSyncInterval e) with
    | (Js.Returned _, e') => (Js.Returned tt, e')
    | (Js.Thrown message, e') => (Js.Thrown message, e')
    end
  else (Js.Returned tt, e).

(** [stop()]; [leaderElection.destroy()] resigns, and the callback of
    the resignation stops the interval once more. *)
Definition stop (e : t) : t :=
  stopSyncInterval (with_leader false (stopSyncInterval (with_isRunning false e))).

(** The callback of the periodic timer:
    [if (!this.isPausedFlag && this.context.isOnline())
       this.sync().catch(console.error)]. *)
Definition intervalTick (env : Env.t) (e : t) : t :=
  if negb (isPausedFlag e) && onlineStatus e then snd (sync env e) else e.

(** [getDeadLetters(table)]. *)
Definition getDeadLetters (table : option string) (e : t)
  : list DeadLetterItem.t :=
  match OutboxManager.given table with
  | Some name =>
      List.filter (fun item => String.eqb (DeadLetterItem.table item) name)
                  (Db.deadLetters (db e))
  | None => Db.deadLetters (db e)
  end.

(** [retryDeadLetter(id)]; [now] is the [Date.now()] that [add] reads. *)
Definition retryDeadLetter (now : Z) (i : N) (e : t) : Js.outcome unit * t :=
  match Db.deadLetters_get i (db e) with
  | None => (Js.Thrown ("Dead letter " ++ pretty i ++ " not found"), e)
  | Some item =>
      let d :=
        OutboxManager.add now (DeadLetterItem.table item)
          (DeadLetterItem.operation item) (DeadLetterItem.key item)
          (DeadLetterItem.obj item) (db e) in
      (Js.Returned tt, with_db (Db.deadLetters_delete i d) e)
  end.

End SyncEngine.

(* ===================================================================== *)
(** ** utils/leader-election.ts                                           *)
(* ===================================================================== *)

Module LeaderElection.

Inductive MessageType := election | election_response | leader | heartbeat.

Module Message.
Record t := mk {
  type : MessageType;
  tabId : string;
  timestamp : option Z
}.
End Message.

(** The fields of one [LeaderElection] object; [notified] lists the calls
    of the [onLeaderChange] callback, oldest first. *)
Record t := mk {
  tabId : string;
  isLeaderFlag : bool;
  electionTimeout : option Z;
  heartbeatInterval : bool;
  notified : list bool
}.

(** The object as its constructor leaves it. *)
Definition create (tabId : string) : t := mk tabId false None false [].

(** [timestamp < this.electionTimeout!]: a comparison with [undefined] is
    false. *)
Definition earlier (timestamp electionTimeout : option Z) : bool :=
  match timestamp, electionTimeout with
  | Some a, Some b => a <? b
  | _, _ => false
  end.

Definition step_down (notify : bool) (me : t) : t :=
  mk (tabId me) false (electionTimeout me) (heartbeatInterval me)
     (if notify then notified me ++ [false] else notified me).

(** [channel.onmessage]: the new state and the messages it posts. *)
Definition onmessage (now : Z) (me : t) (m : Message.t)
  : t * list Message.t :=
  let other := negb (String.eqb (Message.tabId m) (tabId me)) in
  match Message.type m with
  | election =>
      (me, [Message.mk election_response (tabId me) (Some now)])
  | election_response =>
      if earlier (Message.timestamp m) (electionTimeout me) && other
      then (step_down false me, [])
      else (me, [])
  | leader =>
      if other then (step_down true me, []) else (me, [])
  | heartbeat =>
      if other then (step_down false me, []) else (me, [])
  end.

(** [electLeader()] up to the [setTimeout]. *)
Definition electLeader_request (now : Z) (me : t) : t * list Message.t :=
  (mk (tabId me) (isLeaderFlag me) (Some now) (heartbeatInterval me)
      (notified me),
   [Message.mk election (tabId me) (Some now)]).

(** The callback of the [setTimeout] of [electLeader()], 100 ms later:
    [if (this.electionTimeout)] tests the time stamp for truthiness. *)
Definition electLeader_timeout (me : t) : t * list Message.t :=
  match electionTimeout me with
  | Some stamp =>
      if negb (stamp =? 0)
      then (mk (tabId me) true (electionTimeout me) true (notified me ++ [true]),
            [Message.mk leader (tabId me) None])
      else (me, [])
  | None => (me, [])
  end.

Definition settleWindow : Z := 100.

(** The callback of the heartbeat interval. *)
Definition heartbeat_tick (me : t) : list Message.t :=
  if isLeaderFlag me then [Message.mk heartbeat (tabId me) None] else [].

Definition isLeader (me : t) : bool := isLeaderFlag me.

(** *** Several instances on one broadcast channel

    Each instance runs in its own tab: it has a queue of message events
    not yet dispatched and, while an election runs, the time at which
    its timer is due.  [postMessage] appends the message to the queue of
    every other instance. *)
Record tab := mkTab {
  instance : t;
  inbox : list Message.t;
  electionTimer : option Z
}.

Record net := mkNet {
  clock : Z;
  tabs : list tab
}.

Definition postMessages (from : nat) (ms : list Message.t) (l : list tab)
  : list tab :=
  imap (fun j x =>
          if Nat.eqb j from then x
          else mkTab (instance x) (inbox x ++ ms) (electionTimer x))
       l.

Inductive action :=
| Elect (i : nat)
| Deliver (i : nat)
| Expire (i : nat)
| Beat (i : nat)
| Tick (d : Z).

(** One step of the system; [None] when the action is not enabled.
    [Elect i] is a call of [electLeader()] in instance [i], [Deliver i]
    the dispatch of the oldest message event of [i], [Expire i] the
    callback of its election timer, due 100 ms after the call, [Beat i]
    the callback of its heartbeat interval, and [Tick d] the passing of
    [d] ms.  An instance runs one election at a time. *)
Definition step (a : action) (n : net) : option net :=
  match a with
  | Elect i =>
      x ← tabs n !! i;
      let '(me, out) := electLeader_request (clock n) (instance x) in
      let x' := mkTab me (inbox x) (Some (clock n + settleWindow)) in
      Some (mkNet (clock n) (postMessages i out (<[i := x']> (tabs n))))
  | Deliver i =>
      x ← tabs n !! i;
      match inbox x with
      | [] => None
      | m :: rest =>
          let '(me, out) := onmessage (clock n) (instance x) m in
          let x' := mkTab me rest (electionTimer x) in
          Some (mkNet (clock n) (postMessages i out (<[i := x']> (tabs n))))
      end
  | Expire i =>
      x ← tabs n !! i;
      match electionTimer x with
      | Some due =>
          if due <=? clock n then
            let '(me, out) := electLeader_timeout (instance x) in
            let x' := mkTab me (inbox x) None in
            Some (mkNet (clock n) (postMessages i out (<[i := x']> (tabs n))))
          else None
      | None => None
      end
  | Beat i =>
      x ← tabs n !! i;
      if heartbeatInterval (instance x)
      then Some (mkNet (clock n)
                   (postMessages i (heartbeat_tick (instance x)) (tabs n)))
      else None
  | Tick d =>
      if 0 <=? d then Some (mkNet (clock n + d) (tabs n)) else None
  end.

Fixpoint run (schedule : list action) (n : net) : option net :=
  match schedule with
  | [] => Some n
  | a :: rest => n' ← step a n; run rest n'
  end.

(** The instances as their constructors leave them, at time [now]. *)
Definition start (now : Z) (ids : list string) : net :=
  mkNet now (List.map (fun i => mkTab (create i) [] None) ids).

(** Every election has run to its end and every message has been
    dispatched. *)
Definition settled (n : net) : bool :=
  forallb (fun x => match inbox x, electionTimer x with
                    | [], None => true
                    | _, _ => false
                    end) (tabs n).

(** Every instance has run [electLeader()]. *)
Definition all_elected (n : net) : bool :=
  forallb (fun x => bool_decide (is_Some (electionTimeout (instance x))))
          (tabs n).

(** The identifiers of the instances whose [isLeader()] is true. *)
Definition leaders (n : net) : list string :=
  List.map (fun x => tabId (instance x))
    (List.filter (fun x => isLeader (instance x)) (tabs n)).

Definition is_Elect (a : action) : bool :=
  match a with Elect _ => true | _ => false end.

(** Once no instance leads, no message is pending and no election is
    running, nothing but a new call of [electLeader()] changes that: the
    heartbeat timers of instances that do not lead post nothing. *)
Definition quiet (n : net) : Prop :=
  Forall (fun x =>
            isLeaderFlag (instance x) = false
            /\ inbox x = []
            /\ electionTimer x = None)
         (tabs n).

(** The messages [ms] dispatched to one instance, one after the other,
    at time [now]. *)
Definition dispatch (now : Z) (me : t) (ms : list Message.t) : t :=
  List.fold_left (fun m msg => fst (onmessage now m msg)) ms me.

(** The announcement of the instance with identifier [tabId]. *)
Definition announcement (tabId : string) : Message.t :=
  Message.mk leader tabId None.

(** Instance [j], with identifier [idj], has declared itself leader;
    every other instance has its announcement before it, or has stepped
    down on it; nothing else is pending. *)
Definition announced (j : nat) (idj : string) (n : net) : Prop :=
  forall i x,
    tabs n !! i = Some x ->
    electionTimer x = None
    /\ if Nat.eqb i j
       then tabId (instance x) = idj
            /\ isLeaderFlag (instance x) = true
            /\ inbox x = []
       else tabId (instance x) <> idj
            /\ (inbox x = [announcement idj]
                \/ (inbox x = [] /\ isLeaderFlag (instance x) = false)).

Definition is_Deliver_or_Tick (a : action) : bool :=
  match a with Deliver _ | Tick _ => true | _ => false end.

End LeaderElection.

(* ===================================================================== *)
(** ** utils/rate-limiter.ts                                              *)
(* ===================================================================== *)

Module RateLimiter.

Module RateLimitConfig.
Record t := mk {
  maxRequests : Z;
  windowMs : Z
}.
End RateLimitConfig.

Module RateLimitEntry.
Record t := mk {
  requests : list Z;
  windowStart : Z
}.
End RateLimitEntry.

(** The field [limits]. *)
Definition t := gmap string RateLimitEntry.t.

Definition create : t := ∅.

(** [limits.get(key)?.requests]. *)
Definition requestsOf (key : string) (limits : t) : list Z :=
  match limits !! key with
  | Some entry => RateLimitEntry.requests entry
  | None => []
  end.

(** How one run of the body of [throttle] ends: the request is recorded,
    or the call sleeps for [waitTime] ms and starts again. *)
Inductive verdict :=
| Pass
| Wait (waitTime : Z).

(** The body of [throttle(key)] up to its [await], or to its end when it
    does not wait; [now] is its [Date.now()].  With no request left in
    the window [entry.requests[0]] is [undefined], [waitTime] is [NaN]
    and [waitTime > 0] is false. *)
Definition enter (config : RateLimitConfig.t) (now : Z) (key : string)
    (limits : t) : verdict * t :=
  let entry :=
    match limits !! key with
    | Some entry => entry
    | None => RateLimitEntry.mk [] now
    end in
  let windowStart := now - RateLimitConfig.windowMs config in
  let requests :=
    List.filter (fun time => windowStart <? time)
                (RateLimitEntry.requests entry) in
  let pass :=
    (Pass,
     <[key := RateLimitEntry.mk (requests ++ [now])
                (RateLimitEntry.windowStart entry)]> limits) in
  if RateLimitConfig.maxRequests config <=? Z.of_nat (length requests) then
    match requests with
    | oldestRequest :: _ =>
        let waitTime := RateLimitConfig.windowMs config - (now - oldestRequest) in
        if 0 <? waitTime
        then (Wait waitTime,
              <[key := RateLimitEntry.mk requests
                         (RateLimitEntry.windowStart entry)]> limits)
        else pass
    | [] => pass
    end
  else pass.

(** [throttle(key)] to its end, with no other call in between: the timer
    of its [k]-th sleep fires [late k] ms after it is due.  The result is
    the time at which the request is recorded; [None] when [fuel] sleeps
    were not enough. *)
Fixpoint throttle (config : RateLimitConfig.t) (late : nat -> Z) (fuel : nat)
    (now : Z) (key : string) (limits : t) : option (Z * t) :=
  match enter config now key limits with
  | (Pass, limits') => Some (now, limits')
  | (Wait waitTime, limits') =>
      match fuel with
      | O => None
      | S fuel' =>
          throttle config (fun k => late (S k)) fuel'
            (now + waitTime + late O) key limits'
      end
  end.

(** The bodies of [throttle] that run one after the other, each with its
    [Date.now()] and its key, whatever calls they belong to: the requests
    recorded, oldest first, and the limiter afterwards. *)
Fixpoint run (config : RateLimitConfig.t) (calls : list (Z * string))
    (limits : t) : list (Z * string) * t :=
  match calls with
  | [] => ([], limits)
  | (now, key) :: rest =>
      let '(v, limits') := enter config now key limits in
      let '(recorded, final) := run config rest limits' in
      (match v with
       | Pass => (now, key) :: recorded
       | Wait _ => recorded
       end, final)
  end.

(** The requests of [key] among [recorded] that fall in the window of
    [windowMs] ms that ends at [t]. *)
Definition inWindow (config : RateLimitConfig.t) (key : string) (t : Z)
    (recorded : list (Z * string)) : list (Z * string) :=
  List.filter
    (fun r => String.eqb (snd r) key
              && (t - RateLimitConfig.windowMs config <? fst r)
              && (fst r <=? t))
    recorded.

(** The requests of [key] recorded so far are [history], none of them
    after [clock], and the entry of [key] holds those that a later call
    still has to count. *)
Definition tracks (config : RateLimitConfig.t) (key : string) (clock : Z)
    (history : list Z) (limits : t) : Prop :=
  Forall (fun time => time <= clock) history
  /\ (forall b, clock <= b ->
        List.filter (fun time => b - RateLimitConfig.windowMs config <? time)
                    (requestsOf key limits)
        = List.filter (fun time => b - RateLimitConfig.windowMs config <? time)
                      history)
  /\ (forall t : Z,
        Z.of_nat
          (length (List.filter
                     (fun time =>
                        (t - RateLimitConfig.windowMs config <? time)
                        && (time <=? t))
                     history))
        <= Z.max 1 (RateLimitConfig.maxRequests config)).

End RateLimiter.

(* ===================================================================== *)
(** ** adapters/http-client.ts                                            *)
(* ===================================================================== *)

Module HttpClient.

(** What one call of [executeRequest] does: it returns the parsed body,
    or throws. *)
Inductive exchange (T : Type) :=
| Ok (body : T)
| Fails (error : Caught).

Arguments Ok {T} body.
Arguments Fails {T} error.

(** What [request] does: it returns a body or throws [lastError], which
    is [null] as long as nothing was caught. *)
Inductive result (T : Type) :=
| Resolved (body : T)
| Rejected (lastError : option Caught).

Arguments Resolved {T} body.
Arguments Rejected {T} lastError.

(** [lastError.retryAfter]. *)
Definition retryAfter (e : Caught) : option Z :=
  match e with
  | Classified s => SyncError.retryAfter s
  | PlainError _ => None
  end.

(** [lastError.retryAfter ?? calculateBackoff(attempt)]. *)
Definition delayOf (random : nat -> Q) (attempt : nat) (e : Caught) : Z :=
  match retryAfter e with
  | Some ms => ms
  | None =>
      Backoff.calculateBackoff (N.of_nat attempt) Backoff.defaultMaxDelay
        (random attempt)
  end.

(** The [for] loop of [request] from [attempt] on, [turns] iterations
    being left: the result and the delays it slept, oldest first.
    [executeRequest k] is the exchange of attempt [k], [random k] the
    draw of its backoff. *)
Fixpoint loop {T : Type} (executeRequest : nat -> exchange T)
    (random : nat -> Q) (maxRetries : Z) (turns attempt : nat)
    (lastError : option Caught) : result T * list Z :=
  match turns with
  | O => (Rejected lastError, [])
  | S turns' =>
      match executeRequest attempt with
      | Ok body => (Resolved body, [])
      | Fails error =>
          if negb (Caught_retryable error) || (maxRetries <=? Z.of_nat attempt)
          then (Rejected (Some error), [])
          else
            let '(r, delays) :=
              loop executeRequest random maxRetries turns' (S attempt)
                   (Some error) in
            (r, delayOf random attempt error :: delays)
      end
  end.

(** [options.maxRetries ?? 3]. *)
Definition maxRetriesOf (maxRetries : option Z) : Z :=
  match maxRetries with
  | Some m => m
  | None => 3
  end.

(** [request(options)]; the loop runs while [attempt <= maxRetries]. *)
Definition request {T : Type} (maxRetries : option Z)
    (executeRequest : nat -> exchange T) (random : nat -> Q)
  : result T * list Z :=
  let m := maxRetriesOf maxRetries in
  loop executeRequest random m (Z.to_nat (m + 1)) O None.

(** Attempt [k] ends the loop: it succeeds, its error is not retryable,
    or it is the last attempt allowed. *)
Definition decisive {T : Type} (maxRetries : Z)
    (executeRequest : nat -> exchange T) (k : nat) : bool :=
  match executeRequest k with
  | Ok _ => true
  | Fails error =>
      negb (Caught_retryable error) || (maxRetries <=? Z.of_nat k)
  end.

(** What [request] returns or throws when attempt [k] ends the loop. *)
Definition outcomeOf {T : Type} (x : exchange T) : result T :=
  match x with
  | Ok body => Resolved body
  | Fails error => Rejected (Some error)
  end.

(** The delay slept after the failure of attempt [k]. *)
Definition delayAfter {T : Type} (executeRequest : nat -> exchange T)
    (random : nat -> Q) (k : nat) : Z :=
  match executeRequest k with
  | Ok _ => 0
  | Fails error => delayOf random k error
  end.

End HttpClient.

(* ===================================================================== *)
(** ** utils/metrics.ts                                                   *)
(* ===================================================================== *)

Module MetricsCollector.

(** The fields of [metrics] that the engine reads or writes, and
    [latencies].  Counters are integers and [avgLatency] an exact
    rational; [avgProcessingTime], which nothing writes, is left out. *)
Record t := mk {
  depth : Z;
  oldestItemAge : Z;
  lastSyncStarted : Z;
  lastSyncCompleted : Z;
  lastSyncDuration : Z;
  syncCount : Z;
  pushCount : Z;
  pullCount : Z;
  total : Z;
  byType : gmap string Z;
  failedRetries : Z;
  deadLetterCount : Z;
  requestCount : Z;
  bytesUploaded : Z;
  bytesDownloaded : Z;
  avgLatency : Q;
  latencies : list Z
}.

Definition create : t := mk 0 0 0 0 0 0 0 0 0 ∅ 0 0 0 0 0 0%Q [].

Definition recordSyncStart (now : Z) (m : t) : t :=
  mk (depth m) (oldestItemAge m) now (lastSyncCompleted m)
     (lastSyncDuration m) (syncCount m) (pushCount m) (pullCount m) (total m)
     (byType m) (failedRetries m) (deadLetterCount m) (requestCount m)
     (bytesUploaded m) (bytesDownloaded m) (avgLatency m) (latencies m).

Definition recordSyncComplete (now : Z) (m : t) : t :=
  mk (depth m) (oldestItemAge m) (lastSyncStarted m) now
     (now - lastSyncStarted m) (syncCount m + 1) (pushCount m) (pullCount m)
     (total m) (byType m) (failedRetries m) (deadLetterCount m)
     (requestCount m) (bytesUploaded m) (bytesDownloaded m) (avgLatency m)
     (latencies m).

Definition recordPush (m : t) : t :=
  mk (depth m) (oldestItemAge m) (lastSyncStarted m) (lastSyncCompleted m)
     (lastSyncDuration m) (syncCount m) (pushCount m + 1) (pullCount m)
     (total m) (byType m) (failedRetries m) (deadLetterCount m)
     (requestCount m) (bytesUploaded m) (bytesDownloaded m) (avgLatency m)
     (latencies m).

Definition recordPull (m : t) : t :=
  mk (depth m) (oldestItemAge m) (lastSyncStarted m) (lastSyncCompleted m)
     (lastSyncDuration m) (syncCount m) (pushCount m) (pullCount m + 1)
     (total m) (byType m) (failedRetries m) (deadLetterCount m)
     (requestCount m) (bytesUploaded m) (bytesDownloaded m) (avgLatency m)
     (latencies m).

(** [byType[type] = (byType[type] || 0) + 1]. *)
Definition recordError (type : string) (m : t) : t :=
  mk (depth m) (oldestItemAge m) (lastSyncStarted m) (lastSyncCompleted m)
     (lastSyncDuration m) (syncCount m) (pushCount m) (pullCount m)
     (total m + 1)
     (<[type := match byType m !! type with
                | Some n => n + 1
                | None => 1
                end]> (byType m))
     (failedRetries m) (deadLetterCount m) (requestCount m) (bytesUploaded m)
     (bytesDownloaded m) (avgLatency m) (latencies m).

Definition recordFailedRetry (m : t) : t :=
  mk (depth m) (oldestItemAge m) (lastSyncStarted m) (lastSyncCompleted m)
     (lastSyncDuration m) (syncCount m) (pushCount m) (pullCount m) (total m)
     (byType m) (failedRetries m + 1) (deadLetterCount m) (requestCount m)
     (bytesUploaded m) (bytesDownloaded m) (avgLatency m) (latencies m).

Definition recordDeadLetter (m : t) : t :=
  mk (depth m) (oldestItemAge m) (lastSyncStarted m) (lastSyncCompleted m)
     (lastSyncDuration m) (syncCount m) (pushCount m) (pullCount m) (total m)
     (byType m) (failedRetries m) (deadLetterCount m + 1) (requestCount m)
     (bytesUploaded m) (bytesDownloaded m) (avgLatency m) (latencies m).

(** [latencies.reduce((a, b) => a + b, 0)]. *)
Definition sum (l : list Z) : Z := List.fold_left Z.add l 0.

(** [latencies.push(latency)] and, beyond 100 entries,
    [latencies.shift()]. *)
Definition window (latencies : list Z) (latency : Z) : list Z :=
  let pushed := (latencies ++ [latency])%list in
  if (100 <? length pushed)%nat then List.tl pushed else pushed.

Definition recordRequest (uploaded downloaded latency : Z) (m : t) : t :=
  let kept := window (latencies m) latency in
  mk (depth m) (oldestItemAge m) (lastSyncStarted m) (lastSyncCompleted m)
     (lastSyncDuration m) (syncCount m) (pushCount m) (pullCount m) (total m)
     (byType m) (failedRetries m) (deadLetterCount m) (requestCount m + 1)
     (bytesUploaded m + uploaded) (bytesDownloaded m + downloaded)
     (inject_Z (sum kept) / inject_Z (Z.of_nat (length kept)))%Q kept.

Definition updateQueueDepth (d : Z) (m : t) : t :=
  mk d (oldestItemAge m) (lastSyncStarted m) (lastSyncCompleted m)
     (lastSyncDuration m) (syncCount m) (pushCount m) (pullCount m) (total m)
     (byType m) (failedRetries m) (deadLetterCount m) (requestCount m)
     (bytesUploaded m) (bytesDownloaded m) (avgLatency m) (latencies m).

Definition updateOldestItemAge (age : Z) (m : t) : t :=
  mk (depth m) age (lastSyncStarted m) (lastSyncCompleted m)
     (lastSyncDuration m) (syncCount m) (pushCount m) (pullCount m) (total m)
     (byType m) (failedRetries m) (deadLetterCount m) (requestCount m)
     (bytesUploaded m) (bytesDownloaded m) (avgLatency m) (latencies m).

Definition reset (m : t) : t := create.

(** [recordRequest] for each of [requests], oldest first. *)
Definition recordRequests (requests : list (Z * Z * Z)) (m : t) : t :=
  List.fold_left
    (fun m r => recordRequest (fst (fst r)) (snd (fst r)) (snd r) m)
    requests m.

End MetricsCollector.

(* ===================================================================== *)
(** ** core/sync-engine.ts: metrics and health                            *)
(* ===================================================================== *)

Module Health.

(** The calls the engine makes on its metrics collector: the four of
    [sync()] and the two of [getMetrics()].  It makes no other. *)
Inductive call :=
| RecordSyncStart (now : Z)
| RecordPush
| RecordPull
| RecordSyncComplete (now : Z)
| UpdateQueueDepth (depth : Z)
| UpdateOldestItemAge (age : Z).

Definition perform (m : MetricsCollector.t) (c : call) : MetricsCollector.t :=
  match c with
  | RecordSyncStart now => MetricsCollector.recordSyncStart now m
  | RecordPush => MetricsCollector.recordPush m
  | RecordPull => MetricsCollector.recordPull m
  | RecordSyncComplete now => MetricsCollector.recordSyncComplete now m
  | UpdateQueueDepth d => MetricsCollector.updateQueueDepth d m
  | UpdateOldestItemAge age => MetricsCollector.updateOldestItemAge age m
  end.

(** The collector of an engine after the calls [cs], oldest first. *)
Definition after (cs : list call) : MetricsCollector.t :=
  List.fold_left perform cs MetricsCollector.create.

(** The calls of one [sync()] that passes its guards and whose push and
    pull return. *)
Definition syncCalls (started completed : Z) : list call :=
  [RecordSyncStart started; RecordPush; RecordPull;
   RecordSyncComplete completed].

(** [getMetrics()]: the calls it makes; [now] is its [Date.now()]. *)
Definition getMetricsCalls (now : Z) (db : Db.t) : list call :=
  UpdateQueueDepth (Z.of_nat (OutboxManager.getDepth None db))
  :: match OutboxManager.getOldestItem db with
     | Some oldest => [UpdateOldestItemAge (now - OutboxItem.createdAt oldest)]
     | None => []
     end.

Definition getMetrics (now : Z) (db : Db.t) (m : MetricsCollector.t)
  : MetricsCollector.t :=
  List.fold_left perform (getMetricsCalls now db) m.

Inductive Severity := warning | error.

(** An issue of the health check, without its message. *)
Record issue := mkIssue {
  severity : Severity;
  code : string
}.

Record HealthCheckResult := mkResult {
  healthy : bool;
  issues : list issue;
  queueDepth : Z;
  lastSync : Z;
  errorRate : Q
}.

Definition isError (i : issue) : bool :=
  match severity i with
  | error => true
  | warning => false
  end.

(** [metrics.errors.total / (metrics.sync.syncCount || 1)]. *)
Definition errorRateOf (metrics : MetricsCollector.t) : Q :=
  (inject_Z (MetricsCollector.total metrics)
   / inject_Z (if MetricsCollector.syncCount metrics =? 0 then 1
               else MetricsCollector.syncCount metrics))%Q.

(** [healthCheck()] from the [metrics] that [getMetrics()] returned;
    [now] is its [Date.now()]. *)
Definition check (now : Z) (metrics : MetricsCollector.t) : HealthCheckResult :=
  let depthIssue :=
    if 100 <? MetricsCollector.depth metrics
    then [mkIssue warning "HIGH_QUEUE_DEPTH"] else [] in
  let timeSinceLastSync := now - MetricsCollector.lastSyncCompleted metrics in
  let staleIssue :=
    if 300000 <? timeSinceLastSync
    then [mkIssue warning "STALE_SYNC"] else [] in
  let rate := errorRateOf metrics in
  let rateIssue :=
    if negb (Qle_bool rate (1 # 10))
    then [mkIssue error "HIGH_ERROR_RATE"] else [] in
  let issues := (depthIssue ++ staleIssue ++ rateIssue)%list in
  mkResult (Nat.eqb (length (List.filter isError issues)) 0) issues
    (MetricsCollector.depth metrics)
    (MetricsCollector.lastSyncCompleted metrics) rate.

(** [healthCheck()] on an engine whose collector is [m]. *)
Definition healthCheck (now now' : Z) (db : Db.t) (m : MetricsCollector.t)
  : HealthCheckResult * MetricsCollector.t :=
  let metrics := getMetrics now db m in
  (check now' metrics, metrics).

End Health.

(* ===================================================================== *)
(** ** core/sync-engine.ts: starting the engine                           *)
(* ===================================================================== *)

Module Lifecycle.

(** The engine together with its [leaderElection] object. *)
Record t := mk {
  engine : SyncEngine.t;
  election : LeaderElection.t
}.

(** [getSyncedTables()]; [tables] and [excludeTables] are the two fields
    of the configuration that [SyncConfig.t] leaves out.  An array is
    truthy, the empty one too. *)
Definition getSyncedTables (tables excludeTables : option (list string))
    (e : SyncEngine.t) : list string :=
  let allTables := List.map fst (SyncConfig.routes (SyncEngine.config e)) in
  match tables, excludeTables with
  | Some named, _ => named
  | None, Some excluded =>
      List.filter (fun t => negb (List.existsb (String.eqb t) excluded))
                  allTables
  | None, None => allTables
  end.

(** [changeTracker.startTracking(tables)]: [db.table(name)] throws on the
    first table that the schema does not have.  The hooks it installs
    are the callers of [trackChange]. *)
Definition startTracking (tables : list string) (d : Db.t) : option string :=
  List.find (fun name => bool_decide (Db.tables d !! name = None)) tables.

(** The leadership callback that the constructor of the engine hands to
    [onLeadershipChange]. *)
Definition onLeadershipChange (isLeader : bool) (e : SyncEngine.t)
  : SyncEngine.t :=
  if isLeader && SyncEngine.isRunning e
  then SyncEngine.startSyncInterval e
  else SyncEngine.stopSyncInterval e.

(** The engine when its election object has gone from [before] to
    [after]: [isLeader()] is the flag of [after], and the leadership
    callback has run for every call that [after] records beyond those of
    [before]. *)
Definition follow (before after : LeaderElection.t) (e : SyncEngine.t)
  : SyncEngine.t :=
  List.fold_left (fun e isLeader => onLeadershipChange isLeader e)
    (List.skipn (length (LeaderElection.notified before))
                (LeaderElection.notified after))
    (SyncEngine.with_leader (LeaderElection.isLeaderFlag after) e).

(** The dispatch of a message event of the channel, at the time
    [fst event]. *)
Definition deliver (s : t) (event : Z * LeaderElection.Message.t) : t :=
  let me :=
    fst (LeaderElection.onmessage (fst event) (election s) (snd event)) in
  mk (follow (election s) me (engine s)) me.

(** [start()].  [asked] is the [Date.now()] of [electLeader()];
    [waiting] are the message events dispatched during the 100 ms of the
    election and [syncing] those dispatched while [start()] awaits its
    first [sync()].  After the callback of the election timer [start()]
    goes on before any other message is dispatched, and a [sync()] that
    one of its guards rejects is over before the next one.  A message
    touches the leader flag and the periodic timer only, which a cycle
    neither reads nor writes ([sync_deliver_commute]), so that the cycle
    is run first and [syncing] dispatched after it; a tick of the
    periodic timer during the cycle is rejected by the third guard and
    changes nothing. *)
Definition start (env : Env.t) (tables excludeTables : option (list string))
    (asked : Z) (waiting syncing : list (Z * LeaderElection.Message.t))
    (s : t) : Js.outcome unit * t :=
  if SyncEngine.isRunning (engine s) then (Js.Returned tt, s)
  else
    let requested :=
      mk (engine s)
         (fst (LeaderElection.electLeader_request asked (election s))) in
    let heard := List.fold_left deliver waiting requested in
    let me := fst (LeaderElection.electLeader_timeout (election heard)) in
    let elected := follow (election heard) me (engine heard) in
    match startTracking (getSyncedTables tables excludeTables elected)
            (SyncEngine.db elected) with
    | Some name =>
        (Js.Thrown ("Table " ++ name ++ " does not exist"), mk elected me)
    | None =>
        let e :=
          if SyncEngine.leader elected
          then SyncEngine.startSyncInterval elected else elected in
        let e := SyncEngine.with_isRunning true e in
        if SyncEngine.leader e then
          match SyncEngine.sync env e with
          | (Js.Returned _, e') =>
              (Js.Returned tt, List.fold_left deliver syncing (mk e' me))
          | (Js.Thrown message, e') => (Js.Thrown message, mk e' me)
          end
        else (Js.Returned tt, mk e me)
    end.

(** The engine with its leader flag and its timer blanked: what the
    dispatch of a message leaves as it is. *)
Definition apart (e : SyncEngine.t) : SyncEngine.t :=
  SyncEngine.with_syncInterval false (SyncEngine.with_leader false e).

(** Some message of [events] is the announcement of a tab other than
    [tabId]. *)
Definition announcedBy (tabId : string)
    (events : list (Z * LeaderElection.Message.t)) : Prop :=
  exists now other,
    other <> tabId
    /\ In (now, LeaderElection.announcement other) events.

End Lifecycle.

(* ===================================================================== *)
(** ** core/sync-context.ts: the checkpoints                              *)
(* ===================================================================== *)

Module Checkpoint.
Record t := mk {
  scope : string;
  revision : Js.value;
  updatedAt : Z
}.
End Checkpoint.

(** The store with its [checkpoints] table.  The program itself never
    writes the table; a callback of a route does, through the context. *)
Module Store.
Record t := mk {
  db : Db.t;
  checkpoints : gmap string Checkpoint.t
}.
End Store.

Module SyncContext.

(** [getCheckpoint(scope)]. *)
Definition getCheckpoint (scope : string) (s : Store.t) : Js.value :=
  match Store.checkpoints s !! scope with
  | Some checkpoint => Checkpoint.revision checkpoint
  | None => Js.Null
  end.

(** [setCheckpoint(scope, revision)]; [now] is its [Date.now()]. *)
Definition setCheckpoint (now : Z) (scope : string) (revision : Js.value)
    (s : Store.t) : Store.t :=
  Store.mk (Store.db s)
    (<[scope := Checkpoint.mk scope revision now]> (Store.checkpoints s)).

End SyncContext.

(* ===================================================================== *)
(** ** adapters/rest-adapter.ts and pull/pull-processor.ts: a pull with
       the callbacks of its routes                                        *)
(* ===================================================================== *)

(** [RestAdapter.pull] and [PullProcessor.pull] above are those of routes
    without [query] and [onComplete].  Here a route has them: they are
    code of the user, which is handed the context and so the store. *)
Module Routed.

(** What a call of a callback does with the context: what it leaves in
    the store, and what it throws if it throws. *)
Definition callback : Type := Store.t -> option Caught * Store.t.

(** [query(ctx)] and [onComplete(response, ctx)]; the response is known
    by its records. *)
Module PullCallbacks.
Record t := mk {
  query : option callback;
  onComplete : option (list Row.t -> callback)
}.
End PullCallbacks.

(** [tableRoute.query ? await tableRoute.query(this.context) : {}]. *)
Definition call (c : option callback) (s : Store.t)
  : option Caught * Store.t :=
  match c with
  | Some f => f s
  | None => (None, s)
  end.

(** [if (tableRoute.onComplete) await tableRoute.onComplete(response,
    this.context)]. *)
Definition complete (c : option (list Row.t -> callback))
    (response : list Row.t) (s : Store.t) : option Caught * Store.t :=
  match c with
  | Some f => f response s
  | None => (None, s)
  end.

(** [RestAdapter.pull(table)]: the query, the exchange with
    [mapResponse] applied, then [onComplete]. *)
Definition adapterPull (callbacks : string -> PullCallbacks.t)
    (routes : RouteConfiguration) (env : Env.t) (table : string)
    (s : Store.t) : Fetched * Store.t :=
  match routes_get routes table ≫= TableRoute.pull with
  | None =>
      (Failed (PlainError ("No pull route configured for table: " ++ table)),
       s)
  | Some _ =>
      match call (PullCallbacks.query (callbacks table)) s with
      | (Some error, s1) => (Failed error, s1)
      | (None, s1) =>
          match Env.request_pull env table with
          | Failed error => (Failed error, s1)
          | Records items =>
              match complete (PullCallbacks.onComplete (callbacks table))
                      items s1 with
              | (Some error, s2) => (Failed error, s2)
              | (None, s2) => (Records items, s2)
              end
          end
      end
  end.

Record state := mkState {
  store : Store.t;
  emitted : list SyncEvent;
  result : PullResult.t
}.

(** The body of the loop of [PullProcessor.pull]. *)
Definition pullTable (callbacks : string -> PullCallbacks.t)
    (config : SyncConfig.t) (env : Env.t) (s : state) (tableName : string)
  : state :=
  let r := result s in
  match adapterPull callbacks (SyncConfig.routes config) env tableName
          (store s) with
  | (Failed error, s1) =>
      mkState s1 (emitted s)
        (PullResult.mk (PullResult.success r) (PullResult.pulled r)
           (PullResult.applied r) (PullResult.conflicts r)
           (PullResult.errors r ++ [error]))
  | (Records items, s1) =>
      let pulled := (PullResult.pulled r + N.of_nat (length items))%N in
      match ChangeApplier.applyChanges config env tableName items
              (Store.db s1) (emitted s) with
      | Some a =>
          mkState (Store.mk (ChangeApplier.db a) (Store.checkpoints s1))
            (ChangeApplier.emitted a)
            (PullResult.mk (PullResult.success r) pulled
               (PullResult.applied r + ChangeApplier.applied a)%N
               (PullResult.conflicts r + ChangeApplier.conflicts a)%N
               (PullResult.errors r))
      | None =>
          mkState s1 (emitted s)
            (PullResult.mk (PullResult.success r) pulled
               (PullResult.applied r) (PullResult.conflicts r)
               (PullResult.errors r ++ [PullProcessor.invalidTable tableName]))
      end
  end.

(** [pull(table)]. *)
Definition pull (callbacks : string -> PullCallbacks.t)
    (config : SyncConfig.t) (env : Env.t) (table : option string)
    (s : Store.t) (log : list SyncEvent) : state :=
  let s' :=
    List.fold_left (pullTable callbacks config env)
      (PullProcessor.selectedTables config table)
      (mkState s log PullProcessor.initial) in
  mkState (store s') (emitted s') (PullProcessor.finish (result s')).

(** No route has a callback. *)
Definition none : string -> PullCallbacks.t :=
  fun _ => PullCallbacks.mk None None.

(** The callbacks of the routes of [names] leave the part [part] of the
    store as they find it. *)
Definition leaves {A : Type} (part : Store.t -> A)
    (callbacks : string -> PullCallbacks.t) (names : list string) : Prop :=
  forall name response s,
    In name names ->
    part (snd (call (PullCallbacks.query (callbacks name)) s)) = part s
    /\ part (snd (complete (PullCallbacks.onComplete (callbacks name))
                    response s))
       = part s.

End Routed.

(* ===================================================================== *)
(** ** The specification's reading of [detectConflict]                    *)
(* ===================================================================== *)

Module Specified.

(** A record carries a field when the field is there, whatever its
    value. *)
Definition carries (v : Js.value) : bool := Js.strict_neq v Js.Undefined.

(** [detectConflict] as the specification words it: no conflict without
    a local copy; the versions decide when both records carry one; else
    the [updatedAt] time stamps decide when both records carry one; else a
    conflict is assumed. *)
Definition detectConflict (parse : string -> option Z)
    (local : option Row.t) (remote : Row.t) : bool :=
  match local with
  | None => false
  | Some l =>
      if carries (Row.version l) && carries (Row.version remote)
      then Js.strict_neq (Row.version l) (Row.version remote)
      else if carries (Row.updatedAt l) && carries (Row.updatedAt remote)
      then Js.number_strict_neq (Js.Date_getTime parse (Row.updatedAt l))
             (Js.Date_getTime parse (Row.updatedAt remote))
      else true
  end.

End Specified.

(* ===================================================================== *)
(** ** Concrete data                                                      *)
(* ===================================================================== *)

(** A small configuration, store and environment on which the statements
    below are exercised: one table [posts] with a [create] route and a
    pull route. *)
Module Sample.

Definition localRow : Row.t :=
  Row.mk (KNum 1) Js.Undefined (Js.Number (Js.Num 100)) "title: local".

Definition remoteRow : Row.t :=
  Row.mk (KNum 1) Js.Undefined (Js.Number (Js.Num 200)) "title: remote".

Definition newRow : Row.t :=
  Row.mk (KNum 2) Js.Undefined (Js.Number (Js.Num 300)) "title: new".


(** Two copies of a record stamped with the epoch itself. *)
Definition epochRow : Row.t :=
  Row.mk (KNum 1) Js.Undefined (Js.Number (Js.Num 0)) "title".

Definition noDates : string -> option Z := fun _ => None.

Definition conflictInfo : ConflictInfo.t :=
  ConflictInfo.mk "posts" (KNum 1) localRow remoteRow
    (Some (Js.Num 100)) (Some (Js.Num 200)) Js.Undefined Js.Undefined.

Definition routes : RouteConfiguration :=
  [("posts",
    TableRoute.mk
      (Some (PushRouteConfig.mk
               (Some (OperationConfig.mk POST "/api/posts")) None None))
      (Some (PullRouteConfig.mk GET "/api/posts")))].

Definition config : SyncConfig.t :=
  SyncConfig.mk "https://api.example.com" routes None None None
    (Some (ConflictConfig.mk "lww" None)) None.

Definition serverDown : SyncError.t :=
  SyncError.mk server "INTERNAL_ERROR" true "Server error" (Some 503) None.

Definition invalid : SyncError.t :=
  SyncError.mk validation "INVALID_DATA" false "Validation failed" (Some 422)
    None.

(** Three queued creations: the server accepts the first, is down for
    the second and rejects the third. *)
Definition item1 : OutboxItem.t :=
  OutboxItem.mk 1 "posts" create (KNum 1) (Some localRow) 0 10 None None.

Definition item2 : OutboxItem.t :=
  OutboxItem.mk 2 "posts" create (KNum 7) (Some newRow) 0 20 None None.

Definition item3 : OutboxItem.t :=
  OutboxItem.mk 3 "posts" create (KNum 8) (Some newRow) 0 30 None None.

Definition env : Env.t :=
  Env.mk noDates 1000
    (fun item =>
       if N.eqb (OutboxItem.id item) 2 then Some (Classified serverDown)
       else if N.eqb (OutboxItem.id item) 3 then Some (Classified invalid)
       else None)
    (fun _ => 1000)
    (fun _ => 0%Q)
    (fun group => List.rev group)
    (fun _ => Records [newRow]).

Definition db : Db.t :=
  Db.mk [item1; item2; item3] 3 [] 0 {[ "posts" := {[ KNum 1 := localRow ]} ]}.

(** A store whose only queued item the server accepts. *)
Definition db1 : Db.t :=
  Db.mk [item1] 1 [] 0 {[ "posts" := {[ KNum 1 := localRow ]} ]}.

Definition engine : SyncEngine.t := SyncEngine.create config db1 true.

(** Two tabs that start their elections in the same millisecond: each
    answers the other's request, both timers expire before either
    announcement is dispatched, and then each tab receives the
    announcement of the other. *)
Definition twoTabs : LeaderElection.net :=
  LeaderElection.start 1000 ["tab-a"; "tab-b"].

Definition race : list LeaderElection.action :=
  [LeaderElection.Elect 0; LeaderElection.Elect 1;
   LeaderElection.Deliver 0; LeaderElection.Deliver 1;
   LeaderElection.Deliver 0; LeaderElection.Deliver 1;
   LeaderElection.Tick 100;
   LeaderElection.Expire 0; LeaderElection.Expire 1;
   LeaderElection.Deliver 1; LeaderElection.Deliver 0]%nat.

End Sample.

(** Further data: a queued change of a table that has no route, an
    engine that runs as leader, a channel on which one tab has asked for
    an election, a rate limit and the exchanges of a request. *)
Module Scenario.

(** A change of [comments], for which [Sample.routes] has nothing. *)
Definition orphan : OutboxItem.t :=
  OutboxItem.mk 4 "comments" create (KNum 9) None 0 40 None None.

Definition dbOrphan : Db.t :=
  Db.mk [Sample.item1; orphan] 4 [] 0
        {[ "posts" := {[ KNum 1 := Sample.localRow ]} ]}.

(** Conflicts of record 1 in which the local copy is the newer, and in
    which the two copies bear the same time stamp. *)
Definition localNewer : ConflictInfo.t :=
  ConflictInfo.mk "posts" (KNum 1) Sample.localRow Sample.remoteRow
    (Some (Js.Num 300)) (Some (Js.Num 200)) Js.Undefined Js.Undefined.

Definition sameTime : ConflictInfo.t :=
  ConflictInfo.mk "posts" (KNum 1) Sample.localRow Sample.remoteRow
    (Some (Js.Num 200)) (Some (Js.Num 200)) Js.Undefined Js.Undefined.

(** The server's copy of record 1 when it is older than the local one. *)
Definition staleRow : Row.t :=
  Row.mk (KNum 1) Js.Undefined (Js.Number (Js.Num 50)) "title: stale".

(** A store with a second table, and the callbacks of the route of
    [posts] as the README has them: no effect of [query], and an
    [onComplete] that records the latest time stamp under
    ['pull:posts']. *)
Definition twoTables : Store.t :=
  Store.mk
    (Db.mk [] 0 [] 0
           {[ "posts" := {[ KNum 1 := Sample.localRow ]};
              "drafts" := {[ KNum 5 := Sample.newRow ]} ]})
    ∅.

(** The greatest time stamp of the records of a response. *)
Definition latest (response : list Row.t) : Js.value :=
  Js.Number
    (Js.Num
       (List.fold_right
          (fun row m =>
             match Row.updatedAt row with
             | Js.Number (Js.Num n) => Z.max n m
             | _ => m
             end)
          0 response)).

Definition checkpointing : string -> Routed.PullCallbacks.t :=
  fun _ =>
    Routed.PullCallbacks.mk None
      (Some (fun response s =>
               (None,
                SyncContext.setCheckpoint 2000 "pull:posts" (latest response)
                  s))).

(** The engine of [Sample] once [start()] has run and the tab leads. *)
Definition leading : SyncEngine.t :=
  SyncEngine.with_leader true (SyncEngine.with_isRunning true Sample.engine).

(** Three tabs.  The first calls [electLeader()] at 1000, the other two
    answer, every answer is dispatched, and 100 ms pass: the timer of
    the first tab is due and nothing is pending. *)
Definition threeTabs : LeaderElection.net :=
  LeaderElection.start 1000 ["tab-a"; "tab-b"; "tab-c"].

Definition election : list LeaderElection.action :=
  [LeaderElection.Elect 0;
   LeaderElection.Deliver 1; LeaderElection.Deliver 2;
   LeaderElection.Deliver 0; LeaderElection.Deliver 0;
   LeaderElection.Deliver 1; LeaderElection.Deliver 2;
   LeaderElection.Tick 100]%nat.

Definition asked : LeaderElection.net :=
  match LeaderElection.run election threeTabs with
  | Some n => n
  | None => threeTabs
  end.

Definition candidate : LeaderElection.tab :=
  LeaderElection.mkTab
    (LeaderElection.mk "tab-a" false (Some 1000) false [])
    [] (Some 1100).

(** The announcement reaches the third tab, then the second. *)
Definition afterElection : list LeaderElection.action :=
  [LeaderElection.Deliver 2; LeaderElection.Tick 5; LeaderElection.Deliver 1]%nat.

Definition elected : LeaderElection.net :=
  match LeaderElection.run (LeaderElection.Expire 0 :: afterElection) asked with
  | Some n => n
  | None => asked
  end.

(** Two requests per second. *)
Definition twoPerSecond : RateLimiter.RateLimitConfig.t :=
  RateLimiter.RateLimitConfig.mk 2 1000.

Definition punctual : nat -> Z := fun _ => 0.

(** A limiter that has recorded two requests of [posts]. *)
Definition busy : RateLimiter.t :=
  {[ "posts" := RateLimiter.RateLimitEntry.mk [100; 400] 100 ]}.

Definition calls : list (Z * string) :=
  [(100, "posts"); (400, "posts"); (500, "posts"); (500, "users");
   (1100, "posts"); (1150, "posts")].

(** The server is down for the first two attempts of a request and
    answers the third. *)
Definition exchanges : nat -> HttpClient.exchange string :=
  fun attempt =>
    match attempt with
    | 0%nat | 1%nat => HttpClient.Fails (Classified Sample.serverDown)
    | _ => HttpClient.Ok "[]"
    end.

Definition half : nat -> Q := fun _ => 1 # 2.

(** An engine that has not been started, with a sync every 30 s, in the
    tab [tab-a]. *)
Definition periodic : SyncConfig.t :=
  SyncConfig.mk "https://api.example.com" Sample.routes None None (Some 30000)
    (Some (ConflictConfig.mk "lww" None)) None.

Definition starting : Lifecycle.t :=
  Lifecycle.mk (SyncEngine.create periodic Sample.db1 true)
    (LeaderElection.create "tab-a").

(** The tab [tab-b] asks for an election at 1040 and declares itself
    leader at 1140. *)
Definition rivalAsks : Z * LeaderElection.Message.t :=
  (1040, LeaderElection.Message.mk LeaderElection.election "tab-b" (Some 1040)).

Definition rivalLeads : Z * LeaderElection.Message.t :=
  (1140, LeaderElection.announcement "tab-b").

(** [start()] in [tab-a] at 1000: the request of [tab-b] arrives during
    the 100 ms of the election; in the second run its announcement
    arrives while the first cycle is suspended. *)
Definition startedAlone : Js.outcome unit * Lifecycle.t :=
  Lifecycle.start Sample.env None None 1000 [rivalAsks] [] starting.

Definition startedRaced : Js.outcome unit * Lifecycle.t :=
  Lifecycle.start Sample.env None None 1000 [rivalAsks] [rivalLeads] starting.

End Scenario.

(* ===================================================================== *)
(** * Properties                                                          *)
(* ===================================================================== *)

(** ** Conflict resolution *)

(** C7.  [resolve] returns the remote record under [server-wins], the
    local one under [client-wins], and under [custom] what the
    configured handler returns.  Under [lww], for a conflict whose two
    time stamps are numbers, it returns the local record when the local
    time stamp is the larger, the remote record when the remote one is
    the larger, and the remote record on a tie; in general a time stamp
    that is absent or [NaN] counts as 0, as [timestamp || 0] has it.
    Under [server-wins] and [client-wins] the result is a function of
    the pair (local, remote) alone: no other field of the conflict and
    no handler has a say. *)
Theorem resolve_by_policy :
  forall (h : option (ConflictInfo.t -> Js.outcome Row.t))
         (f : ConflictInfo.t -> Js.outcome Row.t) (c : ConflictInfo.t),
    snd (ConflictResolver.resolve (ConflictConfig.mk "server-wins" h) c)
      = Js.Returned (ConflictInfo.remote c)
    /\ snd (ConflictResolver.resolve (ConflictConfig.mk "client-wins" h) c)
      = Js.Returned (ConflictInfo.local c)
    /\ (forall lt rt : Z,
          ConflictInfo.localTimestamp c = Some (Js.Num lt) ->
          ConflictInfo.remoteTimestamp c = Some (Js.Num rt) ->
          (rt < lt ->
           snd (ConflictResolver.resolve (ConflictConfig.mk "lww" h) c)
           = Js.Returned (ConflictInfo.local c))
          /\ (lt < rt ->
              snd (ConflictResolver.resolve (ConflictConfig.mk "lww" h) c)
              = Js.Returned (ConflictInfo.remote c))
          /\ (lt = rt ->
              snd (ConflictResolver.resolve (ConflictConfig.mk "lww" h) c)
              = Js.Returned (ConflictInfo.remote c)))
    /\ snd (ConflictResolver.resolve (ConflictConfig.mk "lww" h) c)
      = Js.Returned
          (let time t :=
             match t with
             | Some (Js.Num n) => n
             | Some Js.NaN | None => 0
             end in
           if time (ConflictInfo.remoteTimestamp c)
              <? time (ConflictInfo.localTimestamp c)
           then ConflictInfo.local c else ConflictInfo.remote c)
    /\ snd (ConflictResolver.resolve (ConflictConfig.mk "custom" (Some f)) c)
      = f c
    /\ (forall table key local remote lt rt lv rv,
          snd (ConflictResolver.resolve (ConflictConfig.mk "server-wins" h)
                 (ConflictInfo.mk table key local remote lt rt lv rv))
            = Js.Returned remote
          /\ snd (ConflictResolver.resolve (ConflictConfig.mk "client-wins" h)
                    (ConflictInfo.mk table key local remote lt rt lv rv))
            = Js.Returned local).
Proof.
  intros h f c.
  assert (Hlww :
    snd (ConflictResolver.resolve (ConflictConfig.mk "lww" h) c)
    = Js.Returned
        (let time t :=
           match t with
           | Some (Js.Num n) => n
           | Some Js.NaN | None => 0
           end in
         if time (ConflictInfo.remoteTimestamp c)
            <? time (ConflictInfo.localTimestamp c)
         then ConflictInfo.local c else ConflictInfo.remote c)).
  { unfold ConflictResolver.resolve. cbn.
    unfold Strategies.lastWriteWins, Strategies.orZero.
    destruct (ConflictInfo.remoteTimestamp c) as [[rt|]|],
             (ConflictInfo.localTimestamp c) as [[lt|]|]; cbn;
      repeat match goal with
             | |- context [if ?b then _ else _] => destruct b
             end; reflexivity. }
  split; [unfold ConflictResolver.resolve; cbn; destruct h; reflexivity|].
  split; [unfold ConflictResolver.resolve; cbn; destruct h; reflexivity|].
  split.
  { intros lt rt Hl Hr. rewrite Hlww, Hl, Hr. cbv zeta.
    split; [|split].
    - intros H. apply Z.ltb_lt in H. rewrite H. reflexivity.
    - intros H. apply Z.lt_le_incl, Z.ltb_ge in H. rewrite H. reflexivity.
    - intros ->. rewrite Z.ltb_irrefl. reflexivity. }
  split; [exact Hlww|].
  split; [reflexivity|].
  intros table key local remote lt rt lv rv.
  unfold ConflictResolver.resolve; cbn; destruct h; split; reflexivity.
Qed.

Lemma resolve_by_policy_witness :
  ConflictInfo.localTimestamp Scenario.localNewer = Some (Js.Num 300)
  /\ ConflictInfo.remoteTimestamp Scenario.localNewer = Some (Js.Num 200)
  /\ 200 < 300
  /\ snd (ConflictResolver.resolve (ConflictConfig.mk "lww" None)
            Scenario.localNewer)
     = Js.Returned Sample.localRow
  /\ snd (ConflictResolver.resolve (ConflictConfig.mk "lww" None)
            Sample.conflictInfo)
     = Js.Returned Sample.remoteRow
  /\ snd (ConflictResolver.resolve (ConflictConfig.mk "lww" None)
            Scenario.sameTime)
     = Js.Returned Sample.remoteRow.
Proof.
  split; [reflexivity|]. split; [reflexivity|]. split; [reflexivity|].
  split; [|split].
  - destruct (proj1 (proj2 (proj2
                (resolve_by_policy None (fun _ => Js.Thrown "unused")
                   Scenario.localNewer)))
                300 200 eq_refl eq_refl) as (Hlocal & _ & _).
    apply Hlocal. reflexivity.
  - destruct (proj1 (proj2 (proj2
                (resolve_by_policy None (fun _ => Js.Thrown "unused")
                   Sample.conflictInfo)))
                100 200 eq_refl eq_refl) as (_ & Hremote & _).
    apply Hremote. reflexivity.
  - destruct (proj1 (proj2 (proj2
                (resolve_by_policy None (fun _ => Js.Thrown "unused")
                   Scenario.sameTime)))
                200 200 eq_refl eq_refl) as (_ & _ & Htie).
    apply Htie. reflexivity.
Defined.

(** C10.  A policy that is none of [server-wins], [client-wins] and
    [lww], the policy [custom] without a handler among them, resolves as
    [server-wins] does: to the remote record, and nothing is thrown. *)
Theorem resolve_falls_back_to_server :
  forall (policy : string)
         (h : option (ConflictInfo.t -> Js.outcome Row.t))
         (c : ConflictInfo.t),
    policy <> "server-wins" ->
    policy <> "client-wins" ->
    policy <> "lww" ->
    (policy = "custom" -> h = None) ->
    snd (ConflictResolver.resolve (ConflictConfig.mk policy h) c)
      = Js.Returned (ConflictInfo.remote c).
Proof.
  intros policy h c Hs Hc Hl Hcustom.
  unfold ConflictResolver.resolve, Strategies.getStrategy. cbn.
  apply String.eqb_neq in Hs, Hc, Hl. rewrite Hs, Hc, Hl.
  destruct (String.eqb policy "custom") eqn:E.
  - apply String.eqb_eq in E. rewrite (Hcustom E). reflexivity.
  - reflexivity.
Qed.

Lemma resolve_falls_back_to_server_witness :
  "custom" <> "server-wins"
  /\ "custom" <> "client-wins"
  /\ "custom" <> "lww"
  /\ snd (ConflictResolver.resolve (ConflictConfig.mk "custom" None)
            Sample.conflictInfo)
     = Js.Returned Sample.remoteRow.
Proof.
  split; [discriminate|]. split; [discriminate|]. split; [discriminate|].
  apply (resolve_falls_back_to_server "custom" None Sample.conflictInfo);
    solve [discriminate | reflexivity].
Defined.

Lemma strict_neq_Undefined (v : Js.value) :
  Js.strict_neq v Js.Undefined = true <-> v <> Js.Undefined.
Proof. destruct v; cbn; split; intro H; congruence. Qed.

(** C6, as the specification words it, fails on two copies of a record
    stamped [updatedAt: 0] that carry no version: both carry a time
    stamp, the time stamps are equal, and the code reports a conflict
    where the specified function reports none. *)
Lemma detectConflict_epoch_counterexample :
  Row.updatedAt Sample.epochRow = Js.Number (Js.Num 0)
  /\ Specified.detectConflict Sample.noDates (Some Sample.epochRow)
       Sample.epochRow = false
  /\ ConflictResolver.detectConflict Sample.noDates (Some Sample.epochRow)
       Sample.epochRow = true.
Proof. repeat split. Qed.

(** C6, amended.  [detectConflict] reports no conflict without a local
    record.  With one: when both records have a version (a field other
    than [undefined]) it reports whether the versions differ under [!==];
    otherwise, when both have a truthy [updatedAt] (neither 0 nor the empty
    string, [null] or [NaN]) it reports whether the two times
    [new Date(updatedAt).getTime()] differ under [!==]; in every remaining
    case it reports a conflict. *)
Theorem detectConflict_cases :
  forall (parse : string -> option Z) (l r : Row.t),
    ConflictResolver.detectConflict parse None r = false
    /\ (Row.version l <> Js.Undefined -> Row.version r <> Js.Undefined ->
        ConflictResolver.detectConflict parse (Some l) r
          = Js.strict_neq (Row.version l) (Row.version r))
    /\ (Row.version l = Js.Undefined \/ Row.version r = Js.Undefined ->
        Js.truthy (Row.updatedAt l) = true ->
        Js.truthy (Row.updatedAt r) = true ->
        ConflictResolver.detectConflict parse (Some l) r
          = Js.number_strict_neq (Js.Date_getTime parse (Row.updatedAt l))
              (Js.Date_getTime parse (Row.updatedAt r)))
    /\ (Row.version l = Js.Undefined \/ Row.version r = Js.Undefined ->
        Js.truthy (Row.updatedAt l) = false
        \/ Js.truthy (Row.updatedAt r) = false ->
        ConflictResolver.detectConflict parse (Some l) r = true).
Proof.
  intros parse l r. unfold ConflictResolver.detectConflict.
  split; [reflexivity|]. split; [|split].
  - intros Hl Hr.
    apply strict_neq_Undefined in Hl, Hr. rewrite Hl, Hr. reflexivity.
  - intros Hv Tl Tr.
    assert (Js.strict_neq (Row.version l) Js.Undefined
            && Js.strict_neq (Row.version r) Js.Undefined = false) as ->.
    { destruct Hv as [-> | ->]; cbn; [reflexivity | apply andb_false_r]. }
    rewrite Tl, Tr. reflexivity.
  - intros Hv Ht.
    assert (Js.strict_neq (Row.version l) Js.Undefined
            && Js.strict_neq (Row.version r) Js.Undefined = false) as ->.
    { destruct Hv as [-> | ->]; cbn; [reflexivity | apply andb_false_r]. }
    assert (Js.truthy (Row.updatedAt l) && Js.truthy (Row.updatedAt r)
            = false) as ->.
    { destruct Ht as [-> | ->]; [reflexivity | apply andb_false_r]. }
    reflexivity.
Qed.

Lemma detectConflict_cases_witness :
  Row.version Sample.localRow = Js.Undefined
  /\ Js.truthy (Row.updatedAt Sample.localRow) = true
  /\ Js.truthy (Row.updatedAt Sample.remoteRow) = true
  /\ ConflictResolver.detectConflict Sample.noDates (Some Sample.localRow)
       Sample.remoteRow
     = Js.number_strict_neq (Js.Num 100) (Js.Num 200).
Proof.
  split; [reflexivity|]. split; [reflexivity|]. split; [reflexivity|].
  apply (proj1 (proj2 (proj2
           (detectConflict_cases Sample.noDates Sample.localRow
              Sample.remoteRow))));
    [left|..]; reflexivity.
Defined.

(** ** Backoff *)

Lemma delay_thousands (n : N) :
  exists k, 0 <= k /\ Backoff.delay n Backoff.defaultMaxDelay = 1000 * k.
Proof.
  unfold Backoff.delay, Backoff.defaultMaxDelay.
  assert (0 < 2 ^ Z.of_N n) by (apply Z.pow_pos_nonneg; lia).
  destruct (Z.le_gt_cases (1000 * 2 ^ Z.of_N n) 60000).
  - exists (2 ^ Z.of_N n). rewrite Z.min_l; lia.
  - exists 60. rewrite Z.min_r; lia.
Qed.

(** C3.  The jitter of [calculateBackoff] is a tenth of the delay either
    way, not a fifth: for every attempt [n] and every draw [r] of
    [Math.random()] between 0 and 1, the backoff lies between 0.9 and 1.1
    times [min(1000 * 2^n, 60000)].  With the draw 0 the first backoff is
    900, where a band of twenty per cent either way reaches down to 800. *)
Theorem calculateBackoff_within_tenth :
  forall (n : N) (r : Q),
    (0 <= r)%Q -> (r <= 1)%Q ->
    9 * Backoff.delay n Backoff.defaultMaxDelay
      <= 10 * Backoff.defaultRetryDelay n r
    /\ 10 * Backoff.defaultRetryDelay n r
      <= 11 * Backoff.delay n Backoff.defaultMaxDelay.
Proof.
  intros n r H0 H1.
  destruct (delay_thousands n) as (k & Hk & E).
  unfold Backoff.defaultRetryDelay, Backoff.calculateBackoff. rewrite E.
  set (x := (inject_Z (1000 * k)
             + inject_Z (1000 * k) * (2 # 10) * (r - (1 # 2)))%Q).
  assert (Hkq : (0 <= inject_Z k)%Q).
  { change (inject_Z 0 <= inject_Z k)%Q. rewrite <- Zle_Qle. exact Hk. }
  assert (P0 : (0 <= inject_Z k * r)%Q)
    by (apply Qmult_le_0_compat; assumption).
  assert (P1 : (0 <= inject_Z k * (1 - r))%Q)
    by (apply Qmult_le_0_compat; [assumption | lra]).
  assert (Ex : (x == 900 * inject_Z k + 200 * (inject_Z k * r))%Q).
  { subst x. rewrite inject_Z_mult. change (inject_Z 1000) with 1000%Q.
    field. }
  assert (L : (inject_Z (900 * k) <= x)%Q).
  { rewrite Ex, inject_Z_mult. change (inject_Z 900) with 900%Q.
    generalize dependent (inject_Z k * r)%Q. intros. lra. }
  assert (U : (x <= inject_Z (1100 * k))%Q).
  { rewrite Ex, inject_Z_mult. change (inject_Z 1100) with 1100%Q.
    assert (P2 : (inject_Z k * (1 - r) == inject_Z k - inject_Z k * r)%Q)
      by ring.
    rewrite P2 in P1. clear P2.
    generalize dependent (inject_Z k * r)%Q. intros. lra. }
  apply Qfloor_resp_le in L, U. rewrite Qfloor_Z in L, U. lia.
Qed.

Lemma calculateBackoff_within_tenth_witness :
  (0 <= 0)%Q /\ (0 <= 1)%Q
  /\ Backoff.defaultRetryDelay 0 0 = 900
  /\ 9 * Backoff.delay 0 Backoff.defaultMaxDelay
       <= 10 * Backoff.defaultRetryDelay 0 0
  /\ 10 * Backoff.defaultRetryDelay 0 0
       <= 11 * Backoff.delay 0 Backoff.defaultMaxDelay.
Proof.
  split; [discriminate|]. split; [discriminate|]. split; [reflexivity|].
  apply (calculateBackoff_within_tenth 0 0); discriminate.
Defined.

(** ** The guards of [sync()] *)

(** *** The event log only grows *)

Lemma applyChange_emitted config env table s item :
  ChangeApplier.emitted s
    `prefix_of` ChangeApplier.emitted
                  (ChangeApplier.applyChange config env table s item).
Proof.
  unfold ChangeApplier.applyChange.
  repeat (match goal with
          | |- context [if ?b then _ else _] => destruct b
          | |- context [match ?x with _ => _ end] => destruct x
          end; cbn); try reflexivity; apply prefix_app_r; reflexivity.
Qed.

Lemma applyChange_fold_emitted config env table items s :
  ChangeApplier.emitted s
    `prefix_of` ChangeApplier.emitted
                  (fold_left (ChangeApplier.applyChange config env table)
                     items s).
Proof.
  revert s. induction items as [|item items IH]; intros s; cbn.
  - reflexivity.
  - etransitivity; [apply applyChange_emitted | apply IH].
Qed.

Lemma pullTable_emitted config env s name :
  PullProcessor.emitted s
    `prefix_of` PullProcessor.emitted (PullProcessor.pullTable config env s name).
Proof.
  unfold PullProcessor.pullTable.
  destruct (RestAdapter.pull _ _ _); cbn; [|reflexivity].
  unfold ChangeApplier.applyChanges.
  destruct (Db.tables _ !! _); cbn; [|reflexivity].
  apply applyChange_fold_emitted.
Qed.

Lemma pullTable_fold_emitted config env names s :
  PullProcessor.emitted s
    `prefix_of` PullProcessor.emitted
                  (fold_left (PullProcessor.pullTable config env) names s).
Proof.
  revert s. induction names as [|name names IH]; intros s; cbn.
  - reflexivity.
  - etransitivity; [apply pullTable_emitted | apply IH].
Qed.

Lemma pull_emitted config env table d log :
  log `prefix_of`
    PullProcessor.emitted (PullProcessor.pull config env table d log).
Proof.
  unfold PullProcessor.pull. cbn.
  apply (pullTable_fold_emitted config env _
           (PullProcessor.mkState d log PullProcessor.initial)).
Qed.

Lemma engine_push_emitted env table e :
  SyncEngine.emitted (snd (SyncEngine.push env table e)) = SyncEngine.emitted e.
Proof.
  unfold SyncEngine.push. destruct (PushProcessor.push _ _ _ _). reflexivity.
Qed.

Lemma engine_pull_emitted env table e :
  SyncEngine.emitted e
    `prefix_of` SyncEngine.emitted (snd (SyncEngine.pull env table e)).
Proof. unfold SyncEngine.pull. cbn. apply pull_emitted. Qed.

Lemma sync_cycle_emitted env e :
  SyncEngine.emitted e
    `prefix_of` SyncEngine.emitted (snd (SyncEngine.sync_cycle env e)).
Proof.
  unfold SyncEngine.sync_cycle.
  pose proof (engine_push_emitted env None (SyncEngine.emit push_start e)) as Hp.
  destruct (SyncEngine.push env None (SyncEngine.emit push_start e))
    as [pushResult e1]. cbn in Hp.
  set (e2 := SyncEngine.emit pull_start _).
  pose proof (engine_pull_emitted env None e2) as Hq.
  destruct (SyncEngine.pull env None e2) as [pullResult e3]. cbn in Hq.
  cbn.
  assert (H2 : SyncEngine.emitted e `prefix_of` SyncEngine.emitted e2).
  { subst e2. destruct (PushResult.success pushResult); cbn; rewrite Hp;
      cbn; rewrite <- ?app_assoc; apply prefix_app_r; reflexivity. }
  etransitivity; [exact H2|]. etransitivity; [exact Hq|].
  destruct (PullResult.success pullResult); cbn;
    rewrite <- ?app_assoc; apply prefix_app_r; reflexivity.
Qed.

(** C4.  [sync()] throws exactly when the engine is offline, paused, or
    already syncing.  When it throws, the engine is left as it was: the
    syncing flag is not set and no event, [sync-start] included, is
    emitted; nothing is kept for later.  In every other case the cycle
    proceeds: the flag is set and [sync-start] is emitted, the push runs
    on the store of the engine and the pull on the store the push
    leaves, [sync()] returns
    [{success: push.success && pull.success, push, pull}] with their two
    results, the engine holds the store the pull leaves, and the flag is
    cleared. *)
Theorem sync_fails_fast :
  forall (env : Env.t) (e : SyncEngine.t),
    ((exists message, fst (SyncEngine.sync env e) = Js.Thrown message)
     <-> SyncEngine.onlineStatus e = false
         \/ SyncEngine.isPausedFlag e = true
         \/ SyncEngine.isSyncingFlag e = true)
    /\ (forall message,
          fst (SyncEngine.sync env e) = Js.Thrown message ->
          snd (SyncEngine.sync env e) = e)
    /\ (SyncEngine.onlineStatus e = true ->
        SyncEngine.isPausedFlag e = false ->
        SyncEngine.isSyncingFlag e = false ->
        let pushed :=
          PushProcessor.push (SyncEngine.config e) env None (SyncEngine.db e) in
        let pulled :=
          PullProcessor.pull (SyncEngine.config e) env None (fst pushed)
            (SyncEngine.emitted e
             ++ [sync_start; push_start; push_complete]
             ++ (if PushResult.success (snd pushed) then [] else [push_error])
             ++ [pull_start])%list in
        (exists result, fst (SyncEngine.sync env e) = Js.Returned result)
        /\ SyncEngine.isSyncingFlag (SyncEngine.sync_enter e) = true
        /\ (SyncEngine.emitted e ++ [sync_start])%list
             `prefix_of` SyncEngine.emitted (snd (SyncEngine.sync env e))
        /\ fst (SyncEngine.sync env e)
           = Js.Returned
               (SyncResult.mk
                  (PushResult.success (snd pushed)
                   && PullResult.success (PullProcessor.result pulled))
                  (snd pushed) (PullProcessor.result pulled))
        /\ SyncEngine.db (snd (SyncEngine.sync env e)) = PullProcessor.db pulled
        /\ SyncEngine.isSyncingFlag (snd (SyncEngine.sync env e)) = false).
Proof.
  intros env e.
  split; [|split].
  - unfold SyncEngine.sync, SyncEngine.sync_guard.
    destruct (SyncEngine.sync_cycle env (SyncEngine.sync_enter e))
      as [result e'].
    destruct (SyncEngine.onlineStatus e), (SyncEngine.isPausedFlag e),
      (SyncEngine.isSyncingFlag e); cbn;
      (split; [intros [m Hm]; try discriminate; auto
              | intros [H | [H | H]]; try discriminate; eauto]).
  - unfold SyncEngine.sync, SyncEngine.sync_guard.
    destruct (SyncEngine.sync_cycle env (SyncEngine.sync_enter e))
      as [result e'].
    destruct (SyncEngine.onlineStatus e), (SyncEngine.isPausedFlag e),
      (SyncEngine.isSyncingFlag e); cbn;
      intros m Hm; try discriminate; reflexivity.
  - intros Hon Hp Hs pushed pulled.
    pose proof (sync_cycle_emitted env (SyncEngine.sync_enter e)) as Hc.
    subst pushed pulled.
    unfold SyncEngine.sync, SyncEngine.sync_guard in *.
    rewrite Hon, Hp, Hs. cbn [negb].
    unfold SyncEngine.sync_cycle, SyncEngine.push, SyncEngine.pull in *.
    cbn [SyncEngine.config SyncEngine.db SyncEngine.emit SyncEngine.sync_enter
           SyncEngine.with_isSyncingFlag SyncEngine.with_emitted
           SyncEngine.emitted] in *.
    destruct (PushProcessor.push (SyncEngine.config e) env None
                (SyncEngine.db e)) as [d1 pushResult].
    cbn [fst snd] in *.
    destruct (PushResult.success pushResult);
      cbn [SyncEngine.config SyncEngine.db SyncEngine.emit
             SyncEngine.sync_enter SyncEngine.with_isSyncingFlag
             SyncEngine.with_emitted SyncEngine.emitted SyncEngine.recordPush
             SyncEngine.with_counts SyncEngine.with_db fst snd] in *;
      rewrite <- ?app_assoc in *; cbn [app] in *;
      match goal with
      | |- context [PullProcessor.pull ?c ?en ?t ?d ?l] =>
          set (pulled := PullProcessor.pull c en t d l) in *;
          clearbody pulled
      end;
      destruct (PullResult.success (PullProcessor.result pulled));
      cbn in *;
      (split; [eauto|]); (split; [reflexivity|]); (split; [exact Hc|]);
      (split; [reflexivity|]); (split; [reflexivity|]);
      reflexivity.
Qed.

Lemma sync_fails_fast_witness :
  SyncEngine.onlineStatus Sample.engine = true
  /\ SyncEngine.isPausedFlag Sample.engine = false
  /\ SyncEngine.isSyncingFlag Sample.engine = false
  /\ (exists result,
        fst (SyncEngine.sync Sample.env Sample.engine) = Js.Returned result)
  /\ SyncEngine.isSyncingFlag (SyncEngine.sync_enter Sample.engine) = true
  /\ (SyncEngine.emitted Sample.engine ++ [sync_start])%list
       `prefix_of`
       SyncEngine.emitted (snd (SyncEngine.sync Sample.env Sample.engine))
  /\ fst (SyncEngine.sync Sample.env Sample.engine)
     = Js.Returned
         (SyncResult.mk true (PushResult.mk true 1 0 [])
            (PullResult.mk true 1 1 0 []))
  /\ Db.outbox (SyncEngine.db (snd (SyncEngine.sync Sample.env Sample.engine)))
     = []
  /\ Db.get "posts" (KNum 2)
       (SyncEngine.db (snd (SyncEngine.sync Sample.env Sample.engine)))
     = Some Sample.newRow.
Proof.
  split; [reflexivity|]. split; [reflexivity|]. split; [reflexivity|].
  destruct (proj2 (proj2 (sync_fails_fast Sample.env Sample.engine))
              eq_refl eq_refl eq_refl)
    as (Hreturns & Hflag & Hstart & Hresult & Hdb & _).
  split; [exact Hreturns|]. split; [exact Hflag|]. split; [exact Hstart|].
  split; [rewrite Hresult; reflexivity|].
  rewrite Hdb. split; reflexivity.
Defined.

(** ** The outbox table *)


Lemma outbox_get_id (i : N) (d : Db.t) (item : OutboxItem.t) :
  Db.outbox_get i d = Some item -> OutboxItem.id item = i.
Proof.
  unfold Db.outbox_get. intros H.
  apply find_some in H as [_ H]. apply N.eqb_eq in H. exact H.
Qed.

Lemma outbox_get_delete_eq (i : N) (d : Db.t) :
  Db.outbox_get i (Db.outbox_delete i d) = None.
Proof.
  unfold Db.outbox_get, Db.outbox_delete. cbn.
  induction (Db.outbox d) as [|x l IH]; cbn; [reflexivity|].
  destruct (N.eqb (OutboxItem.id x) i) eqn:E; cbn; [exact IH|].
  rewrite E. exact IH.
Qed.

Lemma outbox_get_delete_ne (i j : N) (d : Db.t) :
  i <> j -> Db.outbox_get j (Db.outbox_delete i d) = Db.outbox_get j d.
Proof.
  intros Hij. unfold Db.outbox_get, Db.outbox_delete. cbn.
  induction (Db.outbox d) as [|x l IH]; cbn; [reflexivity|].
  destruct (N.eqb (OutboxItem.id x) i) eqn:E; cbn.
  - apply N.eqb_eq in E.
    destruct (N.eqb (OutboxItem.id x) j) eqn:F; [|exact IH].
    apply N.eqb_eq in F. congruence.
  - destruct (N.eqb (OutboxItem.id x) j); [reflexivity | exact IH].
Qed.

Section Update.
Variable change : OutboxItem.t -> OutboxItem.t.
Hypothesis change_id : forall x, OutboxItem.id (change x) = OutboxItem.id x.

Lemma outbox_get_update_eq (i : N) (d : Db.t) (item : OutboxItem.t) :
  Db.outbox_get i d = Some item ->
  Db.outbox_get i (Db.outbox_update i change d) = Some (change item).
Proof.
  unfold Db.outbox_get, Db.outbox_update. cbn.
  induction (Db.outbox d) as [|x l IH]; cbn; [discriminate|].
  destruct (N.eqb (OutboxItem.id x) i) eqn:E.
  - intros [= ->]. rewrite change_id, E. reflexivity.
  - rewrite E. exact IH.
Qed.

Lemma outbox_get_update_ne (i j : N) (d : Db.t) :
  i <> j ->
  Db.outbox_get j (Db.outbox_update i change d) = Db.outbox_get j d.
Proof.
  intros Hij. unfold Db.outbox_get, Db.outbox_update. cbn.
  induction (Db.outbox d) as [|x l IH]; cbn; [reflexivity|].
  destruct (N.eqb (OutboxItem.id x) i) eqn:E.
  - rewrite change_id.
    apply N.eqb_eq in E.
    destruct (N.eqb (OutboxItem.id x) j) eqn:F; [|exact IH].
    apply N.eqb_eq in F. congruence.
  - destruct (N.eqb (OutboxItem.id x) j); [reflexivity | exact IH].
Qed.
End Update.

Lemma updateRetry_get_eq (d : Db.t) (item : OutboxItem.t) error nextRetryAt :
  Db.outbox_get (OutboxItem.id item) d = Some item ->
  Db.outbox_get (OutboxItem.id item)
    (OutboxManager.updateRetry (OutboxItem.id item) error nextRetryAt d)
  = Some (OutboxManager.retryChanges (OutboxItem.attempt item + 1)%N error
            nextRetryAt item).
Proof.
  intros H. unfold OutboxManager.updateRetry. rewrite H.
  apply outbox_get_update_eq; [intros; reflexivity | exact H].
Qed.

Lemma updateRetry_get_ne (d : Db.t) (i j : N) error nextRetryAt :
  i <> j ->
  Db.outbox_get j (OutboxManager.updateRetry i error nextRetryAt d)
  = Db.outbox_get j d.
Proof.
  intros H. unfold OutboxManager.updateRetry.
  destruct (Db.outbox_get i d); [|reflexivity].
  apply outbox_get_update_ne; [intros; reflexivity | exact H].
Qed.

Lemma updateRetry_deadLetters (d : Db.t) (i : N) error nextRetryAt :
  Db.deadLetters (OutboxManager.updateRetry i error nextRetryAt d)
  = Db.deadLetters d.
Proof.
  unfold OutboxManager.updateRetry. destruct (Db.outbox_get i d); reflexivity.
Qed.

(** ** A failed push of one item *)



(** ** Applying pulled records *)





(** ** The order of a push *)

Lemma slices_upto_concat {A : Type} (size : nat) :
  (0 < size)%nat ->
  forall (fuel : nat) (l : list A),
    (length l <= fuel)%nat ->
    List.concat (PushProcessor.slices_upto fuel size l) = l.
Proof.
  intros Hsize. induction fuel as [|fuel IH]; intros l Hlen.
  - destruct l; [reflexivity | cbn in Hlen; lia].
  - destruct l as [|x l]; [reflexivity|].
    cbn [PushProcessor.slices_upto List.concat].
    rewrite IH.
    + apply firstn_skipn.
    + rewrite length_skipn. cbn [length] in *. lia.
Qed.

Lemma slices_concat {A : Type} (size : nat) (l : list A) :
  (0 < size)%nat -> List.concat (PushProcessor.slices size l) = l.
Proof.
  intros H. unfold PushProcessor.slices. apply slices_upto_concat; [exact H | lia].
Qed.

Lemma Permutation_concat_map {A : Type} (f : list A -> list A) :
  (forall group, Permutation (f group) group) ->
  forall groups, Permutation (List.concat (List.map f groups)) (List.concat groups).
Proof.
  intros Hf. induction groups as [|g groups IH]; cbn.
  - constructor.
  - apply Permutation_app; [apply Hf | exact IH].
Qed.

Lemma orDefault_positive (value : option N) (fallback : N) :
  fallback <> 0%N -> (0 < N.to_nat (PushProcessor.orDefault value fallback))%nat.
Proof.
  intros H. unfold PushProcessor.orDefault.
  destruct value as [n|]; [destruct (N.eqb n 0) eqn:E|]; try lia.
  apply N.eqb_neq in E. lia.
Qed.

Lemma settled_order_Permutation (env : Env.t) (batchSize concurrency : N)
    (items : list OutboxItem.t) :
  (forall group, Permutation (Env.settle env group) group) ->
  (0 < N.to_nat batchSize)%nat ->
  (0 < N.to_nat concurrency)%nat ->
  Permutation (PushProcessor.settled_order env batchSize concurrency items)
    items.
Proof.
  intros Hsettle Hb Hc. unfold PushProcessor.settled_order.
  rewrite <- (slices_concat (N.to_nat batchSize) items Hb) at 2.
  apply Permutation_concat_map. intros batch.
  rewrite <- (slices_concat (N.to_nat concurrency) batch Hc) at 2.
  apply Permutation_concat_map. exact Hsettle.
Qed.

Lemma Permutation_filter_length {A : Type} (p : A -> bool) (l l' : list A) :
  Permutation l l' ->
  length (List.filter p l) = length (List.filter p l').
Proof.
  induction 1 as [|x l l' _ IH|x y l|l l' l'' _ IH1 _ IH2]; cbn.
  - reflexivity.
  - destruct (p x); cbn; congruence.
  - destruct (p x), (p y); reflexivity.
  - congruence.
Qed.

(** ** The pending items are rows of the outbox *)

Lemma NoDup_map_filter {A B : Type} (f : A -> B) (p : A -> bool) (l : list A) :
  List.NoDup (List.map f l) -> List.NoDup (List.map f (List.filter p l)).
Proof.
  induction l as [|x l IH]; cbn; [trivial|].
  intros H. apply List.NoDup_cons_iff in H as [Hx Hl].
  destruct (p x); cbn; [|auto].
  apply List.NoDup_cons_iff. split; [|auto].
  intros Hin. apply Hx. apply in_map_iff in Hin as (y & Hy & Hin).
  apply filter_In in Hin as [Hin _]. apply in_map_iff. eauto.
Qed.

Lemma outbox_get_stored (d : Db.t) (item : OutboxItem.t) :
  List.NoDup (List.map OutboxItem.id (Db.outbox d)) ->
  In item (Db.outbox d) ->
  Db.outbox_get (OutboxItem.id item) d = Some item.
Proof.
  unfold Db.outbox_get.
  induction (Db.outbox d) as [|x l IH]; cbn; [contradiction|].
  intros H Hin. apply List.NoDup_cons_iff in H as [Hx Hl].
  destruct (N.eqb (OutboxItem.id x) (OutboxItem.id item)) eqn:E.
  - apply N.eqb_eq in E. destruct Hin as [-> | Hin]; [reflexivity|].
    exfalso. apply Hx. rewrite E. apply in_map. exact Hin.
  - destruct Hin as [-> | Hin]; [rewrite N.eqb_refl in E; discriminate|].
    auto.
Qed.

Lemma filteredItems_In (env : Env.t) (table : option string) (d : Db.t)
    (item : OutboxItem.t) :
  In item (PushProcessor.filteredItems env table d) -> In item (Db.outbox d).
Proof.
  unfold PushProcessor.filteredItems, OutboxManager.getPending.
  destruct (OutboxManager.given table); intros H.
  - apply filter_In in H as [H _]. apply filter_In in H as [H _]. exact H.
  - apply filter_In in H as [H _]. exact H.
Qed.

Lemma filteredItems_NoDup (env : Env.t) (table : option string) (d : Db.t) :
  List.NoDup (List.map OutboxItem.id (Db.outbox d)) ->
  List.NoDup (List.map OutboxItem.id (PushProcessor.filteredItems env table d)).
Proof.
  intros H. unfold PushProcessor.filteredItems, OutboxManager.getPending.
  destruct (OutboxManager.given table); repeat apply NoDup_map_filter; exact H.
Qed.

(** ** One item after the other *)

Lemma pushItem_get_ne config env d r (x : OutboxItem.t) (i : N) :
  OutboxItem.id x <> i ->
  Db.outbox_get i (fst (PushProcessor.pushItem config env (d, r) x))
  = Db.outbox_get i d.
Proof.
  intros Hne. unfold PushProcessor.pushItem.
  destruct (RestAdapter.pushItem _ _ _) as [error|]; cbn [fst].
  - destruct (_ || _); cbn [fst].
    + unfold PushProcessor.moveToDeadLetters, OutboxManager.remove.
      rewrite outbox_get_delete_ne by exact Hne. reflexivity.
    + apply updateRetry_get_ne. exact Hne.
  - unfold OutboxManager.remove. apply outbox_get_delete_ne. exact Hne.
Qed.

Lemma pushItem_fold_get_ne config env (l : list OutboxItem.t) (i : N) :
  (forall x, In x l -> OutboxItem.id x <> i) ->
  forall d r,
    Db.outbox_get i (fst (fold_left (PushProcessor.pushItem config env) l (d, r)))
    = Db.outbox_get i d.
Proof.
  induction l as [|x l IH]; intros Hl d r; cbn [fold_left]; [reflexivity|].
  destruct (PushProcessor.pushItem config env (d, r) x) as [d1 r1] eqn:E.
  rewrite IH by (intros y Hy; apply Hl; right; exact Hy).
  change d1 with (fst (d1, r1)). rewrite <- E.
  apply pushItem_get_ne. apply Hl. left. reflexivity.
Qed.

Lemma pushItem_reschedules config env d r (item : OutboxItem.t) (error : Caught) :
  RestAdapter.pushItem (SyncConfig.routes config) env item = Some error ->
  Z.of_N (OutboxItem.attempt item) < PushProcessor.getMaxRetries config ->
  Caught_retryable error = true ->
  Db.outbox_get (OutboxItem.id item) d = Some item ->
  Db.outbox_get (OutboxItem.id item)
    (fst (PushProcessor.pushItem config env (d, r) item))
  = Some (OutboxManager.retryChanges (OutboxItem.attempt item + 1)%N
            (Caught_message error)
            (Env.failure_time env item
             + PushProcessor.getRetryDelay config (OutboxItem.attempt item)
                 (Env.random env item))
            item).
Proof.
  intros Hfail Hlt Hretry Hstored.
  unfold PushProcessor.pushItem. rewrite Hfail.
  apply Z.leb_gt in Hlt. rewrite Hlt, Hretry. cbn.
  apply updateRetry_get_eq. exact Hstored.
Qed.

Lemma pushItem_fold_reschedules config env (l : list OutboxItem.t)
    (item : OutboxItem.t) (error : Caught) :
  RestAdapter.pushItem (SyncConfig.routes config) env item = Some error ->
  Z.of_N (OutboxItem.attempt item) < PushProcessor.getMaxRetries config ->
  Caught_retryable error = true ->
  List.NoDup (List.map OutboxItem.id l) ->
  In item l ->
  forall d r,
    Db.outbox_get (OutboxItem.id item) d = Some item ->
    Db.outbox_get (OutboxItem.id item)
      (fst (fold_left (PushProcessor.pushItem config env) l (d, r)))
    = Some (OutboxManager.retryChanges (OutboxItem.attempt item + 1)%N
              (Caught_message error)
              (Env.failure_time env item
               + PushProcessor.getRetryDelay config (OutboxItem.attempt item)
                   (Env.random env item))
              item).
Proof.
  intros Hfail Hlt Hretry.
  induction l as [|x l IH]; intros Hnd Hin d r Hstored; [contradiction|].
  cbn in Hnd. apply List.NoDup_cons_iff in Hnd as [Hx Hnd].
  cbn [fold_left].
  destruct (PushProcessor.pushItem config env (d, r) x) as [d1 r1] eqn:E.
  assert (Ed : d1 = fst (PushProcessor.pushItem config env (d, r) x))
    by (rewrite E; reflexivity).
  destruct Hin as [-> | Hin].
  - rewrite pushItem_fold_get_ne.
    + rewrite Ed. apply pushItem_reschedules; assumption.
    + intros y Hy Heq. apply Hx. rewrite <- Heq. apply in_map. exact Hy.
  - apply IH; [exact Hnd | exact Hin |].
    rewrite Ed, pushItem_get_ne; [exact Hstored|].
    intros Heq. apply Hx. rewrite Heq. apply in_map. exact Hin.
Qed.

Lemma pushItem_failed config env d r (x : OutboxItem.t) :
  PushResult.failed (snd (PushProcessor.pushItem config env (d, r) x))
  = (PushResult.failed r
     + (if PushProcessor.fails config env x then 1 else 0))%N.
Proof.
  unfold PushProcessor.pushItem, PushProcessor.fails.
  destruct (RestAdapter.pushItem _ _ _) as [error|]; cbn.
  - destruct (_ || _); reflexivity.
  - lia.
Qed.

Lemma pushItem_fold_failed config env (l : list OutboxItem.t) :
  forall d r,
    PushResult.failed
      (snd (fold_left (PushProcessor.pushItem config env) l (d, r)))
    = (PushResult.failed r
       + N.of_nat (length (List.filter (PushProcessor.fails config env) l)))%N.
Proof.
  induction l as [|x l IH]; intros d r; cbn [fold_left List.filter].
  - cbn. lia.
  - destruct (PushProcessor.pushItem config env (d, r) x) as [d1 r1] eqn:E.
    rewrite IH.
    assert (Er : r1 = snd (PushProcessor.pushItem config env (d, r) x))
      by (rewrite E; reflexivity).
    rewrite Er, pushItem_failed.
    destruct (PushProcessor.fails config env x); cbn [length]; lia.
Qed.

Lemma push_unfold config env table d :
  PushProcessor.push config env table d
  = (fst (fold_left (PushProcessor.pushItem config env)
            (PushProcessor.settled_order env
               (PushProcessor.orDefault (SyncConfig.push_batchSize config) 10)
               (PushProcessor.orDefault (SyncConfig.push_concurrency config) 3)
               (PushProcessor.filteredItems env table d))
            (d, PushProcessor.initial)),
     PushProcessor.finish
       (snd (fold_left (PushProcessor.pushItem config env)
               (PushProcessor.settled_order env
                  (PushProcessor.orDefault (SyncConfig.push_batchSize config) 10)
                  (PushProcessor.orDefault (SyncConfig.push_concurrency config) 3)
                  (PushProcessor.filteredItems env table d))
               (d, PushProcessor.initial)))).
Proof.
  unfold PushProcessor.push.
  destruct (fold_left _ _ _). reflexivity.
Qed.

(** C9.  Let the rows of the outbox have distinct ids, and let the
    requests in flight together settle in any order.  The result of
    [push()] has [success] true exactly when its [failed] count is 0, that
    is when the push of no selected item failed; [failed] counts the
    selected items whose push failed, the rescheduled ones among them; and
    an item that was rescheduled is in the outbox when [push()] returns,
    with its retry recorded. *)
Theorem push_result :
  forall (config : SyncConfig.t) (env : Env.t) (table : option string)
         (d : Db.t),
    List.NoDup (List.map OutboxItem.id (Db.outbox d)) ->
    (forall group, Permutation (Env.settle env group) group) ->
    let selected := PushProcessor.filteredItems env table d in
    let d' := fst (PushProcessor.push config env table d) in
    let result := snd (PushProcessor.push config env table d) in
    (PushResult.success result = true <-> PushResult.failed result = 0%N)
    /\ PushResult.failed result
       = N.of_nat (length (List.filter (PushProcessor.fails config env) selected))
    /\ (PushResult.success result = true
        <-> forall item, In item selected ->
                         RestAdapter.pushItem (SyncConfig.routes config) env item
                         = None)
    /\ (forall (item : OutboxItem.t) (error : Caught),
          In item selected ->
          RestAdapter.pushItem (SyncConfig.routes config) env item
            = Some error ->
          Z.of_N (OutboxItem.attempt item) < PushProcessor.getMaxRetries config ->
          Caught_retryable error = true ->
          Db.outbox_get (OutboxItem.id item) d'
          = Some (OutboxManager.retryChanges (OutboxItem.attempt item + 1)%N
                    (Caught_message error)
                    (Env.failure_time env item
                     + PushProcessor.getRetryDelay config
                         (OutboxItem.attempt item) (Env.random env item))
                    item)).
Proof.
  intros config env table d Hnd Hsettle selected d' result.
  subst d' result. rewrite push_unfold. cbn [fst snd].
  set (order := PushProcessor.settled_order env _ _ _).
  assert (Hperm : Permutation order selected).
  { apply settled_order_Permutation;
      [exact Hsettle | apply orDefault_positive; lia..]. }
  assert (Hfailed :
            PushResult.failed
              (snd (fold_left (PushProcessor.pushItem config env) order
                      (d, PushProcessor.initial)))
            = N.of_nat
                (length (List.filter (PushProcessor.fails config env) selected))).
  { rewrite pushItem_fold_failed.
    rewrite (Permutation_filter_length _ _ _ Hperm). cbn. lia. }
  assert (Hsuccess :
            PushResult.success
              (PushProcessor.finish
                 (snd (fold_left (PushProcessor.pushItem config env) order
                         (d, PushProcessor.initial)))) = true
            <-> PushResult.failed
                  (PushProcessor.finish
                     (snd (fold_left (PushProcessor.pushItem config env) order
                             (d, PushProcessor.initial)))) = 0%N).
  { cbn. apply N.eqb_eq. }
  split; [exact Hsuccess|]. split; [exact Hfailed|]. split.
  - rewrite Hsuccess. cbn [PushProcessor.finish PushResult.failed].
    rewrite Hfailed. split.
    + intros Hzero item Hin.
      destruct (RestAdapter.pushItem (SyncConfig.routes config) env item)
        as [error|] eqn:E; [|reflexivity].
      assert (Hf : In item (List.filter (PushProcessor.fails config env) selected)).
      { apply filter_In. split; [exact Hin|]. unfold PushProcessor.fails.
        rewrite E. reflexivity. }
      destruct (List.filter (PushProcessor.fails config env) selected);
        [contradiction | cbn in Hzero; lia].
    + intros Hall.
      assert (Hnone : List.filter (PushProcessor.fails config env) selected = []).
      { clear -Hall. induction selected as [|x l IH]; [reflexivity|].
        cbn. unfold PushProcessor.fails at 1.
        rewrite (Hall x (or_introl eq_refl)).
        apply IH. intros y Hy. apply Hall. right. exact Hy. }
      rewrite Hnone. reflexivity.
  - intros item error Hin Hfail Hlt Hretry.
    apply pushItem_fold_reschedules; try assumption.
    + apply (Permutation_NoDup (Permutation_sym (Permutation_map _ Hperm))).
      apply filteredItems_NoDup. exact Hnd.
    + apply (Permutation_in _ (Permutation_sym Hperm)). exact Hin.
    + apply outbox_get_stored; [exact Hnd|].
      apply (filteredItems_In env table). exact Hin.
Qed.

Lemma push_result_witness :
  List.NoDup (List.map OutboxItem.id (Db.outbox Sample.db))
  /\ (forall group, Permutation (Env.settle Sample.env group) group)
  /\ PushResult.success
       (snd (PushProcessor.push Sample.config Sample.env None Sample.db))
     = false
  /\ PushResult.failed
       (snd (PushProcessor.push Sample.config Sample.env None Sample.db))
     = 2%N
  /\ Db.outbox_get 2
       (fst (PushProcessor.push Sample.config Sample.env None Sample.db))
     = Some (OutboxItem.mk 2 "posts" create (KNum 7) (Some Sample.newRow) 1 20
               (Some "Server error") (Some 1900)).
Proof.
  assert (Hnd : List.NoDup (List.map OutboxItem.id (Db.outbox Sample.db))).
  { cbn. repeat constructor; cbn; intuition discriminate. }
  assert (Hsettle : forall group,
             Permutation (Env.settle Sample.env group) group).
  { intros group. cbn. apply Permutation_sym, Permutation_rev. }
  destruct (push_result Sample.config Sample.env None Sample.db Hnd Hsettle)
    as (Hsuccess & Hfailed & _ & Hkept).
  split; [exact Hnd|]. split; [exact Hsettle|]. split; [|split].
  - apply not_true_is_false. intros E.
    apply Hsuccess in E. rewrite Hfailed in E. discriminate E.
  - rewrite Hfailed. reflexivity.
  - apply (Hkept Sample.item2 (Classified Sample.serverDown));
      [cbn; tauto | reflexivity..].
Defined.

(** ** Pausing a table *)

Lemma push_ignores_pausedTables env table t e :
  SyncEngine.push env table (SyncEngine.pauseTable t e)
  = (fst (SyncEngine.push env table e),
     SyncEngine.pauseTable t (snd (SyncEngine.push env table e))).
Proof.
  unfold SyncEngine.push. cbn.
  destruct (PushProcessor.push _ _ _ _). reflexivity.
Qed.

Lemma pull_ignores_pausedTables env table t e :
  SyncEngine.pull env table (SyncEngine.pauseTable t e)
  = (fst (SyncEngine.pull env table e),
     SyncEngine.pauseTable t (snd (SyncEngine.pull env table e))).
Proof. reflexivity. Qed.

(** C2.  The set that [pauseTable] fills is read by nothing: [push()] and
    [pull()] on an engine with a paused table return what they return
    without the pause and leave the same store.  On the sample engine with
    [posts] paused, [push()] dispatches the queued item of [posts] and
    removes it from the outbox, and [pull()] fetches a record of [posts]
    and writes it to the table. *)
Theorem pauseTable_is_not_honoured :
  (forall (env : Env.t) (table : option string) (t : string)
          (e : SyncEngine.t),
      SyncEngine.push env table (SyncEngine.pauseTable t e)
      = (fst (SyncEngine.push env table e),
         SyncEngine.pauseTable t (snd (SyncEngine.push env table e)))
      /\ SyncEngine.pull env table (SyncEngine.pauseTable t e)
         = (fst (SyncEngine.pull env table e),
            SyncEngine.pauseTable t (snd (SyncEngine.pull env table e))))
  /\ (let e := SyncEngine.pauseTable "posts" Sample.engine in
      "posts" ∈ SyncEngine.pausedTables e
      /\ Db.outbox (SyncEngine.db e) = [Sample.item1]
      /\ OutboxItem.table Sample.item1 = "posts"
      /\ PushResult.pushed (fst (SyncEngine.push Sample.env None e)) = 1%N
      /\ Db.outbox (SyncEngine.db (snd (SyncEngine.push Sample.env None e)))
         = []
      /\ Db.get "posts" (KNum 2) (SyncEngine.db e) = None
      /\ PullResult.applied (fst (SyncEngine.pull Sample.env None e)) = 1%N
      /\ Db.get "posts" (KNum 2)
           (SyncEngine.db (snd (SyncEngine.pull Sample.env None e)))
         = Some Sample.newRow).
Proof.
  split.
  - intros env table t e. split;
      [apply push_ignores_pausedTables | apply pull_ignores_pausedTables].
  - cbv zeta. split.
    + cbn. set_solver.
    + repeat split; vm_compute; reflexivity.
Qed.

(** ** Leader election *)

Lemma postMessages_nil (from : nat) (l : list LeaderElection.tab) :
  LeaderElection.postMessages from [] l = l.
Proof.
  unfold LeaderElection.postMessages. apply list_eq. intros j.
  rewrite list_lookup_imap. destruct (l !! j) as [x|]; cbn; [|reflexivity].
  destruct (Nat.eqb j from); [reflexivity|].
  destruct x. cbn. rewrite app_nil_r. reflexivity.
Qed.

Lemma step_quiet (a : LeaderElection.action) (n n' : LeaderElection.net) :
  LeaderElection.is_Elect a = false ->
  LeaderElection.quiet n ->
  LeaderElection.step a n = Some n' ->
  LeaderElection.quiet n'.
Proof.
  unfold LeaderElection.quiet. intros Ha Hq Hstep.
  destruct a as [i|i|i|i|d]; cbn in Ha, Hstep; try discriminate.
  - destruct (LeaderElection.tabs n !! i) as [x|] eqn:E; [|discriminate].
    cbn in Hstep.
    apply (proj1 (Forall_lookup _ _) Hq i x) in E as (_ & Hin & _).
    rewrite Hin in Hstep. discriminate.
  - destruct (LeaderElection.tabs n !! i) as [x|] eqn:E; [|discriminate].
    cbn in Hstep.
    apply (proj1 (Forall_lookup _ _) Hq i x) in E as (_ & _ & Ht).
    rewrite Ht in Hstep. discriminate.
  - destruct (LeaderElection.tabs n !! i) as [x|] eqn:E; [|discriminate].
    cbn in Hstep.
    apply (proj1 (Forall_lookup _ _) Hq i x) in E as (Hl & _ & _).
    destruct (LeaderElection.heartbeatInterval _); [|discriminate].
    injection Hstep as <-. cbn.
    unfold LeaderElection.heartbeat_tick. rewrite Hl, postMessages_nil.
    exact Hq.
  - destruct (0 <=? d); [|discriminate]. injection Hstep as <-. exact Hq.
Qed.

Lemma run_quiet (schedule : list LeaderElection.action) :
  forallb (fun a => negb (LeaderElection.is_Elect a)) schedule = true ->
  forall n n',
    LeaderElection.quiet n -> LeaderElection.run schedule n = Some n' ->
    LeaderElection.leaders n' = [].
Proof.
  induction schedule as [|a schedule IH]; intros Hs n n' Hq Hrun.
  - injection Hrun as <-. unfold LeaderElection.leaders.
    unfold LeaderElection.quiet in Hq.
    induction Hq as [|x l (Hl & _) _ IHl]; [reflexivity|].
    cbn. unfold LeaderElection.isLeader. rewrite Hl. exact IHl.
  - cbn in Hs. apply andb_true_iff in Hs as [Ha Hs].
    apply negb_true_iff in Ha. cbn in Hrun.
    destruct (LeaderElection.step a n) as [n1|] eqn:E; [|discriminate].
    cbn in Hrun. apply (IH Hs n1 n'); [|exact Hrun].
    apply (step_quiet a n n1 Ha Hq E).
Qed.

(** C5.  Two instances on one channel start their elections in the same
    millisecond.  Each timer expires before the other's announcement is
    dispatched, so both instances declare themselves leader; then each
    receives the announcement of the other and steps down.  Every election
    has run to its end, no message is left, and [isLeader()] is false in
    both instances. *)
Theorem election_race_leaves_no_leader :
  exists final : LeaderElection.net,
    LeaderElection.run Sample.race Sample.twoTabs = Some final
    /\ length (LeaderElection.tabs final) = 2%nat
    /\ LeaderElection.all_elected final = true
    /\ LeaderElection.settled final = true
    /\ LeaderElection.leaders final = []
    /\ LeaderElection.quiet final.
Proof.
  eexists. split; [vm_compute; reflexivity|].
  repeat split; repeat constructor.
Qed.


(** ** Worked examples *)

(** With the draw 1/2 the jitter vanishes and the delays are the powers
    of two up to the ceiling. *)
Example backoff_schedule :
  List.map (fun n => Backoff.defaultRetryDelay n (1 # 2)) [0; 1; 2; 5; 6; 10]%N
  = [1000; 2000; 4000; 32000; 60000; 60000].
Proof. reflexivity. Qed.

(** Record 1 was updated locally at 100 and the change is still queued;
    the server holds the record updated at 200.  The pull reports a
    conflict, resolves it by last-write-wins to the server's record, and
    emits one [conflict] event. *)
Example pull_with_pending_change :
  let s := ChangeApplier.applyChange Sample.config Sample.env "posts"
             (ChangeApplier.mkState Sample.db [] 0 0) Sample.remoteRow in
  ChangeApplier.conflicts s = 1%N
  /\ ChangeApplier.applied s = 1%N
  /\ ChangeApplier.emitted s = [conflict_event Sample.conflictInfo]
  /\ Db.get "posts" (KNum 1) (ChangeApplier.db s) = Some Sample.remoteRow.
Proof. vm_compute. repeat split. Qed.

(** On an instance with nothing queued the same record is written without
    a conflict. *)
Example pull_without_pending_change :
  let d := Db.with_outbox [] Sample.db in
  let s := ChangeApplier.applyChange Sample.config Sample.env "posts"
             (ChangeApplier.mkState d [] 0 0) Sample.remoteRow in
  ChangeApplier.conflicts s = 0%N
  /\ ChangeApplier.applied s = 1%N
  /\ ChangeApplier.emitted s = []
  /\ Db.get "posts" (KNum 1) (ChangeApplier.db s) = Some Sample.remoteRow.
Proof. vm_compute. repeat split. Qed.

(** A push of the three sample items: the first is pushed, the second
    rescheduled, the third dead-lettered. *)
Example push_of_three :
  let '(d, r) := PushProcessor.push Sample.config Sample.env None Sample.db in
  PushResult.pushed r = 1%N
  /\ PushResult.failed r = 2%N
  /\ PushResult.success r = false
  /\ List.map OutboxItem.id (Db.outbox d) = [2%N]
  /\ List.map DeadLetterItem.originalAttempts (Db.deadLetters d) = [0%N]
  /\ List.map DeadLetterItem.errorType (Db.deadLetters d) = ["validation"].
Proof. vm_compute. repeat split. Qed.

(* ===================================================================== *)
(** * Further properties of the code                                    *)
(* ===================================================================== *)


(** ** The outbox keeps the guarantees of its table *)

Lemma outbox_wf_filter (p : OutboxItem.t -> bool) (d : Db.t) :
  Db.outbox_wf d -> Db.outbox_wf (Db.with_outbox (List.filter p (Db.outbox d)) d).
Proof.
  intros [Hnd Hle]. split; cbn.
  - apply NoDup_map_filter. exact Hnd.
  - apply List.Forall_forall. intros x Hx. apply filter_In in Hx as [Hx _].
    exact (proj1 (List.Forall_forall _ _) Hle x Hx).
Qed.

Lemma outbox_wf_update (i : N) (change : OutboxItem.t -> OutboxItem.t)
    (d : Db.t) :
  (forall x, OutboxItem.id (change x) = OutboxItem.id x) ->
  Db.outbox_wf d -> Db.outbox_wf (Db.outbox_update i change d).
Proof.
  intros Hid [Hnd Hle].
  assert (E : List.map OutboxItem.id (Db.outbox (Db.outbox_update i change d))
              = List.map OutboxItem.id (Db.outbox d)).
  { cbn. rewrite List.map_map. apply List.map_ext. intros x.
    destruct (N.eqb (OutboxItem.id x) i); [apply Hid | reflexivity]. }
  split.
  - rewrite E. exact Hnd.
  - cbn. apply List.Forall_forall. intros y Hy.
    apply in_map_iff in Hy as (x & <- & Hx).
    pose proof (proj1 (List.Forall_forall _ _) Hle x Hx) as Hxle.
    destruct (N.eqb (OutboxItem.id x) i); [rewrite Hid|]; exact Hxle.
Qed.

Lemma outbox_wf_add (row : N -> OutboxItem.t) (d : Db.t) :
  (forall i, OutboxItem.id (row i) = i) ->
  Db.outbox_wf d -> Db.outbox_wf (Db.outbox_add row d).
Proof.
  intros Hrow [Hnd Hle]. split; cbn.
  - rewrite List.map_app. cbn. rewrite Hrow.
    apply NoDup_ListNoDup, NoDup_app. repeat split.
    + apply NoDup_ListNoDup. exact Hnd.
    + intros x Hx Hx'. apply list_elem_of_In in Hx.
      apply list_elem_of_singleton in Hx'. subst x.
      apply in_map_iff in Hx as (y & Hy & Hin).
      pose proof (proj1 (List.Forall_forall _ _) Hle y Hin) as Hy'.
      cbv beta in Hy'. lia.
    + apply NoDup_singleton.
  - apply Forall_app. split.
    + eapply Forall_impl; [exact Hle|]. cbn. intros. lia.
    + constructor; [|constructor]. rewrite Hrow. lia.
Qed.

Lemma add_wf now table operation key obj (d : Db.t) :
  Db.outbox_wf d ->
  Db.outbox_wf (OutboxManager.add now table operation key obj d).
Proof. apply outbox_wf_add. reflexivity. Qed.

Lemma remove_wf (i : N) (d : Db.t) :
  Db.outbox_wf d -> Db.outbox_wf (OutboxManager.remove i d).
Proof. apply outbox_wf_filter. Qed.

Lemma updateRetry_wf (i : N) error nextRetryAt (d : Db.t) :
  Db.outbox_wf d ->
  Db.outbox_wf (OutboxManager.updateRetry i error nextRetryAt d).
Proof.
  intros H. unfold OutboxManager.updateRetry.
  destruct (Db.outbox_get i d); [|exact H].
  apply outbox_wf_update; [reflexivity | exact H].
Qed.

Lemma clear_wf (table : option string) (d : Db.t) :
  Db.outbox_wf d -> Db.outbox_wf (OutboxManager.clear table d).
Proof.
  intros H. unfold OutboxManager.clear.
  destruct (OutboxManager.given table).
  - apply outbox_wf_filter. exact H.
  - split; cbn; constructor.
Qed.

Lemma pushItem_wf config env (d : Db.t) r (item : OutboxItem.t) :
  Db.outbox_wf d ->
  Db.outbox_wf (fst (PushProcessor.pushItem config env (d, r) item)).
Proof.
  intros H. unfold PushProcessor.pushItem.
  destruct (RestAdapter.pushItem _ _ _); cbn [fst].
  - destruct (_ || _); cbn [fst].
    + unfold PushProcessor.moveToDeadLetters. apply remove_wf. exact H.
    + apply updateRetry_wf. exact H.
  - apply remove_wf. exact H.
Qed.

Lemma pushItem_fold_wf config env (l : list OutboxItem.t) :
  forall d r,
    Db.outbox_wf d ->
    Db.outbox_wf (fst (fold_left (PushProcessor.pushItem config env) l (d, r))).
Proof.
  induction l as [|x l IH]; intros d r H; cbn [fold_left]; [exact H|].
  destruct (PushProcessor.pushItem config env (d, r) x) as [d1 r1] eqn:E.
  apply IH. change d1 with (fst (d1, r1)). rewrite <- E.
  apply pushItem_wf. exact H.
Qed.

Lemma push_wf config env table (d : Db.t) :
  Db.outbox_wf d -> Db.outbox_wf (fst (PushProcessor.push config env table d)).
Proof.
  intros H. rewrite push_unfold. cbn [fst]. apply pushItem_fold_wf. exact H.
Qed.


(** ** What a pull touches *)

Lemma applyChange_queues config env table s item :
  Db.queues
    (ChangeApplier.db (ChangeApplier.applyChange config env table s item))
  = Db.queues (ChangeApplier.db s).
Proof.
  unfold ChangeApplier.applyChange.
  repeat (match goal with
          | |- context [if ?b then _ else _] => destruct b
          | |- context [match ?x with _ => _ end] => destruct x
          end; cbn); reflexivity.
Qed.

Lemma applyChange_other_table config env table s item (other : string) :
  other <> table ->
  Db.tables
    (ChangeApplier.db (ChangeApplier.applyChange config env table s item))
    !! other
  = Db.tables (ChangeApplier.db s) !! other.
Proof.
  intros Hne. unfold ChangeApplier.applyChange.
  repeat (match goal with
          | |- context [if ?b then _ else _] => destruct b
          | |- context [match ?x with _ => _ end] => destruct x
          end; cbn); try reflexivity;
    apply lookup_insert_ne; congruence.
Qed.

Lemma put_dom (name : string) (row : Row.t) (d : Db.t) :
  is_Some (Db.tables d !! name) ->
  dom (Db.tables (Db.put name row d)) = dom (Db.tables d).
Proof. intros H. cbn. apply dom_insert_lookup_L. exact H. Qed.

Lemma applyChange_dom config env table s item :
  is_Some (Db.tables (ChangeApplier.db s) !! table) ->
  dom (Db.tables
         (ChangeApplier.db (ChangeApplier.applyChange config env table s item)))
  = dom (Db.tables (ChangeApplier.db s)).
Proof.
  intros H. unfold ChangeApplier.applyChange.
  repeat (match goal with
          | |- context [if ?b then _ else _] => destruct b
          | |- context [match ?x with _ => _ end] => destruct x
          end; cbn [ChangeApplier.db]); try reflexivity;
    apply put_dom; exact H.
Qed.

(** The counters of [applyChanges]. *)
Lemma applyChange_counts config env table s item :
  let s' := ChangeApplier.applyChange config env table s item in
  (ChangeApplier.applied s <= ChangeApplier.applied s'
   <= ChangeApplier.applied s + 1)%N
  /\ (ChangeApplier.conflicts s <= ChangeApplier.conflicts s'
      <= ChangeApplier.conflicts s + 1)%N.
Proof.
  unfold ChangeApplier.applyChange.
  repeat (match goal with
          | |- context [if ?b then _ else _] => destruct b
          | |- context [match ?x with _ => _ end] => destruct x
          end; cbn); lia.
Qed.

Lemma applyChange_applied config env table s item :
  ChangeApplier.handlerReturns config ->
  ChangeApplier.applied (ChangeApplier.applyChange config env table s item)
  = (ChangeApplier.applied s + 1)%N.
Proof.
  intros Hret. unfold ChangeApplier.applyChange.
  destruct (ChangeApplier.hasPendingChange _ _ _); [|reflexivity].
  destruct (Db.get _ _ _) as [local|]; [|reflexivity].
  destruct (SyncConfig.conflicts config) as [rc|] eqn:Erc; [|reflexivity].
  destruct (ConflictResolver.detectConflict _ _ _); [|reflexivity].
  unfold ChangeApplier.resolveConflict, ConflictResolver.resolve.
  destruct (String.eqb (ConflictConfig.policy rc) "custom") eqn:Ep;
    [|reflexivity].
  destruct (ConflictConfig.onConflict rc) as [h|] eqn:Eh; [|reflexivity].
  apply String.eqb_eq in Ep.
  destruct (Hret rc h Erc Ep Eh
              (ConflictInfo.mk table (Row.id item) local item
                 (ChangeApplier.timestampOf (Env.Date_parse env)
                    (Row.updatedAt local))
                 (ChangeApplier.timestampOf (Env.Date_parse env)
                    (Row.updatedAt item))
                 (Row.version local) (Row.version item))) as [row ->].
  reflexivity.
Qed.

Lemma applyChange_fold_facts config env table items :
  forall s,
    is_Some (Db.tables (ChangeApplier.db s) !! table) ->
    let s' := fold_left (ChangeApplier.applyChange config env table) items s in
    Db.queues (ChangeApplier.db s') = Db.queues (ChangeApplier.db s)
    /\ dom (Db.tables (ChangeApplier.db s'))
       = dom (Db.tables (ChangeApplier.db s))
    /\ (forall other, other <> table ->
          Db.tables (ChangeApplier.db s') !! other
          = Db.tables (ChangeApplier.db s) !! other)
    /\ (ChangeApplier.applied s'
        <= ChangeApplier.applied s + N.of_nat (length items))%N
    /\ (ChangeApplier.conflicts s'
        <= ChangeApplier.conflicts s + N.of_nat (length items))%N
    /\ (ChangeApplier.handlerReturns config ->
        ChangeApplier.applied s'
        = (ChangeApplier.applied s + N.of_nat (length items))%N).
Proof.
  induction items as [|item items IH]; intros s Hs; cbn [fold_left].
  - cbn. repeat split; try reflexivity; lia.
  - set (s1 := ChangeApplier.applyChange config env table s item).
    assert (Hs1 : is_Some (Db.tables (ChangeApplier.db s1) !! table)).
    { apply elem_of_dom. unfold s1. rewrite applyChange_dom by exact Hs.
      apply elem_of_dom. exact Hs. }
    destruct (IH s1 Hs1) as (Hq & Hd & Ho & Ha & Hc & Hr).
    pose proof (applyChange_counts config env table s item) as [Ha1 Hc1].
    fold s1 in Ha1, Hc1. cbv zeta in Ha1, Hc1.
    repeat split.
    + rewrite Hq. apply applyChange_queues.
    + rewrite Hd. apply applyChange_dom. exact Hs.
    + intros other Hne. rewrite (Ho other Hne).
      apply applyChange_other_table. exact Hne.
    + cbn [length]. lia.
    + cbn [length]. lia.
    + intros Hret. rewrite (Hr Hret). unfold s1.
      rewrite applyChange_applied by exact Hret. cbn [length]. lia.
Qed.

Lemma tableFails_dom config env (d d' : Db.t) (name : string) :
  dom (Db.tables d') = dom (Db.tables d) ->
  PullProcessor.tableFails config env d' name
  = PullProcessor.tableFails config env d name.
Proof.
  intros Hdom. unfold PullProcessor.tableFails.
  destruct (RestAdapter.pull _ _ _); [|reflexivity].
  apply bool_decide_ext. rewrite <- !not_elem_of_dom, Hdom. reflexivity.
Qed.

Lemma pullTable_facts config env (s : PullProcessor.state) (name : string) :
  let s' := PullProcessor.pullTable config env s name in
  let r := PullProcessor.result s in
  let r' := PullProcessor.result s' in
  let fails := PullProcessor.tableFails config env (PullProcessor.db s) name in
  Db.queues (PullProcessor.db s') = Db.queues (PullProcessor.db s)
  /\ dom (Db.tables (PullProcessor.db s'))
     = dom (Db.tables (PullProcessor.db s))
  /\ (forall other, other <> name ->
        Db.tables (PullProcessor.db s') !! other
        = Db.tables (PullProcessor.db s) !! other)
  /\ PullResult.pulled r'
     = (PullResult.pulled r
        + N.of_nat (PullProcessor.fetched config env name))%N
  /\ length (PullResult.errors r')
     = (length (PullResult.errors r) + if fails then 1 else 0)%nat
  /\ (PullResult.applied r'
      <= PullResult.applied r
         + N.of_nat (PullProcessor.share config env (PullProcessor.db s) name))%N
  /\ (PullResult.conflicts r'
      <= PullResult.conflicts r
         + N.of_nat (PullProcessor.share config env (PullProcessor.db s) name))%N
  /\ (ChangeApplier.handlerReturns config ->
      PullResult.applied r'
      = (PullResult.applied r
         + N.of_nat (PullProcessor.share config env (PullProcessor.db s) name))%N).
Proof.
  unfold PullProcessor.pullTable, PullProcessor.share, PullProcessor.tableFails,
    PullProcessor.fetched.
  destruct (RestAdapter.pull (SyncConfig.routes config) env name)
    as [items|e]; cbn zeta.
  - unfold ChangeApplier.applyChanges.
    destruct (Db.tables (PullProcessor.db s) !! name) as [rows|] eqn:E.
    + rewrite bool_decide_eq_false_2 by discriminate.
      destruct (applyChange_fold_facts config env name items
                  (ChangeApplier.mkState (PullProcessor.db s)
                     (PullProcessor.emitted s) 0 0))
        as (Hq & Hd & Ho & Ha & Hc & Hr).
      { cbn. rewrite E. eauto. }
      cbn in Hq, Hd, Ho, Ha, Hc, Hr |- *.
      repeat split; try assumption; try lia;
        try (rewrite Nat.add_0_r; reflexivity);
        try (intros Hret; rewrite (Hr Hret); lia).
    + rewrite bool_decide_eq_true_2 by reflexivity. cbn.
      repeat split; try lia. rewrite length_app. cbn. lia.
  - cbn. repeat split; try lia. rewrite length_app. cbn. lia.
Qed.

Lemma sum_cons (x : nat) (l : list nat) :
  list_sum (x :: l) = (x + list_sum l)%nat.
Proof. reflexivity. Qed.

Lemma share_dom config env (d d' : Db.t) (name : string) :
  dom (Db.tables d') = dom (Db.tables d) ->
  PullProcessor.share config env d' name = PullProcessor.share config env d name.
Proof.
  intros H. unfold PullProcessor.share. rewrite (tableFails_dom config env d d' name H).
  reflexivity.
Qed.

Lemma pullTable_fold_facts config env (names : list string) :
  forall s : PullProcessor.state,
    let s' := fold_left (PullProcessor.pullTable config env) names s in
    let r := PullProcessor.result s in
    let r' := PullProcessor.result s' in
    let d := PullProcessor.db s in
    Db.queues (PullProcessor.db s') = Db.queues d
    /\ dom (Db.tables (PullProcessor.db s')) = dom (Db.tables d)
    /\ (forall other, ~ In other names ->
          Db.tables (PullProcessor.db s') !! other = Db.tables d !! other)
    /\ PullResult.pulled r'
       = (PullResult.pulled r
          + N.of_nat
              (list_sum (List.map (PullProcessor.fetched config env) names)))%N
    /\ length (PullResult.errors r')
       = (length (PullResult.errors r)
          + length (List.filter (PullProcessor.tableFails config env d) names))%nat
    /\ (PullResult.applied r'
        <= PullResult.applied r
           + N.of_nat (list_sum (List.map (PullProcessor.share config env d) names)))%N
    /\ (PullResult.conflicts r'
        <= PullResult.conflicts r
           + N.of_nat (list_sum (List.map (PullProcessor.share config env d) names)))%N
    /\ (ChangeApplier.handlerReturns config ->
        PullResult.applied r'
        = (PullResult.applied r
           + N.of_nat (list_sum (List.map (PullProcessor.share config env d) names)))%N).
Proof.
  induction names as [|name names IH]; intros s; cbn [fold_left].
  - cbn. repeat split; try reflexivity; lia.
  - set (s1 := PullProcessor.pullTable config env s name).
    destruct (IH s1) as (Hq & Hd & Ho & Hp & He & Ha & Hc & Hr).
    destruct (pullTable_facts config env s name)
      as (Hq1 & Hd1 & Ho1 & Hp1 & He1 & Ha1 & Hc1 & Hr1).
    fold s1 in Hq1, Hd1, Ho1, Hp1, He1, Ha1, Hc1, Hr1.
    cbv zeta in *.
    assert (Hshare : List.map (PullProcessor.share config env (PullProcessor.db s1)) names
                     = List.map (PullProcessor.share config env (PullProcessor.db s)) names).
    { apply List.map_ext. intros t. apply share_dom. exact Hd1. }
    assert (Hfails :
              List.filter
                (PullProcessor.tableFails config env (PullProcessor.db s1))
                names
              = List.filter
                  (PullProcessor.tableFails config env (PullProcessor.db s))
                  names).
    { apply List.filter_ext. intros t. apply tableFails_dom. exact Hd1. }
    rewrite Hshare in Ha, Hc, Hr. rewrite Hfails in He.
    repeat split.
    + rewrite Hq. exact Hq1.
    + rewrite Hd. exact Hd1.
    + intros other Hn. rewrite Ho by (intros Hin; apply Hn; right; exact Hin).
      apply Ho1. intros ->. apply Hn. left. reflexivity.
    + rewrite Hp, Hp1. cbn [List.map]; rewrite ?sum_cons. lia.
    + rewrite He, He1. cbn [List.filter].
      destruct (PullProcessor.tableFails config env (PullProcessor.db s) name);
        cbn [length]; lia.
    + cbn [List.map]; rewrite ?sum_cons. lia.
    + cbn [List.map]; rewrite ?sum_cons. lia.
    + intros Hret. rewrite (Hr Hret), (Hr1 Hret). cbn [List.map]; rewrite ?sum_cons. lia.
Qed.

Lemma pull_unfold config env table d log :
  PullProcessor.pull config env table d log
  = let s := fold_left (PullProcessor.pullTable config env)
               (PullProcessor.selectedTables config table)
               (PullProcessor.mkState d log PullProcessor.initial) in
    PullProcessor.mkState (PullProcessor.db s) (PullProcessor.emitted s)
      (PullProcessor.finish (PullProcessor.result s)).
Proof. reflexivity. Qed.

Lemma share_le config env d (names : list string) :
  (list_sum (List.map (PullProcessor.share config env d) names)
   <= list_sum (List.map (PullProcessor.fetched config env) names))%nat.
Proof.
  induction names as [|name names IH]; cbn [List.map]; [cbn; lia|].
  rewrite !sum_cons. unfold PullProcessor.share at 1.
  destruct (PullProcessor.tableFails config env d name); lia.
Qed.

Lemma share_all config env d (names : list string) :
  (forall name, In name names ->
                PullProcessor.tableFails config env d name = false) ->
  list_sum (List.map (PullProcessor.share config env d) names)
  = list_sum (List.map (PullProcessor.fetched config env) names).
Proof.
  induction names as [|name names IH]; intros H; cbn [List.map];
    [reflexivity|].
  rewrite !sum_cons. unfold PullProcessor.share at 1. rewrite (H name (or_introl eq_refl)).
  rewrite IH; [reflexivity|]. intros t Ht. apply H. right. exact Ht.
Qed.

Lemma filter_nil_iff {A : Type} (p : A -> bool) (l : list A) :
  List.filter p l = [] <-> forall x, In x l -> p x = false.
Proof.
  induction l as [|x l IH]; cbn.
  - split; [intros _ y [] | reflexivity].
  - destruct (p x) eqn:E; split.
    + discriminate.
    + intros H. specialize (H x (or_introl eq_refl)). congruence.
    + intros H y [<- | Hy]; [exact E | apply IH; assumption].
    + intros H. apply IH. intros y Hy. apply H. right. exact Hy.
Qed.

(** X2.  The counters of [pull(table)].  [pulled] is the number of records
    fetched for the selected tables, those of a table whose apply then
    fails included; [errors] has one entry for each table whose pull
    failed (its fetch threw, or the store has no such table); [success]
    holds exactly when no table failed; [applied] and [conflicts] never
    exceed [pulled]; and when no table failed and a configured [custom]
    handler never throws, every fetched record is applied. *)
Theorem pull_accounting :
  forall (config : SyncConfig.t) (env : Env.t) (table : option string)
         (d : Db.t) (log : list SyncEvent),
    let names := PullProcessor.selectedTables config table in
    let r := PullProcessor.result (PullProcessor.pull config env table d log) in
    PullResult.pulled r
    = N.of_nat (list_sum (List.map (PullProcessor.fetched config env) names))
    /\ length (PullResult.errors r)
       = length (List.filter (PullProcessor.tableFails config env d) names)
    /\ (PullResult.success r = true
        <-> forall name, In name names ->
                         PullProcessor.tableFails config env d name = false)
    /\ (PullResult.applied r <= PullResult.pulled r)%N
    /\ (PullResult.conflicts r <= PullResult.pulled r)%N
    /\ (ChangeApplier.handlerReturns config ->
        PullResult.success r = true ->
        PullResult.applied r = PullResult.pulled r).
Proof.
  intros config env table d log names r. subst r. rewrite pull_unfold.
  cbn zeta. cbn [PullProcessor.result]. fold names.
  destruct (pullTable_fold_facts config env names
              (PullProcessor.mkState d log PullProcessor.initial))
    as (_ & _ & _ & Hp & He & Ha & Hc & Hr).
  cbn in Hp, He, Ha, Hc, Hr.
  pose proof (share_le config env d names) as Hle.
  assert (Hs : PullResult.success
                 (PullProcessor.finish
                    (PullProcessor.result
                       (fold_left (PullProcessor.pullTable config env) names
                          (PullProcessor.mkState d log PullProcessor.initial))))
               = true
               <-> forall name, In name names ->
                     PullProcessor.tableFails config env d name = false).
  { cbn. rewrite He, <- filter_nil_iff, Nat.eqb_eq. apply length_zero_iff_nil. }
  cbn [PullProcessor.finish PullResult.pulled PullResult.errors
         PullResult.applied PullResult.conflicts] in *.
  repeat split; try lia; try exact He; try apply Hs.
  intros Hret Hok. rewrite (Hr Hret), Hp.
  rewrite (share_all config env d names (proj1 Hs Hok)). reflexivity.
Qed.

Lemma pull_accounting_witness :
  ChangeApplier.handlerReturns Sample.config
  /\ PullResult.success
       (PullProcessor.result
          (PullProcessor.pull Sample.config Sample.env None Sample.db1 []))
     = true
  /\ PullResult.applied
       (PullProcessor.result
          (PullProcessor.pull Sample.config Sample.env None Sample.db1 []))
     = PullResult.pulled
         (PullProcessor.result
            (PullProcessor.pull Sample.config Sample.env None Sample.db1 [])).
Proof.
  assert (Hhandler : ChangeApplier.handlerReturns Sample.config).
  { intros rc h Hc Hpolicy. cbn in Hc. injection Hc as <-.
    discriminate Hpolicy. }
  assert (Hsuccess :
    PullResult.success
      (PullProcessor.result
         (PullProcessor.pull Sample.config Sample.env None Sample.db1 []))
    = true) by reflexivity.
  split; [exact Hhandler|]. split; [exact Hsuccess|].
  destruct (pull_accounting Sample.config Sample.env None Sample.db1 [])
    as (_ & _ & _ & _ & _ & Happlied).
  apply Happlied; [exact Hhandler | exact Hsuccess].
Defined.


(** ** A pull and the callbacks of its routes *)

Section Callbacks.

Variable callbacks : string -> Routed.PullCallbacks.t.
Variable config : SyncConfig.t.
Variable env : Env.t.

Lemma adapterPull_frame {A : Type} (part : Store.t -> A) (name : string)
    (names : list string) (s : Store.t) :
  Routed.leaves part callbacks names ->
  In name names ->
  part (snd (Routed.adapterPull callbacks (SyncConfig.routes config) env name s))
  = part s.
Proof.
  intros Hleaves Hin. unfold Routed.adapterPull.
  destruct (routes_get (SyncConfig.routes config) name ≫= TableRoute.pull);
    [|reflexivity].
  pose proof (proj1 (Hleaves name [] s Hin)) as Hq.
  destruct (Routed.call (Routed.PullCallbacks.query (callbacks name)) s)
    as [[error|] s1]; cbn [snd] in Hq |- *; [exact Hq|].
  destruct (Env.request_pull env name) as [items|error]; [|exact Hq].
  pose proof (proj2 (Hleaves name items s1 Hin)) as Hc.
  destruct (Routed.complete (Routed.PullCallbacks.onComplete (callbacks name))
              items s1)
    as [[error|] s2]; cbn [snd] in Hc |- *; congruence.
Qed.

Lemma pullTable_frame {A : Type} (part : Store.t -> A) (names : list string) :
  Routed.leaves part callbacks names ->
  (forall name items s log a,
      In name names ->
      ChangeApplier.applyChanges config env name items (Store.db s) log
      = Some a ->
      part (Store.mk (ChangeApplier.db a) (Store.checkpoints s)) = part s) ->
  forall (name : string) (s : Routed.state),
    In name names ->
    part (Routed.store (Routed.pullTable callbacks config env s name))
    = part (Routed.store s).
Proof.
  intros Hleaves Happly name s Hin. unfold Routed.pullTable.
  pose proof (adapterPull_frame part name names (Routed.store s) Hleaves Hin)
    as Hpull.
  destruct (Routed.adapterPull callbacks (SyncConfig.routes config) env name
              (Routed.store s)) as [[items|error] s1];
    cbn [snd] in Hpull; cbn zeta; [|exact Hpull].
  destruct (ChangeApplier.applyChanges config env name items (Store.db s1)
              (Routed.emitted s)) as [a|] eqn:Ea; cbn [Routed.store];
    [|exact Hpull].
  rewrite (Happly name items s1 (Routed.emitted s) a Hin Ea). exact Hpull.
Qed.

Lemma pullTable_fold_frame {A : Type} (part : Store.t -> A)
    (names : list string) :
  Routed.leaves part callbacks names ->
  (forall name items s log a,
      In name names ->
      ChangeApplier.applyChanges config env name items (Store.db s) log
      = Some a ->
      part (Store.mk (ChangeApplier.db a) (Store.checkpoints s)) = part s) ->
  forall (pulled : list string) (s : Routed.state),
    (forall name, In name pulled -> In name names) ->
    part (Routed.store
            (fold_left (Routed.pullTable callbacks config env) pulled s))
    = part (Routed.store s).
Proof.
  intros Hleaves Happly pulled.
  induction pulled as [|name pulled IH]; intros s Hsub; [reflexivity|].
  cbn [fold_left]. rewrite IH.
  - apply (pullTable_frame part names Hleaves Happly).
    apply Hsub. left. reflexivity.
  - intros other Hother. apply Hsub. right. exact Hother.
Qed.

End Callbacks.

Lemma applyChanges_facts config env (table : string) (items : list Row.t)
    (d : Db.t) (log : list SyncEvent) (a : ChangeApplier.state) :
  ChangeApplier.applyChanges config env table items d log = Some a ->
  Db.queues (ChangeApplier.db a) = Db.queues d
  /\ dom (Db.tables (ChangeApplier.db a)) = dom (Db.tables d)
  /\ (forall other, other <> table ->
        Db.tables (ChangeApplier.db a) !! other = Db.tables d !! other).
Proof.
  unfold ChangeApplier.applyChanges.
  destruct (Db.tables d !! table) as [rows|] eqn:E; [|discriminate].
  intros H. injection H as <-.
  destruct (applyChange_fold_facts config env table items
              (ChangeApplier.mkState d log 0 0))
    as (Hq & Hd & Ho & _).
  { cbn. rewrite E. eauto. }
  cbn in Hq, Hd, Ho. auto.
Qed.

Lemma pullTable_none config env (s : Routed.state) (name : string) :
  let s' := Routed.pullTable Routed.none config env s name in
  let p :=
    PullProcessor.pullTable config env
      (PullProcessor.mkState (Store.db (Routed.store s)) (Routed.emitted s)
         (Routed.result s)) name in
  Store.db (Routed.store s') = PullProcessor.db p
  /\ Store.checkpoints (Routed.store s') = Store.checkpoints (Routed.store s)
  /\ Routed.emitted s' = PullProcessor.emitted p
  /\ Routed.result s' = PullProcessor.result p.
Proof.
  unfold Routed.pullTable, PullProcessor.pullTable, Routed.adapterPull,
    RestAdapter.pull.
  cbn [Routed.none Routed.PullCallbacks.query Routed.PullCallbacks.onComplete
         Routed.call Routed.complete PullProcessor.db PullProcessor.emitted
         PullProcessor.result].
  destruct (routes_get (SyncConfig.routes config) name ≫= TableRoute.pull);
    [|cbn; repeat split].
  destruct (Env.request_pull env name) as [items|error];
    [|cbn; repeat split].
  cbn zeta.
  destruct (ChangeApplier.applyChanges config env name items
              (Store.db (Routed.store s)) (Routed.emitted s));
    cbn; repeat split.
Qed.

Lemma pullTable_fold_none config env (names : list string) :
  forall (s : Routed.state),
    let s' := fold_left (Routed.pullTable Routed.none config env) names s in
    let p :=
      fold_left (PullProcessor.pullTable config env) names
        (PullProcessor.mkState (Store.db (Routed.store s)) (Routed.emitted s)
           (Routed.result s)) in
    Store.db (Routed.store s') = PullProcessor.db p
    /\ Store.checkpoints (Routed.store s') = Store.checkpoints (Routed.store s)
    /\ Routed.emitted s' = PullProcessor.emitted p
    /\ Routed.result s' = PullProcessor.result p.
Proof.
  induction names as [|name names IH]; intros s; cbn [fold_left].
  - cbn. repeat split.
  - destruct (pullTable_none config env s name) as (Hd & Hc & He & Hr).
    destruct (IH (Routed.pullTable Routed.none config env s name))
      as (Hd' & Hc' & He' & Hr').
    cbv zeta in *. rewrite Hd, He, Hr in Hd', He', Hr'.
    replace (PullProcessor.mkState
               (PullProcessor.db
                  (PullProcessor.pullTable config env
                     (PullProcessor.mkState (Store.db (Routed.store s))
                        (Routed.emitted s) (Routed.result s)) name))
               (PullProcessor.emitted
                  (PullProcessor.pullTable config env
                     (PullProcessor.mkState (Store.db (Routed.store s))
                        (Routed.emitted s) (Routed.result s)) name))
               (PullProcessor.result
                  (PullProcessor.pullTable config env
                     (PullProcessor.mkState (Store.db (Routed.store s))
                        (Routed.emitted s) (Routed.result s)) name)))
      with (PullProcessor.pullTable config env
              (PullProcessor.mkState (Store.db (Routed.store s))
                 (Routed.emitted s) (Routed.result s)) name)
      in Hd', He', Hr'
      by (destruct (PullProcessor.pullTable config env _ name); reflexivity).
    repeat split; congruence.
Qed.

(** X1.  [pull(table)] with the callbacks of its routes.  [query] and
    [onComplete] are code of the user and are handed the context, so
    that each clause holds of the part of the store that the callbacks
    of the selected routes leave alone: then the pull leaves the outbox,
    the dead letters and their key generators as they were, changes no
    table but the ones it selects (the named table, or every table with
    a pull route), adds and drops no table, and writes no checkpoint.
    With routes that have no callback the pull is [PullProcessor.pull],
    and the checkpoints stay as they were. *)
Theorem pull_touches_only_selected_tables :
  forall (callbacks : string -> Routed.PullCallbacks.t)
         (config : SyncConfig.t) (env : Env.t) (table : option string)
         (s : Store.t) (log : list SyncEvent),
    let names := PullProcessor.selectedTables config table in
    let s' := Routed.store (Routed.pull callbacks config env table s log) in
    (Routed.leaves (fun x => Db.queues (Store.db x)) callbacks names ->
     Db.queues (Store.db s') = Db.queues (Store.db s))
    /\ (forall other,
          ~ In other names ->
          Routed.leaves (fun x => Db.tables (Store.db x) !! other)
            callbacks names ->
          Db.tables (Store.db s') !! other = Db.tables (Store.db s) !! other)
    /\ (Routed.leaves (fun x => dom (Db.tables (Store.db x))) callbacks names ->
        dom (Db.tables (Store.db s')) = dom (Db.tables (Store.db s)))
    /\ (Routed.leaves Store.checkpoints callbacks names ->
        Store.checkpoints s' = Store.checkpoints s)
    /\ (let p := PullProcessor.pull config env table (Store.db s) log in
        let q := Routed.pull Routed.none config env table s log in
        Store.db (Routed.store q) = PullProcessor.db p
        /\ Store.checkpoints (Routed.store q) = Store.checkpoints s
        /\ Routed.emitted q = PullProcessor.emitted p
        /\ Routed.result q = PullProcessor.result p).
Proof.
  intros callbacks config env table s log names s'. subst s'.
  unfold Routed.pull. cbn [Routed.store]. fold names.
  split; [|split; [|split; [|split]]].
  - intros Hleaves.
    rewrite (pullTable_fold_frame callbacks config env
               (fun x => Db.queues (Store.db x)) names Hleaves);
      [reflexivity | | auto].
    intros name items s0 log0 a _ Ha. cbn.
    apply (applyChanges_facts _ _ _ _ _ _ _ Ha).
  - intros other Hother Hleaves.
    rewrite (pullTable_fold_frame callbacks config env
               (fun x => Db.tables (Store.db x) !! other) names Hleaves);
      [reflexivity | | auto].
    intros name items s0 log0 a Hin Ha. cbn.
    apply (applyChanges_facts _ _ _ _ _ _ _ Ha). congruence.
  - intros Hleaves.
    rewrite (pullTable_fold_frame callbacks config env
               (fun x => dom (Db.tables (Store.db x))) names Hleaves);
      [reflexivity | | auto].
    intros name items s0 log0 a _ Ha. cbn.
    apply (applyChanges_facts _ _ _ _ _ _ _ Ha).
  - intros Hleaves.
    rewrite (pullTable_fold_frame callbacks config env Store.checkpoints
               names Hleaves);
      [reflexivity | | auto].
    intros name items s0 log0 a _ _. reflexivity.
  - cbv zeta. rewrite pull_unfold. cbn zeta.
    cbn [Routed.store Routed.emitted Routed.result PullProcessor.db
           PullProcessor.emitted PullProcessor.result].
    destruct (pullTable_fold_none config env names
                (Routed.mkState s log PullProcessor.initial))
      as (Hd & Hc & He & Hr).
    cbn in Hd, Hc, He, Hr. rewrite Hd, Hc, He, Hr. repeat split.
Qed.

Lemma pull_touches_only_selected_tables_witness :
  ~ In "drafts" (PullProcessor.selectedTables Sample.config None)
  /\ Routed.leaves (fun x => Db.tables (Store.db x) !! "drafts")
       Scenario.checkpointing (PullProcessor.selectedTables Sample.config None)
  /\ Db.tables
       (Store.db
          (Routed.store
             (Routed.pull Scenario.checkpointing Sample.config Sample.env None
                Scenario.twoTables [])))
     !! "drafts"
     = Db.tables (Store.db Scenario.twoTables) !! "drafts"
  /\ Store.checkpoints
       (Routed.store
          (Routed.pull Scenario.checkpointing Sample.config Sample.env None
             Scenario.twoTables []))
     !! "pull:posts"
     = Some (Checkpoint.mk "pull:posts" (Js.Number (Js.Num 300)) 2000)
  /\ Db.get "posts" (KNum 2)
       (Store.db
          (Routed.store
             (Routed.pull Scenario.checkpointing Sample.config Sample.env None
                Scenario.twoTables [])))
     = Some Sample.newRow.
Proof.
  assert (Hother :
    ~ In "drafts" (PullProcessor.selectedTables Sample.config None)).
  { cbn. intuition discriminate. }
  assert (Hleaves :
    Routed.leaves (fun x => Db.tables (Store.db x) !! "drafts")
      Scenario.checkpointing (PullProcessor.selectedTables Sample.config None)).
  { intros name response s _. split; reflexivity. }
  split; [exact Hother|]. split; [exact Hleaves|].
  split; [|split; reflexivity].
  apply (proj1 (proj2 (pull_touches_only_selected_tables
                         Scenario.checkpointing Sample.config Sample.env None
                         Scenario.twoTables [])) "drafts" Hother Hleaves).
Defined.


Lemma outbox_wf_queues (d d' : Db.t) :
  Db.queues d' = Db.queues d -> Db.outbox_wf d -> Db.outbox_wf d'.
Proof.
  unfold Db.queues, Db.outbox_wf. intros H. injection H as -> -> _ _. auto.
Qed.

(** X3.  What the push theorems assume of the outbox is kept by the program:
    if the ids of its rows are distinct and none is beyond the key
    generator, the same holds after [trackChange], in whatever
    transaction its hook runs, after [OutboxManager.clear(table)], after
    [push(table)] and after [pull(table)]. *)
Theorem outbox_ids_stay_distinct :
  forall (d : Db.t),
    Db.outbox_wf d ->
    (forall transaction now table operation key obj,
        Db.outbox_wf
          (ChangeTracker.trackChange transaction now table operation key obj
             d))
    /\ (forall table, Db.outbox_wf (OutboxManager.clear table d))
    /\ (forall config env table,
          Db.outbox_wf (fst (PushProcessor.push config env table d)))
    /\ (forall config env table log,
          Db.outbox_wf
            (PullProcessor.db (PullProcessor.pull config env table d log))).
Proof.
  intros d Hwf. split; [|split; [|split]].
  - intros transaction now table operation key obj.
    unfold ChangeTracker.trackChange.
    destruct (existsb _ _); [exact Hwf|].
    destruct (existsb _ _); [apply add_wf; exact Hwf | exact Hwf].
  - intros table. apply clear_wf; exact Hwf.
  - intros config env table. apply push_wf; exact Hwf.
  - intros config env table log.
    destruct (pullTable_fold_facts config env
                (PullProcessor.selectedTables config table)
                (PullProcessor.mkState d log PullProcessor.initial))
      as (Hq & _).
    cbn in Hq. rewrite pull_unfold. cbn zeta. cbn [PullProcessor.db].
    apply (outbox_wf_queues d _ Hq). exact Hwf.
Qed.

Lemma outbox_ids_stay_distinct_witness :
  Db.outbox_wf Sample.db
  /\ Db.outbox_wf
       (fst (PushProcessor.push Sample.config Sample.env None Sample.db)).
Proof.
  assert (Hwf : Db.outbox_wf Sample.db).
  { split; cbn; repeat constructor; cbn; try lia; intuition discriminate. }
  split; [exact Hwf|].
  apply (proj1 (proj2 (proj2 (outbox_ids_stay_distinct Sample.db Hwf)))).
Defined.


(** ** The fate of each row in a push *)

Lemma pushItem_deadLetters config env d r (x : OutboxItem.t) :
  Db.deadLetters (fst (PushProcessor.pushItem config env (d, r) x))
  = (Db.deadLetters d
     ++ match RestAdapter.pushItem (SyncConfig.routes config) env x with
        | Some error =>
            if PushProcessor.terminal config x error
            then [PushProcessor.deadLetterOf env (N.succ (Db.deadLettersKeyGen d)) x error]
            else []
        | None => []
        end)%list.
Proof.
  unfold PushProcessor.pushItem, PushProcessor.terminal.
  destruct (RestAdapter.pushItem _ _ _) as [error|]; cbn [fst].
  - destruct (_ || _); cbn [fst].
    + reflexivity.
    + rewrite updateRetry_deadLetters, app_nil_r. reflexivity.
  - cbn. rewrite app_nil_r. reflexivity.
Qed.

Lemma pushItem_fold_deadLetters config env (l : list OutboxItem.t) :
  forall d r,
    Db.deadLetters d
      `prefix_of`
      Db.deadLetters
        (fst (fold_left (PushProcessor.pushItem config env) l (d, r)))
    /\ length
         (Db.deadLetters
            (fst (fold_left (PushProcessor.pushItem config env) l (d, r))))
       = (length (Db.deadLetters d)
          + length (List.filter (PushProcessor.deadLettered config env) l))%nat.
Proof.
  induction l as [|x l IH]; intros d r; cbn [fold_left List.filter].
  - cbn. split; [reflexivity | lia].
  - destruct (PushProcessor.pushItem config env (d, r) x) as [d1 r1] eqn:E.
    assert (Ed : d1 = fst (PushProcessor.pushItem config env (d, r) x))
      by (rewrite E; reflexivity).
    destruct (IH d1 r1) as [Hp Hl]. rewrite Hl.
    pose proof (pushItem_deadLetters config env d r x) as Hx.
    rewrite <- Ed in Hx. split.
    + etransitivity; [|exact Hp]. rewrite Hx. apply prefix_app_r. reflexivity.
    + rewrite Hx, length_app. unfold PushProcessor.deadLettered.
      destruct (RestAdapter.pushItem _ _ _) as [error|]; cbn [length]; [|lia].
      destruct (PushProcessor.terminal config x error); cbn [length]; lia.
Qed.

Lemma pushItem_fold_removed config env (l : list OutboxItem.t)
    (item : OutboxItem.t) :
  (RestAdapter.pushItem (SyncConfig.routes config) env item = None
   \/ PushProcessor.deadLettered config env item = true) ->
  List.NoDup (List.map OutboxItem.id l) ->
  In item l ->
  forall d r,
    Db.outbox_get (OutboxItem.id item)
      (fst (fold_left (PushProcessor.pushItem config env) l (d, r)))
    = None.
Proof.
  intros Hfate.
  induction l as [|x l IH]; intros Hnd Hin d r; [contradiction|].
  cbn in Hnd. apply List.NoDup_cons_iff in Hnd as [Hx Hnd].
  cbn [fold_left].
  destruct (PushProcessor.pushItem config env (d, r) x) as [d1 r1] eqn:E.
  assert (Ed : d1 = fst (PushProcessor.pushItem config env (d, r) x))
    by (rewrite E; reflexivity).
  destruct Hin as [-> | Hin]; [|apply IH; assumption].
  rewrite pushItem_fold_get_ne.
  - rewrite Ed. unfold PushProcessor.pushItem.
    unfold PushProcessor.deadLettered, PushProcessor.terminal in Hfate.
    destruct (RestAdapter.pushItem _ _ _) as [error|]; cbn [fst].
    + destruct Hfate as [Hfate | Hfate]; [discriminate|].
      rewrite Hfate. cbn [fst].
      unfold PushProcessor.moveToDeadLetters, OutboxManager.remove.
      apply outbox_get_delete_eq.
    + unfold OutboxManager.remove. apply outbox_get_delete_eq.
  - intros y Hy Heq. apply Hx. rewrite <- Heq. apply in_map. exact Hy.
Qed.

Lemma pushItem_fold_deadLetter_kept config env (l : list OutboxItem.t)
    (item : OutboxItem.t) (error : Caught) :
  RestAdapter.pushItem (SyncConfig.routes config) env item = Some error ->
  PushProcessor.terminal config item error = true ->
  In item l ->
  forall d r,
    exists i,
      In (PushProcessor.deadLetterOf env i item error)
         (Db.deadLetters
            (fst (fold_left (PushProcessor.pushItem config env) l (d, r)))).
Proof.
  intros Hfail Hterm.
  induction l as [|x l IH]; intros Hin d r; [contradiction|].
  cbn [fold_left].
  destruct (PushProcessor.pushItem config env (d, r) x) as [d1 r1] eqn:E.
  assert (Ed : d1 = fst (PushProcessor.pushItem config env (d, r) x))
    by (rewrite E; reflexivity).
  destruct Hin as [-> | Hin]; [|apply IH; assumption].
  exists (N.succ (Db.deadLettersKeyGen d)).
  destruct (pushItem_fold_deadLetters config env l d1 r1) as [[k Hk] _].
  rewrite Hk. apply in_or_app. left.
  rewrite Ed, pushItem_deadLetters, Hfail, Hterm.
  apply in_or_app. right. left. reflexivity.
Qed.

Lemma pushItem_counts config env d r (x : OutboxItem.t) :
  let r' := snd (PushProcessor.pushItem config env (d, r) x) in
  (PushResult.pushed r' + PushResult.failed r'
   = PushResult.pushed r + PushResult.failed r + 1)%N
  /\ (PushResult.pushed r'
      = PushResult.pushed r
        + if PushProcessor.fails config env x then 0 else 1)%N
  /\ (length (PushResult.errors r')
      = length (PushResult.errors r)
        + if PushProcessor.fails config env x then 1 else 0)%nat.
Proof.
  unfold PushProcessor.pushItem, PushProcessor.fails.
  destruct (RestAdapter.pushItem _ _ _) as [error|]; cbn [snd].
  - destruct (_ || _); cbn; rewrite length_app; cbn; lia.
  - cbn. lia.
Qed.

Lemma pushItem_fold_counts config env (l : list OutboxItem.t) :
  forall d r,
    let r' := snd (fold_left (PushProcessor.pushItem config env) l (d, r)) in
    (PushResult.pushed r' + PushResult.failed r'
     = PushResult.pushed r + PushResult.failed r + N.of_nat (length l))%N
    /\ (length (PushResult.errors r')
        = length (PushResult.errors r)
          + length (List.filter (PushProcessor.fails config env) l))%nat.
Proof.
  induction l as [|x l IH]; intros d r; cbn [fold_left List.filter].
  - cbn. lia.
  - destruct (PushProcessor.pushItem config env (d, r) x) as [d1 r1] eqn:E.
    assert (Er : r1 = snd (PushProcessor.pushItem config env (d, r) x))
      by (rewrite E; reflexivity).
    destruct (IH d1 r1) as [Hc He].
    destruct (pushItem_counts config env d r x) as (Hc1 & _ & He1).
    rewrite <- Er in Hc1, He1. cbv zeta in *.
    destruct (PushProcessor.fails config env x); cbn [length] in *; lia.
Qed.

Lemma push_order_Permutation config env table d :
  (forall group, Permutation (Env.settle env group) group) ->
  Permutation
    (PushProcessor.settled_order env
       (PushProcessor.orDefault (SyncConfig.push_batchSize config) 10)
       (PushProcessor.orDefault (SyncConfig.push_concurrency config) 3)
       (PushProcessor.filteredItems env table d))
    (PushProcessor.filteredItems env table d).
Proof.
  intros H. apply settled_order_Permutation;
    [exact H | apply orDefault_positive; lia..].
Qed.

(** X4.  What [push(table)] does to each row, for an outbox with distinct ids
    and whatever the order in which the requests in flight settle.  A row
    that is not selected (it is of another table, or its retry is not
    due) stays as it is.  A selected row whose request succeeds is
    removed.  A selected row whose request fails for good (its attempts
    are used up, or the error is not retryable) is removed, and the dead
    letters hold its record: table, operation, key, payload, the message
    and type of the error, the time of the failure and the attempts
    made. *)
Theorem push_fates :
  forall (config : SyncConfig.t) (env : Env.t) (table : option string)
         (d : Db.t),
    List.NoDup (List.map OutboxItem.id (Db.outbox d)) ->
    (forall group, Permutation (Env.settle env group) group) ->
    let selected := PushProcessor.filteredItems env table d in
    let d' := fst (PushProcessor.push config env table d) in
    (forall item,
        In item (Db.outbox d) -> ~ In item selected ->
        Db.outbox_get (OutboxItem.id item) d' = Some item)
    /\ (forall item,
          In item selected ->
          RestAdapter.pushItem (SyncConfig.routes config) env item = None ->
          Db.outbox_get (OutboxItem.id item) d' = None)
    /\ (forall item error,
          In item selected ->
          RestAdapter.pushItem (SyncConfig.routes config) env item
            = Some error ->
          PushProcessor.getMaxRetries config
            <= Z.of_N (OutboxItem.attempt item)
          \/ Caught_retryable error = false ->
          Db.outbox_get (OutboxItem.id item) d' = None
          /\ exists i,
               In (PushProcessor.deadLetterOf env i item error) (Db.deadLetters d')).
Proof.
  intros config env table d Hnd Hsettle selected d'. subst d'.
  rewrite push_unfold. cbn [fst].
  pose proof (push_order_Permutation config env table d Hsettle) as Hperm.
  fold selected in Hperm.
  set (order := PushProcessor.settled_order env _ _ _) in *.
  assert (Hnd' : List.NoDup (List.map OutboxItem.id order)).
  { apply (Permutation_NoDup (Permutation_sym (Permutation_map _ Hperm))).
    apply filteredItems_NoDup. exact Hnd. }
  split; [|split].
  - intros item Hin Hnot.
    rewrite pushItem_fold_get_ne.
    + apply outbox_get_stored; assumption.
    + intros x Hx Heq. apply Hnot.
      apply (Permutation_in _ Hperm) in Hx.
      assert (Hxo : In x (Db.outbox d))
        by (apply (filteredItems_In env table); exact Hx).
      assert (E : x = item).
      { pose proof (outbox_get_stored d x Hnd Hxo) as H1.
        pose proof (outbox_get_stored d item Hnd Hin) as H2.
        rewrite Heq in H1. congruence. }
      rewrite <- E. exact Hx.
  - intros item Hin Hok.
    apply pushItem_fold_removed; [left; exact Hok | exact Hnd' |].
    apply (Permutation_in _ (Permutation_sym Hperm)). exact Hin.
  - intros item error Hin Hfail Hterm.
    assert (Ht : PushProcessor.terminal config item error = true).
    { unfold PushProcessor.terminal. destruct Hterm as [H | ->]; [|apply orb_true_r].
      apply Z.leb_le in H. rewrite H. reflexivity. }
    assert (Hin' : In item order)
      by (apply (Permutation_in _ (Permutation_sym Hperm)); exact Hin).
    split.
    + apply pushItem_fold_removed; [right | exact Hnd' | exact Hin'].
      unfold PushProcessor.deadLettered. rewrite Hfail. exact Ht.
    + apply pushItem_fold_deadLetter_kept; assumption.
Qed.

Lemma push_fates_witness :
  List.NoDup (List.map OutboxItem.id (Db.outbox Sample.db))
  /\ (forall group, Permutation (Env.settle Sample.env group) group)
  /\ Db.outbox_get 1
       (fst (PushProcessor.push Sample.config Sample.env None Sample.db))
     = None
  /\ Db.outbox_get 3
       (fst (PushProcessor.push Sample.config Sample.env None Sample.db))
     = None.
Proof.
  assert (Hnd : List.NoDup (List.map OutboxItem.id (Db.outbox Sample.db))).
  { cbn. repeat constructor; cbn; intuition discriminate. }
  assert (Hsettle : forall group,
             Permutation (Env.settle Sample.env group) group).
  { intros group. cbn. apply Permutation_sym, Permutation_rev. }
  destruct (push_fates Sample.config Sample.env None Sample.db Hnd Hsettle)
    as (_ & Hpushed & Hfinal).
  split; [exact Hnd|]. split; [exact Hsettle|]. split.
  - apply (Hpushed Sample.item1); [cbn; tauto | reflexivity].
  - apply (Hfinal Sample.item3 (Classified Sample.invalid));
      [cbn; tauto | reflexivity | right; reflexivity].
Defined.

(** X5.  The counters of [push(table)], whatever the order in which the
    requests settle.  [pushed + failed] is the number of rows selected;
    [errors] has one entry for each failed row; the dead letters grow by
    the rows whose failure is final, and what they held stays in place;
    with no row selected [push] returns
    [{success: true, pushed: 0, failed: 0, errors: []}] and leaves the
    store as it was. *)
Theorem push_accounting :
  forall (config : SyncConfig.t) (env : Env.t) (table : option string)
         (d : Db.t),
    (forall group, Permutation (Env.settle env group) group) ->
    let selected := PushProcessor.filteredItems env table d in
    let d' := fst (PushProcessor.push config env table d) in
    let r := snd (PushProcessor.push config env table d) in
    (PushResult.pushed r + PushResult.failed r = N.of_nat (length selected))%N
    /\ length (PushResult.errors r) = N.to_nat (PushResult.failed r)
    /\ length (Db.deadLetters d')
       = (length (Db.deadLetters d)
          + length (List.filter (PushProcessor.deadLettered config env) selected))%nat
    /\ Db.deadLetters d `prefix_of` Db.deadLetters d'
    /\ (selected = [] ->
        PushProcessor.push config env table d = (d, PushResult.mk true 0 0 [])).
Proof.
  intros config env table d Hsettle selected d' r. subst d' r.
  rewrite push_unfold. cbn [fst snd].
  pose proof (push_order_Permutation config env table d Hsettle) as Hperm.
  fold selected in Hperm.
  set (order := PushProcessor.settled_order env _ _ _) in *.
  destruct (pushItem_fold_counts config env order d PushProcessor.initial)
    as [Hc He].
  destruct (pushItem_fold_deadLetters config env order d PushProcessor.initial)
    as [Hp Hl].
  pose proof (pushItem_fold_failed config env order d PushProcessor.initial)
    as Hf.
  cbn [PushProcessor.finish PushResult.pushed PushResult.failed
         PushResult.errors].
  cbn in Hc, He, Hf.
  rewrite (Permutation_length Hperm) in Hc.
  rewrite (Permutation_filter_length _ _ _ Hperm) in Hl.
  split; [exact Hc|]. split; [rewrite He, Hf; lia|].
  split; [exact Hl|]. split; [exact Hp|].
  intros Hnil.
  assert (order = []) as ->.
  { apply Permutation_nil. apply Permutation_sym. rewrite <- Hnil.
    exact Hperm. }
  reflexivity.
Qed.

Lemma push_accounting_witness :
  (forall group, Permutation (Env.settle Sample.env group) group)
  /\ (PushResult.pushed
        (snd (PushProcessor.push Sample.config Sample.env None Sample.db))
      + PushResult.failed
          (snd (PushProcessor.push Sample.config Sample.env None Sample.db))
      = 3)%N
  /\ length (Db.deadLetters
               (fst (PushProcessor.push Sample.config Sample.env None
                       Sample.db)))
     = 1%nat.
Proof.
  assert (Hsettle : forall group,
             Permutation (Env.settle Sample.env group) group).
  { intros group. cbn. apply Permutation_sym, Permutation_rev. }
  destruct (push_accounting Sample.config Sample.env None Sample.db Hsettle)
    as (Hsum & _ & Hdead & _).
  split; [exact Hsettle|]. split.
  - rewrite Hsum. reflexivity.
  - rewrite Hdead. reflexivity.
Defined.

(** X6.  A change of a table that has no push route is never retried.  The
    adapter throws a plain [Error], which has no [retryable] field, so
    the first push of the row moves it to the dead letters, whatever its
    attempt count, with the error
    ["No push route configured for table: ..."] and the error type
    ["unknown"]. *)
Theorem push_without_route :
  forall (config : SyncConfig.t) (env : Env.t) (table : option string)
         (d : Db.t) (item : OutboxItem.t),
    List.NoDup (List.map OutboxItem.id (Db.outbox d)) ->
    (forall group, Permutation (Env.settle env group) group) ->
    In item (PushProcessor.filteredItems env table d) ->
    routes_get (SyncConfig.routes config) (OutboxItem.table item)
      ≫= TableRoute.push = None ->
    let d' := fst (PushProcessor.push config env table d) in
    Db.outbox_get (OutboxItem.id item) d' = None
    /\ exists i,
         In (DeadLetterItem.mk i (OutboxItem.table item)
               (OutboxItem.operation item) (OutboxItem.key item)
               (OutboxItem.obj item)
               ("No push route configured for table: "
                  ++ OutboxItem.table item)
               "unknown" (Env.failure_time env item)
               (OutboxItem.attempt item))
            (Db.deadLetters d').
Proof.
  intros config env table d item Hnd Hsettle Hin Hroute d'. subst d'.
  rewrite push_unfold. cbn [fst].
  pose proof (push_order_Permutation config env table d Hsettle) as Hperm.
  set (order := PushProcessor.settled_order env _ _ _) in *.
  assert (Hfail : RestAdapter.pushItem (SyncConfig.routes config) env item
                  = Some (PlainError ("No push route configured for table: "
                                        ++ OutboxItem.table item))).
  { unfold RestAdapter.pushItem. rewrite Hroute. reflexivity. }
  assert (Hterm : PushProcessor.terminal config item
                    (PlainError ("No push route configured for table: "
                                   ++ OutboxItem.table item)) = true)
    by apply orb_true_r.
  assert (Hin' : In item order)
    by (apply (Permutation_in _ (Permutation_sym Hperm)); exact Hin).
  split.
  - apply pushItem_fold_removed; [right | | exact Hin'].
    + unfold PushProcessor.deadLettered. rewrite Hfail. exact Hterm.
    + apply (Permutation_NoDup (Permutation_sym (Permutation_map _ Hperm))).
      apply filteredItems_NoDup. exact Hnd.
  - destruct (pushItem_fold_deadLetter_kept config env order item _
                Hfail Hterm Hin' d PushProcessor.initial) as [i Hi].
    exists i. exact Hi.
Qed.

Lemma push_without_route_witness :
  List.NoDup (List.map OutboxItem.id (Db.outbox Scenario.dbOrphan))
  /\ (forall group, Permutation (Env.settle Sample.env group) group)
  /\ In Scenario.orphan
        (PushProcessor.filteredItems Sample.env None Scenario.dbOrphan)
  /\ routes_get (SyncConfig.routes Sample.config) "comments"
       ≫= TableRoute.push = None
  /\ Db.outbox_get 4
       (fst (PushProcessor.push Sample.config Sample.env None
               Scenario.dbOrphan))
     = None.
Proof.
  assert (Hnd : List.NoDup
                  (List.map OutboxItem.id (Db.outbox Scenario.dbOrphan))).
  { cbn. repeat constructor; cbn; intuition discriminate. }
  assert (Hsettle : forall group,
             Permutation (Env.settle Sample.env group) group).
  { intros group. cbn. apply Permutation_sym, Permutation_rev. }
  assert (Hin : In Scenario.orphan
                  (PushProcessor.filteredItems Sample.env None
                     Scenario.dbOrphan)).
  { cbn. tauto. }
  split; [exact Hnd|]. split; [exact Hsettle|]. split; [exact Hin|].
  split; [reflexivity|].
  apply (push_without_route Sample.config Sample.env None Scenario.dbOrphan
           Scenario.orphan Hnd Hsettle Hin).
  reflexivity.
Defined.


(** ** The retry budget of a row *)

Lemma pushAgain_reschedules config env (i : N) (table : string)
    (operation : Operation) :
  (forall x, OutboxItem.id x = i ->
             OutboxItem.table x = table ->
             OutboxItem.operation x = operation ->
             exists error,
               RestAdapter.pushItem (SyncConfig.routes config) env x
               = Some error
               /\ Caught_retryable error = true) ->
  forall (k : nat) (d : Db.t) (item : OutboxItem.t),
    Db.outbox_get i d = Some item ->
    OutboxItem.table item = table ->
    OutboxItem.operation item = operation ->
    Z.of_N (OutboxItem.attempt item) + Z.of_nat k
      <= PushProcessor.getMaxRetries config ->
    exists x,
      Db.outbox_get i (PushProcessor.pushAgain config env k i d) = Some x
      /\ OutboxItem.attempt x = (OutboxItem.attempt item + N.of_nat k)%N
      /\ OutboxItem.table x = table
      /\ OutboxItem.operation x = operation
      /\ OutboxItem.key x = OutboxItem.key item
      /\ OutboxItem.obj x = OutboxItem.obj item
      /\ Db.deadLetters (PushProcessor.pushAgain config env k i d)
         = Db.deadLetters d.
Proof.
  intros Hfail. induction k as [|k IH]; intros d item Hget Htable Hop Hle.
  - exists item. cbn. repeat split; try assumption. lia.
  - cbn [PushProcessor.pushAgain]. rewrite Hget.
    pose proof (outbox_get_id i d item Hget) as Hid.
    destruct (Hfail item Hid Htable Hop) as (error & He & Hr).
    assert (Hlt : Z.of_N (OutboxItem.attempt item)
                  < PushProcessor.getMaxRetries config) by lia.
    pose proof (pushItem_reschedules config env d PushProcessor.initial item
                  error He Hlt Hr) as Hstep.
    rewrite Hid in Hstep. specialize (Hstep Hget).
    set (d1 := fst (PushProcessor.pushItem config env
                      (d, PushProcessor.initial) item)) in *.
    destruct (IH d1 _ Hstep) as (x & Hx & Ha & Ht & Ho & Hk & Hobj & Hdl).
    { exact Htable. }
    { exact Hop. }
    { cbn. lia. }
    exists x. cbn in Ha, Hk, Hobj.
    repeat split; try assumption; try lia.
    rewrite Hdl. subst d1. unfold PushProcessor.pushItem. rewrite He.
    apply Z.leb_gt in Hlt. rewrite Hlt, Hr. cbn.
    apply updateRetry_deadLetters.
Qed.

(** X7.  The retry budget of a row.  A new row (attempt 0) whose every push
    fails with a retryable error survives [maxRetries] pushes: after
    [k <= maxRetries] of them it is in the outbox with [attempt = k].
    The next push removes it and appends one dead letter, with
    [originalAttempts = maxRetries] and the table, operation, key and
    payload of the row.  [maxRetries] is what [getMaxRetries] returns,
    taken positive. *)
Theorem retry_budget :
  forall (config : SyncConfig.t) (env : Env.t) (d : Db.t)
         (item : OutboxItem.t),
    0 < PushProcessor.getMaxRetries config ->
    (forall x, OutboxItem.id x = OutboxItem.id item ->
               OutboxItem.table x = OutboxItem.table item ->
               OutboxItem.operation x = OutboxItem.operation item ->
               exists error,
                 RestAdapter.pushItem (SyncConfig.routes config) env x
                 = Some error
                 /\ Caught_retryable error = true) ->
    Db.outbox_get (OutboxItem.id item) d = Some item ->
    OutboxItem.attempt item = 0%N ->
    let m := Z.to_nat (PushProcessor.getMaxRetries config) in
    (forall k, (k <= m)%nat ->
       exists x,
         Db.outbox_get (OutboxItem.id item)
           (PushProcessor.pushAgain config env k (OutboxItem.id item) d)
         = Some x
         /\ OutboxItem.attempt x = N.of_nat k)
    /\ Db.outbox_get (OutboxItem.id item)
         (PushProcessor.pushAgain config env (S m) (OutboxItem.id item) d)
       = None
    /\ exists dl,
         Db.deadLetters
           (PushProcessor.pushAgain config env (S m) (OutboxItem.id item) d)
         = (Db.deadLetters d ++ [dl])%list
         /\ DeadLetterItem.originalAttempts dl = N.of_nat m
         /\ DeadLetterItem.table dl = OutboxItem.table item
         /\ DeadLetterItem.operation dl = OutboxItem.operation item
         /\ DeadLetterItem.key dl = OutboxItem.key item
         /\ DeadLetterItem.obj dl = OutboxItem.obj item.
Proof.
  intros config env d item Hpos Hfail Hget Hzero m.
  split.
  - intros k Hk.
    destruct (pushAgain_reschedules config env _ _ _ Hfail k d item Hget
                eq_refl eq_refl)
      as (x & Hx & Ha & _).
    { rewrite Hzero. subst m. lia. }
    exists x. split; [exact Hx|]. rewrite Ha, Hzero. lia.
  - destruct (pushAgain_reschedules config env _ _ _ Hfail m d item Hget
                eq_refl eq_refl)
      as (x & Hx & Ha & Ht & Ho & Hk & Hobj & Hdl).
    { rewrite Hzero. subst m. lia. }
    assert (Hlast :
              PushProcessor.pushAgain config env (S m) (OutboxItem.id item) d
              = fst (PushProcessor.pushItem config env
                       (PushProcessor.pushAgain config env m
                          (OutboxItem.id item) d,
                        PushProcessor.initial) x)).
    { clear -Hx. revert d Hx. induction m as [|m IH]; intros d Hx.
      - cbn in Hx |- *. rewrite Hx. reflexivity.
      - cbn [PushProcessor.pushAgain] in Hx |- *.
        destruct (Db.outbox_get (OutboxItem.id item) d) as [y|] eqn:E.
        + apply IH. exact Hx.
        + rewrite E in Hx. discriminate. }
    rewrite Hlast.
    pose proof (outbox_get_id _ _ _ Hx) as Hid.
    destruct (Hfail x Hid Ht Ho) as (error & He & Hr).
    unfold PushProcessor.pushItem. rewrite He.
    assert ((PushProcessor.getMaxRetries config
               <=? Z.of_N (OutboxItem.attempt x)) = true) as ->.
    { apply Z.leb_le. rewrite Ha, Hzero. subst m. lia. }
    cbn [orb fst]. split.
    + unfold PushProcessor.moveToDeadLetters, OutboxManager.remove.
      rewrite <- Hid. apply outbox_get_delete_eq.
    + eexists. split.
      * unfold PushProcessor.moveToDeadLetters. cbn. rewrite Hdl.
        reflexivity.
      * cbn. rewrite Ha, Hzero. repeat split; assumption.
Qed.

Lemma retry_budget_witness :
  0 < PushProcessor.getMaxRetries Sample.config
  /\ (forall x,
        OutboxItem.id x = OutboxItem.id Sample.item2 ->
        OutboxItem.table x = OutboxItem.table Sample.item2 ->
        OutboxItem.operation x = OutboxItem.operation Sample.item2 ->
        exists error,
          RestAdapter.pushItem (SyncConfig.routes Sample.config)
            Sample.env x = Some error
          /\ Caught_retryable error = true)
  /\ Db.outbox_get 2 Sample.db = Some Sample.item2
  /\ OutboxItem.attempt Sample.item2 = 0%N
  /\ Db.outbox_get 2
       (PushProcessor.pushAgain Sample.config Sample.env 6 2 Sample.db)
     = None.
Proof.
  assert (Hfail : forall x,
            OutboxItem.id x = OutboxItem.id Sample.item2 ->
            OutboxItem.table x = OutboxItem.table Sample.item2 ->
            OutboxItem.operation x = OutboxItem.operation Sample.item2 ->
            exists error,
              RestAdapter.pushItem (SyncConfig.routes Sample.config)
                Sample.env x = Some error
              /\ Caught_retryable error = true).
  { intros x Hid Htable Hop. exists (Classified Sample.serverDown).
    unfold RestAdapter.pushItem. rewrite Htable, Hop. cbn.
    cbn in Hid. rewrite Hid. split; reflexivity. }
  split; [reflexivity|]. split; [exact Hfail|].
  split; [reflexivity|]. split; [reflexivity|].
  apply (proj1 (proj2 (retry_budget Sample.config Sample.env Sample.db
                         Sample.item2 eq_refl Hfail eq_refl eq_refl))).
Defined.

(** ** Back from the dead letters *)

Lemma deadLetters_get_new (d : Db.t) (row : N -> DeadLetterItem.t) :
  (forall i, DeadLetterItem.id (row i) = i) ->
  Db.deadLetters_wf d ->
  Db.deadLetters_get (N.succ (Db.deadLettersKeyGen d))
    (Db.deadLetters_add row d)
  = Some (row (N.succ (Db.deadLettersKeyGen d))).
Proof.
  intros Hrow [_ Hle]. unfold Db.deadLetters_get, Db.deadLetters_add. cbn.
  induction (Db.deadLetters d) as [|x l IH]; cbn.
  - rewrite Hrow, N.eqb_refl. reflexivity.
  - apply List.Forall_cons_iff in Hle as [Hx Hl].
    destruct (N.eqb (DeadLetterItem.id x) _) eqn:E.
    + apply N.eqb_eq in E. lia.
    + apply IH. exact Hl.
Qed.

Lemma deadLetters_delete_new (l : list DeadLetterItem.t) (x : DeadLetterItem.t) :
  Forall (fun it => (DeadLetterItem.id it < DeadLetterItem.id x)%N) l ->
  List.filter
    (fun it => negb (N.eqb (DeadLetterItem.id it) (DeadLetterItem.id x)))
    (l ++ [x])
  = l.
Proof.
  induction l as [|y l IH]; intros H; cbn.
  - rewrite N.eqb_refl. reflexivity.
  - apply List.Forall_cons_iff in H as [Hy Hl].
    destruct (N.eqb (DeadLetterItem.id y) (DeadLetterItem.id x)) eqn:E.
    + apply N.eqb_eq in E. lia.
    + cbn. rewrite IH by exact Hl. reflexivity.
Qed.

(** X8.  Back from the dead letters.  When a row has been moved to the dead
    letters, [retryDeadLetter] with the id of its record returns, leaves
    the dead letters as they were before the move, and queues the change
    again at the end of the outbox as a new row: the same table,
    operation, key and payload, a new id, [attempt] 0, [createdAt] now
    and no retry fields. *)
Theorem deadLetter_round_trip :
  forall (now failedAt : Z) (item : OutboxItem.t) (error : Caught)
         (e : SyncEngine.t),
    Db.deadLetters_wf (SyncEngine.db e) ->
    let d := SyncEngine.db e in
    let i := N.succ (Db.deadLettersKeyGen d) in
    let e1 :=
      SyncEngine.with_db
        (PushProcessor.moveToDeadLetters failedAt item error d) e in
    let '(outcome, e2) := SyncEngine.retryDeadLetter now i e1 in
    outcome = Js.Returned tt
    /\ Db.deadLetters (SyncEngine.db e2) = Db.deadLetters d
    /\ Db.outbox (SyncEngine.db e2)
       = (Db.outbox (OutboxManager.remove (OutboxItem.id item) d)
          ++ [OutboxItem.mk (N.succ (Db.outboxKeyGen d))
                (OutboxItem.table item) (OutboxItem.operation item)
                (OutboxItem.key item) (OutboxItem.obj item)
                0 now None None])%list.
Proof.
  intros now failedAt item error e Hwf d i e1. subst e1 i d.
  unfold SyncEngine.retryDeadLetter. cbn [SyncEngine.db SyncEngine.with_db].
  unfold PushProcessor.moveToDeadLetters.
  set (row := fun j => DeadLetterItem.mk j _ _ _ _ _ _ _ _).
  assert (Hget :
            Db.deadLetters_get (N.succ (Db.deadLettersKeyGen (SyncEngine.db e)))
              (OutboxManager.remove (OutboxItem.id item)
                 (Db.deadLetters_add row (SyncEngine.db e)))
            = Some (row (N.succ (Db.deadLettersKeyGen (SyncEngine.db e))))).
  { apply (deadLetters_get_new (SyncEngine.db e) row);
      [reflexivity | exact Hwf]. }
  rewrite Hget. cbn.
  repeat split.
  apply (deadLetters_delete_new (Db.deadLetters (SyncEngine.db e))
           (row (N.succ (Db.deadLettersKeyGen (SyncEngine.db e))))).
  destruct Hwf as [_ Hle]. eapply Forall_impl; [exact Hle|].
  cbn. intros. lia.
Qed.

Lemma deadLetter_round_trip_witness :
  Db.deadLetters_wf (SyncEngine.db Sample.engine)
  /\ fst (SyncEngine.retryDeadLetter 2000 1
            (SyncEngine.with_db
               (PushProcessor.moveToDeadLetters 1500 Sample.item1
                  (Classified Sample.invalid) Sample.db1)
               Sample.engine))
     = Js.Returned tt.
Proof.
  assert (Hwf : Db.deadLetters_wf (SyncEngine.db Sample.engine)).
  { split; cbn; constructor. }
  split; [exact Hwf|].
  pose proof (deadLetter_round_trip 2000 1500 Sample.item1
                (Classified Sample.invalid) Sample.engine Hwf) as H.
  cbv zeta in H.
  match type of H with
  | (let '(_, _) := ?X in _) => change (fst X = Js.Returned tt); destruct X
  end.
  apply H.
Defined.


(** ** Reading the outbox *)

Lemma insert_createdAt_Permutation (x : OutboxItem.t) (l : list OutboxItem.t) :
  Permutation (OutboxManager.insert_createdAt x l) (x :: l).
Proof.
  induction l as [|y l IH]; cbn; [reflexivity|].
  destruct (_ <? _); [reflexivity|].
  rewrite IH. apply perm_swap.
Qed.

Lemma insert_createdAt_sorted (x : OutboxItem.t) (l : list OutboxItem.t) :
  StronglySorted OutboxManager.older l ->
  StronglySorted OutboxManager.older (OutboxManager.insert_createdAt x l).
Proof.
  induction 1 as [|y l Hl IH Hy]; cbn.
  - repeat constructor.
  - destruct (OutboxItem.createdAt x <? OutboxItem.createdAt y) eqn:E.
    + apply Z.ltb_lt in E. constructor; [constructor; assumption|].
      constructor; [unfold OutboxManager.older; lia|].
      eapply Forall_impl; [exact Hy|]. unfold OutboxManager.older. cbn. intros. lia.
    + apply Z.ltb_ge in E. constructor; [exact IH|].
      apply (Permutation_Forall (Permutation_sym
               (insert_createdAt_Permutation x l))).
      constructor; [exact E | exact Hy].
Qed.

Lemma orderBy_createdAt_facts (l : list OutboxItem.t) :
  Permutation (OutboxManager.orderBy_createdAt l) l
  /\ StronglySorted OutboxManager.older (OutboxManager.orderBy_createdAt l).
Proof.
  unfold OutboxManager.orderBy_createdAt.
  assert (G : forall acc,
             StronglySorted OutboxManager.older acc ->
             Permutation
               (fold_left (fun acc x => OutboxManager.insert_createdAt x acc)
                  l acc) (acc ++ l)
             /\ StronglySorted OutboxManager.older
                  (fold_left (fun acc x => OutboxManager.insert_createdAt x acc)
                     l acc)).
  { induction l as [|x l IH]; intros acc Hacc; cbn [fold_left].
    - rewrite app_nil_r. split; [reflexivity | exact Hacc].
    - destruct (IH (OutboxManager.insert_createdAt x acc)) as [Hp Hs].
      { apply insert_createdAt_sorted. exact Hacc. }
      split; [|exact Hs].
      rewrite Hp, insert_createdAt_Permutation.
      apply Permutation_middle. }
  destruct (G []) as [Hp Hs]; [constructor|]. split; assumption.
Qed.

Lemma StronglySorted_filter {A : Type} (R : A -> A -> Prop) (p : A -> bool)
    (l : list A) :
  StronglySorted R l -> StronglySorted R (List.filter p l).
Proof.
  induction 1 as [|x l Hl IH Hx]; cbn; [constructor|].
  destruct (p x); [|exact IH]. constructor; [exact IH|].
  apply List.Forall_forall. intros y Hy. apply filter_In in Hy as [Hy _].
  exact (proj1 (List.Forall_forall _ _) Hx y Hy).
Qed.

Lemma getAll_In (table : option string) (d : Db.t) (item : OutboxItem.t) :
  In item (OutboxManager.getAll table d)
  <-> In item (Db.outbox d)
      /\ match OutboxManager.given table with
         | Some name => OutboxItem.table item = name
         | None => True
         end.
Proof.
  unfold OutboxManager.getAll.
  destruct (orderBy_createdAt_facts (Db.outbox d)) as [Hp _].
  destruct (OutboxManager.given table) as [name|].
  - rewrite filter_In, String.eqb_eq.
    split; intros [H1 H2]; (split; [|exact H2]).
    + apply (Permutation_in _ Hp). exact H1.
    + apply (Permutation_in _ (Permutation_sym Hp)). exact H1.
  - split.
    + intros H. split; [apply (Permutation_in _ Hp); exact H | exact I].
    + intros [H _]. apply (Permutation_in _ (Permutation_sym Hp)). exact H.
Qed.

(** X9.  [getAll(table)] returns the rows of the outbox that are of [table]
    (all of them when no table, or the empty string, is given) and only
    those, oldest [createdAt] first; [getDepth(table)] is their
    number. *)
Theorem getAll_sorted :
  forall (table : option string) (d : Db.t),
    StronglySorted OutboxManager.older (OutboxManager.getAll table d)
    /\ (forall item,
          In item (OutboxManager.getAll table d)
          <-> In item (Db.outbox d)
              /\ match OutboxManager.given table with
                 | Some name => OutboxItem.table item = name
                 | None => True
                 end)
    /\ length (OutboxManager.getAll table d) = OutboxManager.getDepth table d.
Proof.
  intros table d. split; [|split; [intros item; apply getAll_In|]].
  - unfold OutboxManager.getAll.
    destruct (orderBy_createdAt_facts (Db.outbox d)) as [_ Hs].
    destruct (OutboxManager.given table);
      [apply StronglySorted_filter|]; exact Hs.
  - unfold OutboxManager.getAll, OutboxManager.getDepth.
    destruct (orderBy_createdAt_facts (Db.outbox d)) as [Hp _].
    destruct (OutboxManager.given table).
    + apply Permutation_filter_length. exact Hp.
    + apply Permutation_length. exact Hp.
Qed.

(** X10.  [getOldestItem()] is [undefined] exactly when the outbox is empty;
    otherwise it is a row of the outbox, and no row has an earlier
    [createdAt]. *)
Theorem getOldestItem_oldest :
  forall (d : Db.t),
    (OutboxManager.getOldestItem d = None <-> Db.outbox d = [])
    /\ (forall x,
          OutboxManager.getOldestItem d = Some x ->
          In x (Db.outbox d)
          /\ forall y, In y (Db.outbox d) -> OutboxManager.older x y).
Proof.
  intros d. unfold OutboxManager.getOldestItem.
  destruct (orderBy_createdAt_facts (Db.outbox d)) as [Hp Hs].
  destruct (OutboxManager.orderBy_createdAt (Db.outbox d)) as [|x l] eqn:E;
    cbn.
  - split.
    + split; [intros _ | reflexivity].
      apply Permutation_nil. exact Hp.
    + discriminate.
  - split.
    + split; [discriminate|]. intros Hnil. rewrite Hnil in Hp.
      apply Permutation_sym, Permutation_nil in Hp. discriminate.
    + intros x' [= <-]. split.
      * apply (Permutation_in _ Hp). left. reflexivity.
      * intros y Hy. apply (Permutation_in _ (Permutation_sym Hp)) in Hy.
        apply StronglySorted_inv in Hs as [_ Hx].
        destruct Hy as [<- | Hy]; [unfold OutboxManager.older; lia|].
        exact (proj1 (List.Forall_forall _ _) Hx y Hy).
Qed.

Lemma existsb_ids (l : list OutboxItem.t) (p : OutboxItem.t -> bool)
    (x : OutboxItem.t) :
  List.NoDup (List.map OutboxItem.id l) ->
  In x l ->
  List.existsb (N.eqb (OutboxItem.id x))
    (List.map OutboxItem.id (List.filter p l))
  = p x.
Proof.
  intros Hnd Hin. destruct (p x) eqn:E.
  - apply existsb_exists. exists (OutboxItem.id x).
    split; [|apply N.eqb_refl].
    apply in_map, filter_In. split; assumption.
  - apply not_true_is_false. intros H.
    apply existsb_exists in H as (i & Hi & Heq). apply N.eqb_eq in Heq.
    subst i. apply in_map_iff in Hi as (y & Hy & Hyin).
    apply filter_In in Hyin as [Hyin Hp].
    assert (y = x).
    { clear -Hnd Hin Hyin Hy. induction l as [|z l IH]; [contradiction|].
      cbn in Hnd. apply List.NoDup_cons_iff in Hnd as [Hz Hnd].
      destruct Hin as [-> | Hin], Hyin as [-> | Hyin]; auto.
      - exfalso. apply Hz. rewrite <- Hy. apply in_map. exact Hyin.
      - exfalso. apply Hz. rewrite Hy. apply in_map. exact Hin. }
    congruence.
Qed.

(** X11.  [clear(table)], on an outbox with distinct ids, removes the rows of
    [table] and keeps the others in their order; [clear()] removes every
    row.  Afterwards [getDepth(table)] is 0.  The key generator is not
    set back: a row added later gets an id that was never used. *)
Theorem clear_table :
  forall (table : option string) (d : Db.t),
    List.NoDup (List.map OutboxItem.id (Db.outbox d)) ->
    Db.outbox (OutboxManager.clear table d)
    = match OutboxManager.given table with
      | Some name =>
          List.filter
            (fun item => negb (String.eqb (OutboxItem.table item) name))
            (Db.outbox d)
      | None => []
      end
    /\ OutboxManager.getDepth table (OutboxManager.clear table d) = 0%nat
    /\ Db.outboxKeyGen (OutboxManager.clear table d) = Db.outboxKeyGen d.
Proof.
  intros table d Hnd. unfold OutboxManager.clear, OutboxManager.getDepth.
  destruct (OutboxManager.given table) as [name|]; [|repeat split].
  assert (E : Db.outbox
                (Db.outbox_bulkDelete
                   (List.map OutboxItem.id
                      (List.filter
                         (fun item => String.eqb (OutboxItem.table item) name)
                         (Db.outbox d))) d)
              = List.filter
                  (fun item => negb (String.eqb (OutboxItem.table item) name))
                  (Db.outbox d)).
  { cbn. apply filter_ext_in. intros x Hx.
    rewrite (existsb_ids _ _ x Hnd Hx). reflexivity. }
  rewrite E. split; [reflexivity|]. split; [|reflexivity].
  assert (List.filter
            (fun item => String.eqb (OutboxItem.table item) name)
            (List.filter
               (fun item => negb (String.eqb (OutboxItem.table item) name))
               (Db.outbox d)) = []) as ->; [|reflexivity].
  apply filter_nil_iff. intros x Hx. apply filter_In in Hx as [_ Hx].
  apply negb_true_iff in Hx. exact Hx.
Qed.

Lemma clear_table_witness :
  List.NoDup (List.map OutboxItem.id (Db.outbox Scenario.dbOrphan))
  /\ Db.outbox (OutboxManager.clear (Some "posts") Scenario.dbOrphan)
     = [Scenario.orphan]
  /\ OutboxManager.getDepth (Some "posts")
       (OutboxManager.clear (Some "posts") Scenario.dbOrphan)
     = 0%nat.
Proof.
  assert (Hnd : List.NoDup
                  (List.map OutboxItem.id (Db.outbox Scenario.dbOrphan))).
  { cbn. repeat constructor; cbn; intuition discriminate. }
  destruct (clear_table (Some "posts") Scenario.dbOrphan Hnd)
    as (Hrows & Hdepth & _).
  split; [exact Hnd|]. split; [|exact Hdepth].
  rewrite Hrows. reflexivity.
Defined.


(** ** Tracking a local change *)

Lemma existsb_eqb_In (x : string) (l : list string) :
  List.existsb (String.eqb x) l = true <-> In x l.
Proof.
  rewrite existsb_exists. split.
  - intros (y & Hy & E). apply String.eqb_eq in E. subst y. exact Hy.
  - intros H. exists x. split; [exact H | apply String.eqb_refl].
Qed.

(** X12.  [trackChange] is called by the hooks of a tracked table, inside the
    transaction of the write.  It does nothing for the tables [outbox],
    [checkpoints] and [deadLetters], and nothing when the outbox is not
    a table of that transaction: the rejection of [add] is logged and
    dropped, so that a write made outside [db.transaction], whose
    transaction has the written table alone, queues nothing.  When the
    outbox is in the transaction, a change of any other table appends
    one row to the outbox (the next id, [attempt] 0, [createdAt] now, no
    retry fields); the row is pending at once, at whatever time
    [getPending] is asked; and from then on [applyChanges] finds a
    pending change for every fetched record of that table with that
    key. *)
Theorem trackChange_queues :
  forall (transaction : list string) (now : Z) (table : string)
         (operation : Operation) (key : Key) (obj : option Row.t) (d : Db.t),
    (In table ChangeTracker.metadataTables ->
     ChangeTracker.trackChange transaction now table operation key obj d = d)
    /\ (~ In "outbox" transaction ->
        ChangeTracker.trackChange transaction now table operation key obj d
        = d)
    /\ ChangeTracker.trackChange [table] now table operation key obj d = d
    /\ (~ In table ChangeTracker.metadataTables ->
        In "outbox" transaction ->
        let d' :=
          ChangeTracker.trackChange transaction now table operation key obj d
        in
        let entry :=
          OutboxItem.mk (N.succ (Db.outboxKeyGen d)) table operation key obj
            0 now None None in
        Db.outbox d' = (Db.outbox d ++ [entry])%list
        /\ (forall t, In entry (OutboxManager.getPending t d'))
        /\ (forall remote,
              Row.id remote = key ->
              ChangeApplier.hasPendingChange table remote d' = true)).
Proof.
  intros transaction now table operation key obj d.
  unfold ChangeTracker.trackChange.
  split; [|split; [|split]].
  - intros Hin. apply existsb_eqb_In in Hin. rewrite Hin. reflexivity.
  - intros Hout.
    assert (List.existsb (String.eqb "outbox") transaction = false) as ->.
    { apply not_true_is_false. intros H. apply existsb_eqb_In in H.
      contradiction. }
    destruct (List.existsb _ _); reflexivity.
  - destruct (List.existsb (String.eqb table) ChangeTracker.metadataTables)
      eqn:Emeta; [reflexivity|].
    cbn [List.existsb]. rewrite orb_false_r.
    destruct (String.eqb "outbox" table) eqn:E; [|reflexivity].
    apply String.eqb_eq in E. subst table. discriminate Emeta.
  - intros Hnot Hin.
    assert (List.existsb (String.eqb table) ChangeTracker.metadataTables
            = false) as ->.
    { apply not_true_is_false. intros H. apply existsb_eqb_In in H.
      contradiction. }
    apply existsb_eqb_In in Hin. rewrite Hin.
    cbn zeta. split; [reflexivity|]. split.
    + intros t. apply filter_In. split; [|reflexivity].
      cbn. apply in_or_app. right. left. reflexivity.
    + intros remote Hid. unfold ChangeApplier.hasPendingChange.
      apply existsb_exists.
      exists (OutboxItem.mk (N.succ (Db.outboxKeyGen d)) table operation key
                obj 0 now None None).
      split.
      * apply getAll_In. split.
        -- cbn. apply in_or_app. right. left. reflexivity.
        -- unfold OutboxManager.given.
           destruct (String.eqb table ""); [exact I | reflexivity].
      * cbn. unfold Key_strict_eq. apply bool_decide_eq_true. congruence.
Qed.

Lemma trackChange_queues_witness :
  ~ In "posts" ChangeTracker.metadataTables
  /\ In "outbox" ["posts"; "outbox"]
  /\ ~ In "outbox" ["posts"]
  /\ Db.outbox
       (ChangeTracker.trackChange ["posts"; "outbox"] 50 "posts" update
          (KNum 1) (Some Sample.localRow) Sample.db1)
     = [Sample.item1;
        OutboxItem.mk 2 "posts" update (KNum 1) (Some Sample.localRow) 0 50
          None None]
  /\ ChangeTracker.trackChange ["posts"] 50 "posts" update (KNum 1)
       (Some Sample.localRow) Sample.db1
     = Sample.db1
  /\ ChangeTracker.trackChange ["outbox"] 50 "outbox" create (KNum 1) None
       Sample.db1
     = Sample.db1.
Proof.
  assert (Hposts : ~ In "posts" ChangeTracker.metadataTables).
  { cbn. intuition discriminate. }
  assert (Hin : In "outbox" ["posts"; "outbox"]).
  { right. left. reflexivity. }
  assert (Hout : ~ In "outbox" ["posts"]).
  { cbn. intuition discriminate. }
  split; [exact Hposts|]. split; [exact Hin|]. split; [exact Hout|].
  split; [|split].
  - apply (proj2 (proj2 (proj2
             (trackChange_queues ["posts"; "outbox"] 50 "posts" update
                (KNum 1) (Some Sample.localRow) Sample.db1))) Hposts Hin).
  - apply (proj1 (proj2
             (trackChange_queues ["posts"] 50 "posts" update (KNum 1)
                (Some Sample.localRow) Sample.db1)) Hout).
  - apply (proj1 (trackChange_queues ["outbox"] 50 "outbox" create (KNum 1)
                    None Sample.db1)).
    cbn. tauto.
Defined.

(** ** A rescheduled row waits for its time *)

(** X13.  A rescheduled row waits for its time.  After a retryable failure
    with attempts left, the outbox holds the row with
    [nextRetryAt = failure time + getRetryDelay(attempt)], and
    [getPending] at a time [later] returns it exactly when
    [nextRetryAt <= later] (or when [nextRetryAt] is 0, which the filter
    [!item.nextRetryAt] takes for unset). *)
Theorem rescheduled_row_waits :
  forall (config : SyncConfig.t) (env : Env.t) (d : Db.t)
         (result : PushResult.t) (item : OutboxItem.t) (error : Caught)
         (later : Z),
    RestAdapter.pushItem (SyncConfig.routes config) env item = Some error ->
    Z.of_N (OutboxItem.attempt item) < PushProcessor.getMaxRetries config ->
    Caught_retryable error = true ->
    Db.outbox_get (OutboxItem.id item) d = Some item ->
    let d' := fst (PushProcessor.pushItem config env (d, result) item) in
    let nextRetryAt :=
      Env.failure_time env item
      + PushProcessor.getRetryDelay config (OutboxItem.attempt item)
          (Env.random env item) in
    let row :=
      OutboxManager.retryChanges (OutboxItem.attempt item + 1)%N
        (Caught_message error) nextRetryAt item in
    In row (Db.outbox d')
    /\ (In row (OutboxManager.getPending later d')
        <-> nextRetryAt = 0 \/ nextRetryAt <= later).
Proof.
  intros config env d result item error later Hfail Hlt Hretry Hstored
    d' nextRetryAt row.
  assert (Hget : Db.outbox_get (OutboxItem.id item) d' = Some row).
  { apply pushItem_reschedules; assumption. }
  assert (Hin : In row (Db.outbox d')).
  { unfold Db.outbox_get in Hget. apply find_some in Hget as [H _]. exact H. }
  split; [exact Hin|].
  unfold OutboxManager.getPending. rewrite filter_In.
  unfold OutboxManager.isPending. cbn.
  rewrite orb_true_iff, Z.eqb_eq, Z.leb_le. tauto.
Qed.

Lemma rescheduled_row_waits_witness :
  RestAdapter.pushItem (SyncConfig.routes Sample.config) Sample.env
    Sample.item2 = Some (Classified Sample.serverDown)
  /\ Z.of_N (OutboxItem.attempt Sample.item2)
     < PushProcessor.getMaxRetries Sample.config
  /\ Caught_retryable (Classified Sample.serverDown) = true
  /\ Db.outbox_get (OutboxItem.id Sample.item2) Sample.db = Some Sample.item2
  /\ In (OutboxManager.retryChanges 1 "Server error" 1900 Sample.item2)
        (Db.outbox
           (fst (PushProcessor.pushItem Sample.config Sample.env
                   (Sample.db, PushProcessor.initial) Sample.item2))).
Proof.
  split; [reflexivity|]. split; [reflexivity|]. split; [reflexivity|].
  split; [reflexivity|].
  apply (proj1 (rescheduled_row_waits Sample.config Sample.env Sample.db
                  PushProcessor.initial Sample.item2
                  (Classified Sample.serverDown) 2000
                  eq_refl eq_refl eq_refl eq_refl)).
Defined.


(** ** What a conflicting pull writes *)

(** X14.  What a conflicting record does in [applyChanges].  When the fetched
    record has a pending change and a local copy and [detectConflict]
    reports a conflict, [conflicts] is incremented and one [conflict]
    event is emitted, with the two copies, their versions and their time
    stamps: the [getTime()] of [updatedAt] when it is truthy, undefined
    otherwise.  The table then gets the remote record under
    [server-wins], the local one under [client-wins], and under [lww]
    the local one when its time stamp is strictly the later and the
    remote one otherwise, a missing or [NaN] time stamp counting as 0.
    When a [custom] handler throws, the store and [applied] stay as they
    were. *)
Theorem applyChange_conflict :
  forall (config : SyncConfig.t) (env : Env.t) (table : string)
         (s : ChangeApplier.state) (item local : Row.t) (policy : string)
         (h : option (ConflictInfo.t -> Js.outcome Row.t)),
    ChangeApplier.hasPendingChange table item (ChangeApplier.db s) = true ->
    Db.get table (Row.id item) (ChangeApplier.db s) = Some local ->
    ConflictResolver.detectConflict (Env.Date_parse env) (Some local) item
      = true ->
    SyncConfig.conflicts config = Some (ConflictConfig.mk policy h) ->
    let s' := ChangeApplier.applyChange config env table s item in
    let time row :=
      if Js.truthy (Row.updatedAt row)
      then Some (Js.Date_getTime (Env.Date_parse env) (Row.updatedAt row))
      else None in
    let stamp row :=
      match time row with
      | Some (Js.Num n) => n
      | Some Js.NaN | None => 0
      end in
    let c :=
      ConflictInfo.mk table (Row.id item) local item (time local) (time item)
        (Row.version local) (Row.version item) in
    ChangeApplier.conflicts s' = (ChangeApplier.conflicts s + 1)%N
    /\ ChangeApplier.emitted s'
       = (ChangeApplier.emitted s ++ [conflict_event c])%list
    /\ (policy = "server-wins" ->
        ChangeApplier.db s' = Db.put table item (ChangeApplier.db s))
    /\ (policy = "client-wins" ->
        ChangeApplier.db s' = Db.put table local (ChangeApplier.db s))
    /\ (policy = "lww" ->
        ChangeApplier.db s'
        = Db.put table (if stamp item <? stamp local then local else item)
            (ChangeApplier.db s))
    /\ (forall f message,
          policy = "custom" -> h = Some f -> f c = Js.Thrown message ->
          ChangeApplier.db s' = ChangeApplier.db s
          /\ ChangeApplier.applied s' = ChangeApplier.applied s).
Proof.
  intros config env table s item local policy h Hp Hget Hdet Hcfg s' time
    stamp c.
  subst s'. unfold ChangeApplier.applyChange.
  rewrite Hp, Hget, Hcfg, Hdet.
  unfold ChangeApplier.resolveConflict, ConflictResolver.resolve.
  cbn [ConflictConfig.policy ConflictConfig.onConflict].
  change (ConflictInfo.mk table (Row.id item) local item
            (ChangeApplier.timestampOf (Env.Date_parse env)
               (Row.updatedAt local))
            (ChangeApplier.timestampOf (Env.Date_parse env)
               (Row.updatedAt item))
            (Row.version local) (Row.version item)) with c.
  split; [|split; [|split; [|split; [|split]]]].
  - destruct (String.eqb policy "custom"), h as [f|];
      try destruct (f c); reflexivity.
  - destruct (String.eqb policy "custom"), h as [f|];
      try destruct (f c); reflexivity.
  - intros ->. cbn. reflexivity.
  - intros ->. cbn. reflexivity.
  - intros ->. cbn. unfold Strategies.lastWriteWins. cbn.
    change (Strategies.orZero (time item)) with (stamp item).
    change (Strategies.orZero (time local)) with (stamp local).
    destruct (stamp item <? stamp local) eqn:E; [reflexivity|].
    destruct (stamp local <? stamp item); reflexivity.
  - intros f message -> -> Hf. cbn. rewrite Hf. split; reflexivity.
Qed.

Lemma applyChange_conflict_witness :
  ChangeApplier.hasPendingChange "posts" Scenario.staleRow Sample.db = true
  /\ Db.get "posts" (Row.id Scenario.staleRow) Sample.db
     = Some Sample.localRow
  /\ ConflictResolver.detectConflict (Env.Date_parse Sample.env)
       (Some Sample.localRow) Scenario.staleRow = true
  /\ ConflictResolver.detectConflict (Env.Date_parse Sample.env)
       (Some Sample.localRow) Sample.remoteRow = true
  /\ ChangeApplier.conflicts
       (ChangeApplier.applyChange Sample.config Sample.env "posts"
          (ChangeApplier.mkState Sample.db [] 0 0) Scenario.staleRow)
     = 1%N
  /\ ChangeApplier.db
       (ChangeApplier.applyChange Sample.config Sample.env "posts"
          (ChangeApplier.mkState Sample.db [] 0 0) Scenario.staleRow)
     = Db.put "posts" Sample.localRow Sample.db
  /\ ChangeApplier.db
       (ChangeApplier.applyChange Sample.config Sample.env "posts"
          (ChangeApplier.mkState Sample.db [] 0 0) Sample.remoteRow)
     = Db.put "posts" Sample.remoteRow Sample.db.
Proof.
  split; [reflexivity|]. split; [reflexivity|]. split; [reflexivity|].
  split; [reflexivity|].
  destruct (applyChange_conflict Sample.config Sample.env "posts"
              (ChangeApplier.mkState Sample.db [] 0 0) Scenario.staleRow
              Sample.localRow "lww" None eq_refl eq_refl eq_refl eq_refl)
    as (Hcount & _ & _ & _ & Hstale & _).
  destruct (applyChange_conflict Sample.config Sample.env "posts"
              (ChangeApplier.mkState Sample.db [] 0 0) Sample.remoteRow
              Sample.localRow "lww" None eq_refl eq_refl eq_refl eq_refl)
    as (_ & _ & _ & _ & Hnewer & _).
  split; [exact Hcount|]. split; [apply Hstale | apply Hnewer]; reflexivity.
Defined.

(** ** Detecting a conflict *)

Lemma number_strict_neq_sym (a b : Js.number) :
  Js.number_strict_neq a b = Js.number_strict_neq b a.
Proof.
  destruct a, b; cbn; try reflexivity. rewrite Z.eqb_sym. reflexivity.
Qed.

Lemma strict_neq_sym (v w : Js.value) :
  Js.strict_neq v w = Js.strict_neq w v.
Proof.
  destruct v, w; cbn; try reflexivity.
  - destruct b, b0; reflexivity.
  - apply number_strict_neq_sym.
  - rewrite String.eqb_sym. reflexivity.
Qed.

(** X15.  [detectConflict] does not depend on which record is the local one:
    for two records it gives the same answer either way round. *)
Theorem detectConflict_symmetric :
  forall (parse : string -> option Z) (l r : Row.t),
    ConflictResolver.detectConflict parse (Some l) r
    = ConflictResolver.detectConflict parse (Some r) l.
Proof.
  intros parse l r. unfold ConflictResolver.detectConflict.
  rewrite (andb_comm (Js.strict_neq (Row.version l) Js.Undefined)).
  rewrite (andb_comm (Js.truthy (Row.updatedAt l))).
  rewrite (strict_neq_sym (Row.version l) (Row.version r)).
  rewrite (number_strict_neq_sym (Js.Date_getTime parse (Row.updatedAt l))).
  reflexivity.
Qed.

(** X16.  A record and an identical copy of it are in no conflict exactly when
    the record has a version that is not [NaN], or has no version and a
    truthy [updatedAt] that is a date.  A record with neither conflicts
    with its own copy. *)
Theorem detectConflict_same_record :
  forall (parse : string -> option Z) (r : Row.t),
    ConflictResolver.detectConflict parse (Some r) r = false
    <-> (Row.version r <> Js.Undefined
         /\ Row.version r <> Js.Number Js.NaN)
        \/ (Row.version r = Js.Undefined
            /\ Js.truthy (Row.updatedAt r) = true
            /\ Js.Date_getTime parse (Row.updatedAt r) <> Js.NaN).
Proof.
  intros parse r. unfold ConflictResolver.detectConflict.
  destruct (Row.version r) as [| |b|[n|]|v] eqn:Ev; cbn.
  - destruct (Js.truthy (Row.updatedAt r)); cbn.
    + destruct (Js.Date_getTime parse (Row.updatedAt r)) as [n|]; cbn.
      * rewrite Z.eqb_refl. cbn. split; [intros _; right|reflexivity].
        repeat split; discriminate.
      * split; [discriminate|]. intros [[H _] | (_ & _ & H)]; congruence.
    + split; [discriminate|]. intros [[H _] | (_ & H & _)]; congruence.
  - split; [intros _; left; split; discriminate | reflexivity].
  - destruct b; cbn; (split; [intros _; left; split; discriminate
                             | reflexivity]).
  - rewrite Z.eqb_refl. cbn.
    split; [intros _; left; split; discriminate | reflexivity].
  - split; [discriminate|]. intros [[_ H] | (H & _)]; congruence.
  - rewrite String.eqb_refl. cbn.
    split; [intros _; left; split; discriminate | reflexivity].
Qed.

(** ** The backoff grows with the attempt *)

Lemma delay_mono (n m : N) (maxDelay : Z) :
  (n <= m)%N -> Backoff.delay n maxDelay <= Backoff.delay m maxDelay.
Proof.
  intros H. unfold Backoff.delay.
  apply Z.min_le_compat_r. apply Z.mul_le_mono_nonneg_l; [lia|].
  apply Z.pow_le_mono_r; lia.
Qed.

(** X17.  The backoff grows with the attempt: at the same draw of
    [Math.random()] a later attempt never waits less, whatever
    [maxDelay]. *)
Theorem calculateBackoff_monotone :
  forall (n m : N) (maxDelay : Z) (r : Q),
    (0 <= r)%Q -> (n <= m)%N ->
    Backoff.calculateBackoff n maxDelay r
    <= Backoff.calculateBackoff m maxDelay r.
Proof.
  intros n m maxDelay r Hr Hnm. unfold Backoff.calculateBackoff.
  apply Qfloor_resp_le.
  pose proof (delay_mono n m maxDelay Hnm) as Hd.
  rewrite Zle_Qle in Hd.
  set (a := inject_Z (Backoff.delay n maxDelay)) in *.
  set (b := inject_Z (Backoff.delay m maxDelay)) in *.
  assert (E : forall x : Q,
             (x + x * (2 # 10) * (r - (1 # 2)) == x * ((9 # 10) + (2 # 10) * r))%Q)
    by (intros; ring).
  rewrite !E. apply Qmult_le_compat_r; [exact Hd | lra].
Qed.

Lemma calculateBackoff_monotone_witness :
  (0 <= 1 # 2)%Q /\ (1 <= 2)%N
  /\ Backoff.calculateBackoff 1 Backoff.defaultMaxDelay (1 # 2)
     <= Backoff.calculateBackoff 2 Backoff.defaultMaxDelay (1 # 2).
Proof.
  split; [discriminate|]. split; [discriminate|].
  apply (calculateBackoff_monotone 1 2 Backoff.defaultMaxDelay (1 # 2));
    discriminate.
Defined.

(** X18.  From attempt 6 on the delay is at its ceiling: [1000 * 2^6] is
    beyond the 60000 ms of [maxDelay], so every later attempt waits what
    attempt 6 waits at the same draw. *)
Theorem defaultRetryDelay_ceiling :
  forall (n : N) (r : Q),
    (6 <= n)%N ->
    Backoff.defaultRetryDelay n r = Backoff.defaultRetryDelay 6 r.
Proof.
  intros n r Hn. unfold Backoff.defaultRetryDelay, Backoff.calculateBackoff.
  assert (E : Backoff.delay n Backoff.defaultMaxDelay
              = Backoff.delay 6 Backoff.defaultMaxDelay).
  { unfold Backoff.delay, Backoff.defaultMaxDelay.
    assert (2 ^ 6 <= 2 ^ Z.of_N n) by (apply Z.pow_le_mono_r; lia).
    change (2 ^ 6) with 64 in H. change (2 ^ Z.of_N 6) with 64.
    rewrite !Z.min_r; lia. }
  rewrite E. reflexivity.
Qed.

Lemma defaultRetryDelay_ceiling_witness :
  (6 <= 9)%N
  /\ Backoff.defaultRetryDelay 9 (1 # 2) = Backoff.defaultRetryDelay 6 (1 # 2).
Proof.
  split; [discriminate|].
  apply (defaultRetryDelay_ceiling 9 (1 # 2)). discriminate.
Defined.


(** ** The events of a pull *)

Lemma applyChange_events config env table s item :
  exists evs,
    ChangeApplier.emitted (ChangeApplier.applyChange config env table s item)
    = (ChangeApplier.emitted s ++ evs)%list
    /\ Forall ChangeApplier.isConflictEvent evs
    /\ (ChangeApplier.conflicts
          (ChangeApplier.applyChange config env table s item)
        = ChangeApplier.conflicts s + N.of_nat (length evs))%N.
Proof.
  unfold ChangeApplier.applyChange.
  destruct (ChangeApplier.hasPendingChange _ _ _);
    [|exists []; cbn; rewrite app_nil_r; repeat split; try constructor; try lia].
  destruct (Db.get _ _ _) as [local|];
    [|exists []; cbn; rewrite app_nil_r; repeat split; try constructor; try lia].
  destruct (SyncConfig.conflicts config) as [rc|];
    [|exists []; cbn; rewrite app_nil_r; repeat split; try constructor; try lia].
  destruct (ConflictResolver.detectConflict _ _ _);
    [|exists []; cbn; rewrite app_nil_r; repeat split; try constructor; try lia].
  unfold ChangeApplier.resolveConflict, ConflictResolver.resolve.
  match goal with
  | |- context [conflict_event ?c] => exists [conflict_event c]
  end.
  destruct (String.eqb (ConflictConfig.policy rc) "custom");
    destruct (ConflictConfig.onConflict rc) as [f|];
    try match goal with
        | |- context [f ?c] => destruct (f c)
        end;
    cbn; (split; [reflexivity|]);
    (split; [repeat constructor; eexists; reflexivity | lia]).
Qed.

Lemma applyChange_fold_events config env table items :
  forall s,
    exists evs,
      ChangeApplier.emitted
        (fold_left (ChangeApplier.applyChange config env table) items s)
      = (ChangeApplier.emitted s ++ evs)%list
      /\ Forall ChangeApplier.isConflictEvent evs
      /\ (ChangeApplier.conflicts
            (fold_left (ChangeApplier.applyChange config env table) items s)
          = ChangeApplier.conflicts s + N.of_nat (length evs))%N.
Proof.
  induction items as [|item items IH]; intros s; cbn [fold_left].
  - exists []. rewrite app_nil_r. cbn. repeat split; try constructor; try lia.
  - destruct (applyChange_events config env table s item)
      as (evs1 & E1 & F1 & C1).
    destruct (IH (ChangeApplier.applyChange config env table s item))
      as (evs2 & E2 & F2 & C2).
    exists (evs1 ++ evs2)%list. rewrite E2, E1, C2, C1, <- app_assoc.
    repeat split.
    + apply Forall_app. split; assumption.
    + rewrite length_app. lia.
Qed.

Lemma pullTable_events config env s name :
  exists evs,
    PullProcessor.emitted (PullProcessor.pullTable config env s name)
    = (PullProcessor.emitted s ++ evs)%list
    /\ Forall ChangeApplier.isConflictEvent evs
    /\ (PullResult.conflicts
          (PullProcessor.result (PullProcessor.pullTable config env s name))
        = PullResult.conflicts (PullProcessor.result s)
          + N.of_nat (length evs))%N.
Proof.
  unfold PullProcessor.pullTable.
  destruct (RestAdapter.pull _ _ _) as [items|e];
    [|exists []; cbn; rewrite app_nil_r; repeat split; try constructor; try lia].
  unfold ChangeApplier.applyChanges.
  destruct (Db.tables _ !! _);
    [|exists []; cbn; rewrite app_nil_r; repeat split; try constructor; try lia].
  destruct (applyChange_fold_events config env name items
              (ChangeApplier.mkState (PullProcessor.db s)
                 (PullProcessor.emitted s) 0 0)) as (evs & E & F & C).
  exists evs. cbn in E, C |- *. rewrite E, C. repeat split; try exact F; try lia.
Qed.

Lemma pull_events config env table d log :
  exists evs,
    PullProcessor.emitted (PullProcessor.pull config env table d log)
    = (log ++ evs)%list
    /\ Forall ChangeApplier.isConflictEvent evs
    /\ PullResult.conflicts
         (PullProcessor.result (PullProcessor.pull config env table d log))
       = N.of_nat (length evs).
Proof.
  rewrite pull_unfold. cbn zeta.
  cbn [PullProcessor.emitted PullProcessor.result PullProcessor.finish
         PullResult.conflicts].
  assert (G : forall names s,
             exists evs,
               PullProcessor.emitted
                 (fold_left (PullProcessor.pullTable config env) names s)
               = (PullProcessor.emitted s ++ evs)%list
               /\ Forall ChangeApplier.isConflictEvent evs
               /\ (PullResult.conflicts
                     (PullProcessor.result
                        (fold_left (PullProcessor.pullTable config env)
                           names s))
                   = PullResult.conflicts (PullProcessor.result s)
                     + N.of_nat (length evs))%N).
  { induction names as [|name names IH]; intros s; cbn [fold_left].
    - exists []. rewrite app_nil_r. cbn. repeat split; try constructor; try lia.
    - destruct (pullTable_events config env s name)
        as (evs1 & E1 & F1 & C1).
      destruct (IH (PullProcessor.pullTable config env s name))
        as (evs2 & E2 & F2 & C2).
      exists (evs1 ++ evs2)%list. rewrite E2, E1, C2, C1, <- app_assoc.
      repeat split.
      + apply Forall_app. split; assumption.
      + rewrite length_app. lia. }
  destruct (G (PullProcessor.selectedTables config table)
              (PullProcessor.mkState d log PullProcessor.initial))
    as (evs & E & F & C).
  exists evs. cbn in E, C. rewrite E, C. repeat split; try exact F; try lia.
Qed.

(** ** One cycle of [sync()] *)

(** X19.  One cycle of [sync()].  A call that passes the guards returns
    [{success: push.success && pull.success, push, pull}], where the pull
    ran on the store the push left.  Afterwards the syncing flag is
    cleared and [syncCount] is one more.  The events emitted are, in
    this order: [sync-start], [push-start], [push-complete],
    [push-error] if the push failed, [pull-start], one [conflict] event
    for each conflict counted, [pull-complete], [pull-error] if the pull
    failed, [sync-complete]. *)
Theorem sync_cycle_trace :
  forall (env : Env.t) (e : SyncEngine.t),
    SyncEngine.onlineStatus e = true ->
    SyncEngine.isPausedFlag e = false ->
    SyncEngine.isSyncingFlag e = false ->
    let pushed :=
      PushProcessor.push (SyncEngine.config e) env None (SyncEngine.db e) in
    let pulled :=
      PullProcessor.pull (SyncEngine.config e) env None (fst pushed)
        (SyncEngine.emitted e
         ++ [sync_start; push_start; push_complete]
         ++ (if PushResult.success (snd pushed) then [] else [push_error])
         ++ [pull_start])%list in
    let pullResult := PullProcessor.result pulled in
    let e' := snd (SyncEngine.sync env e) in
    fst (SyncEngine.sync env e)
    = Js.Returned
        (SyncResult.mk
           (PushResult.success (snd pushed) && PullResult.success pullResult)
           (snd pushed) pullResult)
    /\ SyncEngine.db e' = PullProcessor.db pulled
    /\ SyncEngine.isSyncingFlag e' = false
    /\ SyncEngine.syncCount e' = (SyncEngine.syncCount e + 1)%N
    /\ exists conflicts,
         Forall ChangeApplier.isConflictEvent conflicts
         /\ length conflicts = N.to_nat (PullResult.conflicts pullResult)
         /\ SyncEngine.emitted e'
            = (SyncEngine.emitted e
               ++ [sync_start; push_start; push_complete]
               ++ (if PushResult.success (snd pushed) then []
                   else [push_error])
               ++ [pull_start] ++ conflicts ++ [pull_complete]
               ++ (if PullResult.success pullResult then []
                   else [pull_error])
               ++ [sync_complete])%list.
Proof.
  intros env e Hon Hp Hs. cbv zeta.
  unfold SyncEngine.sync, SyncEngine.sync_guard.
  rewrite Hon, Hp, Hs. cbn [negb].
  unfold SyncEngine.sync_cycle, SyncEngine.push, SyncEngine.pull.
  cbn [SyncEngine.config SyncEngine.db SyncEngine.emit SyncEngine.sync_enter
         SyncEngine.with_isSyncingFlag SyncEngine.with_emitted
         SyncEngine.emitted].
  destruct (PushProcessor.push (SyncEngine.config e) env None (SyncEngine.db e))
    as [d1 pushResult].
  cbn [fst snd].
  destruct (PushResult.success pushResult);
    cbn [SyncEngine.config SyncEngine.db SyncEngine.emit SyncEngine.sync_enter
           SyncEngine.with_isSyncingFlag SyncEngine.with_emitted
           SyncEngine.emitted SyncEngine.recordPush SyncEngine.with_counts
           SyncEngine.with_db fst snd];
    rewrite <- !app_assoc; cbn [app];
    match goal with
    | |- context [PullProcessor.pull ?c ?en ?t ?d ?l] =>
        destruct (pull_events c en t d l) as (conflicts & Eev & Fev & Cev);
        set (pulled := PullProcessor.pull c en t d l) in *;
        clearbody pulled
    end;
    destruct (PullResult.success (PullProcessor.result pulled));
    cbn;
    (split; [reflexivity|]); (split; [reflexivity|]);
    (split; [reflexivity|]); (split; [reflexivity|]);
    exists conflicts; (split; [exact Fev|]); (split; [lia|]);
    rewrite Eev, <- ?app_assoc; reflexivity.
Qed.

Lemma sync_cycle_trace_witness :
  SyncEngine.onlineStatus Sample.engine = true
  /\ SyncEngine.isPausedFlag Sample.engine = false
  /\ SyncEngine.isSyncingFlag Sample.engine = false
  /\ SyncEngine.isSyncingFlag (snd (SyncEngine.sync Sample.env Sample.engine))
     = false
  /\ SyncEngine.syncCount (snd (SyncEngine.sync Sample.env Sample.engine))
     = 1%N.
Proof.
  split; [reflexivity|]. split; [reflexivity|]. split; [reflexivity|].
  destruct (sync_cycle_trace Sample.env Sample.engine eq_refl eq_refl eq_refl)
    as (_ & _ & Hflag & Hcount & _).
  split; [exact Hflag | exact Hcount].
Defined.


(** ** Pausing, resuming, stopping *)

Lemma sync_returns (env : Env.t) (e : SyncEngine.t) :
  SyncEngine.sync_guard e = None ->
  exists result e',
    SyncEngine.sync env e = (Js.Returned result, e')
    /\ SyncEngine.isSyncingFlag e' = false
    /\ SyncEngine.isPausedFlag e' = SyncEngine.isPausedFlag e
    /\ SyncEngine.syncInterval e' = SyncEngine.syncInterval e
    /\ SyncEngine.isRunning e' = SyncEngine.isRunning e
    /\ SyncEngine.leader e' = SyncEngine.leader e
    /\ SyncEngine.onlineStatus e' = SyncEngine.onlineStatus e
    /\ SyncEngine.pausedTables e' = SyncEngine.pausedTables e
    /\ SyncEngine.syncCount e' = (SyncEngine.syncCount e + 1)%N.
Proof.
  intros Hg. unfold SyncEngine.sync. rewrite Hg.
  unfold SyncEngine.sync_cycle, SyncEngine.push, SyncEngine.pull.
  destruct (PushProcessor.push _ _ _ _) as [d1 pushResult].
  do 2 eexists. split; [reflexivity|].
  repeat match goal with
         | |- context [if ?b then _ else _] => destruct b
         end; cbn; repeat split.
Qed.

Lemma sync_guard_cases (e : SyncEngine.t) :
  SyncEngine.sync_guard e
  = if negb (SyncEngine.onlineStatus e) then Some "Cannot sync while offline"
    else if SyncEngine.isPausedFlag e then Some "Sync is paused"
    else if SyncEngine.isSyncingFlag e then Some "Sync already in progress"
    else None.
Proof. reflexivity. Qed.

(** X20.  After [pause()] the periodic timer is off and the store untouched; a
    timer callback that still runs does nothing; [sync()] on the online
    engine throws ["Sync is paused"]; and [resume()] on an engine that is
    not running, or not the leader, only clears the flag: it neither
    arms the timer nor syncs. *)
Theorem pause_holds_the_engine :
  forall (env : Env.t) (e : SyncEngine.t),
    let p := SyncEngine.pause e in
    SyncEngine.syncInterval p = false
    /\ SyncEngine.db p = SyncEngine.db e
    /\ SyncEngine.intervalTick env p = p
    /\ (SyncEngine.onlineStatus e = true ->
        SyncEngine.sync env p = (Js.Thrown "Sync is paused", p))
    /\ (SyncEngine.isRunning e && SyncEngine.leader e = false ->
        SyncEngine.resume env p
        = (Js.Returned tt,
           SyncEngine.with_isPausedFlag false (SyncEngine.pause e))).
Proof.
  intros env e p. subst p. repeat split.
  - intros Hon. unfold SyncEngine.sync, SyncEngine.sync_guard. cbn.
    rewrite Hon. reflexivity.
  - intros Hf. unfold SyncEngine.resume. cbn. rewrite Hf. reflexivity.
Qed.

(** X21.  [resume()] on a running leader that is not syncing clears the paused
    flag, arms the timer exactly when [sync.interval] is positive, and
    runs one [sync()]: online it returns and [syncCount] is one more;
    offline it is [resume()] itself that throws
    ["Cannot sync while offline"], and nothing is counted. *)
Theorem resume_runs_a_sync :
  forall (env : Env.t) (e : SyncEngine.t),
    SyncEngine.isRunning e = true ->
    SyncEngine.leader e = true ->
    SyncEngine.isSyncingFlag e = false ->
    let armed :=
      match SyncConfig.interval (SyncEngine.config e) with
      | Some interval => 0 <? interval
      | None => false
      end in
    let e' := snd (SyncEngine.resume env e) in
    SyncEngine.isPausedFlag e' = false
    /\ SyncEngine.syncInterval e' = armed
    /\ (SyncEngine.onlineStatus e = true ->
        fst (SyncEngine.resume env e) = Js.Returned tt
        /\ SyncEngine.syncCount e' = (SyncEngine.syncCount e + 1)%N)
    /\ (SyncEngine.onlineStatus e = false ->
        fst (SyncEngine.resume env e) = Js.Thrown "Cannot sync while offline"
        /\ SyncEngine.syncCount e' = SyncEngine.syncCount e).
Proof.
  intros env e Hrun Hlead Hsync armed e'. subst e'.
  unfold SyncEngine.resume. cbn [SyncEngine.isRunning SyncEngine.leader
                                   SyncEngine.with_isPausedFlag].
  rewrite Hrun, Hlead. cbn [andb].
  set (e1 := SyncEngine.startSyncInterval
               (SyncEngine.with_isPausedFlag false e)).
  assert (H1 : SyncEngine.isPausedFlag e1 = false
               /\ SyncEngine.syncInterval e1 = armed
               /\ SyncEngine.isSyncingFlag e1 = false
               /\ SyncEngine.onlineStatus e1 = SyncEngine.onlineStatus e
               /\ SyncEngine.syncCount e1 = SyncEngine.syncCount e).
  { subst e1 armed. unfold SyncEngine.startSyncInterval. cbn.
    destruct (SyncConfig.interval (SyncEngine.config e)) as [i|]; cbn;
      [destruct (0 <? i); cbn|]; repeat split; exact Hsync. }
  destruct H1 as (Hp1 & Hi1 & Hs1 & Ho1 & Hc1).
  destruct (SyncEngine.onlineStatus e) eqn:Hon.
  - destruct (sync_returns env e1)
      as (result & e2 & E & _ & Hp2 & Hi2 & _ & _ & _ & _ & Hc2).
    { rewrite sync_guard_cases, Ho1, Hp1, Hs1. reflexivity. }
    rewrite E. cbn [fst snd].
    repeat split; congruence.
  - assert (E : SyncEngine.sync env e1
                = (Js.Thrown "Cannot sync while offline", e1)).
    { unfold SyncEngine.sync. rewrite sync_guard_cases, Ho1. reflexivity. }
    rewrite E. cbn [fst snd].
    repeat split; congruence.
Qed.

Lemma resume_runs_a_sync_witness :
  SyncEngine.isRunning Scenario.leading = true
  /\ SyncEngine.leader Scenario.leading = true
  /\ SyncEngine.isSyncingFlag Scenario.leading = false
  /\ SyncEngine.onlineStatus Scenario.leading = true
  /\ fst (SyncEngine.resume Sample.env (SyncEngine.pause Scenario.leading))
     = Js.Returned tt
  /\ SyncEngine.syncCount
       (snd (SyncEngine.resume Sample.env (SyncEngine.pause Scenario.leading)))
     = 1%N.
Proof.
  split; [reflexivity|]. split; [reflexivity|]. split; [reflexivity|].
  split; [reflexivity|].
  destruct (resume_runs_a_sync Sample.env (SyncEngine.pause Scenario.leading)
              eq_refl eq_refl eq_refl)
    as (_ & _ & Honline & _).
  apply Honline. reflexivity.
Defined.


(** ** What the manual triggers do not look at *)

Lemma applyChange_log config env table (s s' : ChangeApplier.state) item :
  ChangeApplier.db s = ChangeApplier.db s' ->
  ChangeApplier.applied s = ChangeApplier.applied s' ->
  ChangeApplier.conflicts s = ChangeApplier.conflicts s' ->
  let t := ChangeApplier.applyChange config env table s item in
  let t' := ChangeApplier.applyChange config env table s' item in
  ChangeApplier.db t = ChangeApplier.db t'
  /\ ChangeApplier.applied t = ChangeApplier.applied t'
  /\ ChangeApplier.conflicts t = ChangeApplier.conflicts t'.
Proof.
  intros Hd Ha Hc. unfold ChangeApplier.applyChange.
  rewrite <- Hd, <- Ha, <- Hc.
  repeat (match goal with
          | |- context [if ?b then _ else _] => destruct b
          | |- context [match ?x with _ => _ end] => destruct x
          end; cbn); repeat split.
Qed.

Lemma applyChange_fold_log config env table items :
  forall s s' : ChangeApplier.state,
    ChangeApplier.db s = ChangeApplier.db s' ->
    ChangeApplier.applied s = ChangeApplier.applied s' ->
    ChangeApplier.conflicts s = ChangeApplier.conflicts s' ->
    let t := fold_left (ChangeApplier.applyChange config env table) items s in
    let t' := fold_left (ChangeApplier.applyChange config env table) items s' in
    ChangeApplier.db t = ChangeApplier.db t'
    /\ ChangeApplier.applied t = ChangeApplier.applied t'
    /\ ChangeApplier.conflicts t = ChangeApplier.conflicts t'.
Proof.
  induction items as [|item items IH]; intros s s' Hd Ha Hc; cbn [fold_left].
  - cbn. auto.
  - destruct (applyChange_log config env table s s' item Hd Ha Hc)
      as (Hd1 & Ha1 & Hc1).
    apply IH; assumption.
Qed.

Lemma pullTable_log config env (s s' : PullProcessor.state) name :
  PullProcessor.db s = PullProcessor.db s' ->
  PullProcessor.result s = PullProcessor.result s' ->
  PullProcessor.db (PullProcessor.pullTable config env s name)
  = PullProcessor.db (PullProcessor.pullTable config env s' name)
  /\ PullProcessor.result (PullProcessor.pullTable config env s name)
     = PullProcessor.result (PullProcessor.pullTable config env s' name).
Proof.
  intros Hd Hr. unfold PullProcessor.pullTable. rewrite <- Hd, <- Hr.
  destruct (RestAdapter.pull _ _ _) as [items|e]; [|split; reflexivity].
  unfold ChangeApplier.applyChanges.
  destruct (Db.tables _ !! _); [|split; reflexivity].
  destruct (applyChange_fold_log config env name items
              (ChangeApplier.mkState (PullProcessor.db s)
                 (PullProcessor.emitted s) 0 0)
              (ChangeApplier.mkState (PullProcessor.db s)
                 (PullProcessor.emitted s') 0 0) eq_refl eq_refl eq_refl)
    as (Hd1 & Ha1 & Hc1).
  cbn. rewrite Hd1, Ha1, Hc1. split; reflexivity.
Qed.

Lemma pull_log config env table d (log log' : list SyncEvent) :
  PullProcessor.db (PullProcessor.pull config env table d log)
  = PullProcessor.db (PullProcessor.pull config env table d log')
  /\ PullProcessor.result (PullProcessor.pull config env table d log)
     = PullProcessor.result (PullProcessor.pull config env table d log').
Proof.
  rewrite !pull_unfold. cbn zeta. cbn [PullProcessor.db PullProcessor.result].
  assert (G : forall names s s',
             PullProcessor.db s = PullProcessor.db s' ->
             PullProcessor.result s = PullProcessor.result s' ->
             PullProcessor.db
               (fold_left (PullProcessor.pullTable config env) names s)
             = PullProcessor.db
                 (fold_left (PullProcessor.pullTable config env) names s')
             /\ PullProcessor.result
                  (fold_left (PullProcessor.pullTable config env) names s)
                = PullProcessor.result
                    (fold_left (PullProcessor.pullTable config env) names s')).
  { induction names as [|name names IH]; intros s s' Hd Hr; cbn [fold_left].
    - auto.
    - destruct (pullTable_log config env s s' name Hd Hr) as [Hd1 Hr1].
      apply IH; assumption. }
  destruct (G (PullProcessor.selectedTables config table)
              (PullProcessor.mkState d log PullProcessor.initial)
              (PullProcessor.mkState d log' PullProcessor.initial)
              eq_refl eq_refl) as [Hd Hr].
  rewrite Hd, Hr. split; reflexivity.
Qed.

(** X22.  [syncTable(table)], with the [push] and [pull] it calls, reads none
    of the guards of [sync()].  Two engines with the same configuration
    and store, whatever their online, paused, syncing, running and
    leader flags and their paused tables, return the same result and end
    with the same store: [pull(table)] applied to what [push(table)]
    left. *)
Theorem manual_triggers_are_not_guarded :
  forall (env : Env.t) (table : string) (e e' : SyncEngine.t),
    SyncEngine.config e = SyncEngine.config e' ->
    SyncEngine.db e = SyncEngine.db e' ->
    fst (SyncEngine.syncTable env table e)
    = fst (SyncEngine.syncTable env table e')
    /\ SyncEngine.db (snd (SyncEngine.syncTable env table e))
       = SyncEngine.db (snd (SyncEngine.syncTable env table e'))
    /\ SyncEngine.db (snd (SyncEngine.syncTable env table e))
       = PullProcessor.db
           (PullProcessor.pull (SyncEngine.config e) env (Some table)
              (fst (PushProcessor.push (SyncEngine.config e) env (Some table)
                      (SyncEngine.db e)))
              (SyncEngine.emitted e)).
Proof.
  intros env table e e' Hc Hd.
  unfold SyncEngine.syncTable, SyncEngine.push, SyncEngine.pull.
  rewrite <- Hc, <- Hd.
  destruct (PushProcessor.push (SyncEngine.config e) env (Some table)
              (SyncEngine.db e)) as [d1 pushResult].
  cbn [fst snd SyncEngine.db SyncEngine.config SyncEngine.emitted
         SyncEngine.with_db SyncEngine.with_emitted SyncResult.success].
  rewrite <- ?Hc.
  destruct (pull_log (SyncEngine.config e) env (Some table) d1
              (SyncEngine.emitted e) (SyncEngine.emitted e')) as [Hd1 Hr1].
  rewrite Hr1, Hd1. repeat split.
Qed.

Lemma manual_triggers_are_not_guarded_witness :
  SyncEngine.config Sample.engine
  = SyncEngine.config (SyncEngine.pause Sample.engine)
  /\ SyncEngine.db Sample.engine = SyncEngine.db (SyncEngine.pause Sample.engine)
  /\ SyncEngine.isPausedFlag (SyncEngine.pause Sample.engine) = true
  /\ fst (SyncEngine.syncTable Sample.env "posts" Sample.engine)
     = fst (SyncEngine.syncTable Sample.env "posts"
              (SyncEngine.pause Sample.engine)).
Proof.
  split; [reflexivity|]. split; [reflexivity|]. split; [reflexivity|].
  apply (proj1 (manual_triggers_are_not_guarded Sample.env "posts"
                  Sample.engine (SyncEngine.pause Sample.engine)
                  eq_refl eq_refl)).
Defined.


(** ** An election always ends with a leader *)

Lemma onmessage_keeps_election (now : Z) (me : LeaderElection.t)
    (m : LeaderElection.Message.t) :
  LeaderElection.electionTimeout (fst (LeaderElection.onmessage now me m))
  = LeaderElection.electionTimeout me
  /\ LeaderElection.tabId (fst (LeaderElection.onmessage now me m))
     = LeaderElection.tabId me.
Proof.
  unfold LeaderElection.onmessage.
  destruct (LeaderElection.Message.type m); cbn;
    repeat match goal with
           | |- context [if ?b then _ else _] => destruct b
           end; cbn; split; reflexivity.
Qed.

Lemma dispatch_keeps_election (now : Z) (ms : list LeaderElection.Message.t) :
  forall me,
    LeaderElection.electionTimeout (LeaderElection.dispatch now me ms)
    = LeaderElection.electionTimeout me
    /\ LeaderElection.tabId (LeaderElection.dispatch now me ms)
       = LeaderElection.tabId me.
Proof.
  unfold LeaderElection.dispatch.
  induction ms as [|m ms IH]; intros me; cbn [fold_left]; [split; reflexivity|].
  destruct (IH (fst (LeaderElection.onmessage now me m))) as [H1 H2].
  destruct (onmessage_keeps_election now me m) as [H3 H4].
  split; congruence.
Qed.

(** X23.  An election always ends with a leader.  Whatever messages the
    instance is sent between its call of [electLeader()] and the
    callback of the timer, 100 ms later (earlier responses of other
    tabs, announcements, heartbeats), the callback makes it leader,
    posts its announcement and starts the heartbeat: no message clears
    the time stamp the callback tests ([asked], taken other than 0). *)
Theorem electLeader_always_wins :
  forall (asked now : Z) (me : LeaderElection.t)
         (ms : list LeaderElection.Message.t),
    asked <> 0 ->
    let candidate := fst (LeaderElection.electLeader_request asked me) in
    let heard := LeaderElection.dispatch now candidate ms in
    let '(elected, posted) := LeaderElection.electLeader_timeout heard in
    LeaderElection.isLeader elected = true
    /\ posted = [LeaderElection.announcement (LeaderElection.tabId me)]
    /\ LeaderElection.heartbeatInterval elected = true.
Proof.
  intros asked now me ms Hasked candidate heard.
  destruct (dispatch_keeps_election now ms candidate) as [Ht Hid].
  fold heard in Ht, Hid. cbn in Ht, Hid.
  unfold LeaderElection.electLeader_timeout. rewrite Ht.
  apply Z.eqb_neq in Hasked. rewrite Hasked. cbn. rewrite Hid.
  repeat split.
Qed.

Lemma electLeader_always_wins_witness :
  1000 <> 0
  /\ LeaderElection.isLeader
       (fst (LeaderElection.electLeader_timeout
               (LeaderElection.dispatch 1050
                  (fst (LeaderElection.electLeader_request 1000
                          (LeaderElection.create "tab-b")))
                  [LeaderElection.Message.mk LeaderElection.election_response
                     "tab-a" (Some 900)])))
     = true.
Proof.
  assert (Hasked : 1000 <> 0) by discriminate.
  split; [exact Hasked|].
  pose proof (electLeader_always_wins 1000 1050
                (LeaderElection.create "tab-b")
                [LeaderElection.Message.mk LeaderElection.election_response
                   "tab-a" (Some 900)] Hasked) as H.
  cbv zeta in H.
  match type of H with
  | (let '(_, _) := ?X in _) =>
      change (LeaderElection.isLeader (fst X) = true); destruct X
  end.
  apply H.
Defined.


(** ** An election that no other election overlaps *)

Lemma lookup_postMessages (from i : nat) (ms : list LeaderElection.Message.t)
    (l : list LeaderElection.tab) :
  LeaderElection.postMessages from ms l !! i
  = (fun x =>
       if Nat.eqb i from then x
       else LeaderElection.mkTab (LeaderElection.instance x)
              (LeaderElection.inbox x ++ ms)
              (LeaderElection.electionTimer x))
      <$> (l !! i).
Proof. unfold LeaderElection.postMessages. apply list_lookup_imap. Qed.

Lemma announced_step (j : nat) (idj : string) (a : LeaderElection.action)
    (n n' : LeaderElection.net) :
  LeaderElection.is_Deliver_or_Tick a = true ->
  LeaderElection.announced j idj n ->
  LeaderElection.step a n = Some n' ->
  LeaderElection.announced j idj n'.
Proof.
  intros Ha Hinv Hstep.
  destruct a as [k|k|k|k|d]; cbn in Ha; try discriminate; cbn in Hstep.
  - destruct (LeaderElection.tabs n !! k) as [x|] eqn:Ek; [|discriminate].
    cbn in Hstep.
    destruct (Hinv k x Ek) as [Htimer Hk].
    destruct (Nat.eqb k j) eqn:Ekj.
    { destruct Hk as (_ & _ & Hin). rewrite Hin in Hstep. discriminate. }
    destruct Hk as (Hne & [Hin | [Hin _]]);
      [|rewrite Hin in Hstep; discriminate].
    rewrite Hin in Hstep.
    unfold LeaderElection.onmessage in Hstep. cbn in Hstep.
    assert (Hother : String.eqb idj (LeaderElection.tabId (LeaderElection.instance x))
                     = false).
    { apply String.eqb_neq. congruence. }
    rewrite Hother in Hstep. cbn in Hstep.
    injection Hstep as <-. rewrite postMessages_nil.
    intros i y Hy. cbn in Hy.
    destruct (Nat.eq_dec i k) as [-> | Hik].
    + rewrite list_lookup_insert_eq in Hy
        by (apply lookup_lt_is_Some; eauto).
      injection Hy as <-. cbn. rewrite Ekj. cbn.
      split; [exact Htimer|]. split; [exact Hne|]. right. split; reflexivity.
    + rewrite list_lookup_insert_ne in Hy by congruence.
      exact (Hinv i y Hy).
  - destruct (0 <=? d); [|discriminate]. injection Hstep as <-.
    exact Hinv.
Qed.

Lemma announced_run (j : nat) (idj : string)
    (schedule : list LeaderElection.action) :
  forallb LeaderElection.is_Deliver_or_Tick schedule = true ->
  forall n n',
    LeaderElection.announced j idj n ->
    LeaderElection.run schedule n = Some n' ->
    LeaderElection.announced j idj n'.
Proof.
  induction schedule as [|a schedule IH]; intros Hs n n' Hinv Hrun.
  - injection Hrun as <-. exact Hinv.
  - cbn in Hs. apply andb_true_iff in Hs as [Ha Hs]. cbn in Hrun.
    destruct (LeaderElection.step a n) as [n1|] eqn:E; [|discriminate].
    cbn in Hrun. apply (IH Hs n1 n'); [|exact Hrun].
    apply (announced_step j idj a n n1 Ha Hinv E).
Qed.

Lemma filter_single {A : Type} (p : A -> bool) (l : list A) (j : nat) (x : A) :
  l !! j = Some x ->
  p x = true ->
  (forall i y, i <> j -> l !! i = Some y -> p y = false) ->
  List.filter p l = [x].
Proof.
  revert j. induction l as [|z l IH]; intros j Hj Hx Hother; [discriminate|].
  destruct j as [|j]; cbn in Hj |- *.
  - injection Hj as ->. rewrite Hx. f_equal.
    apply filter_nil_iff. intros y Hy.
    apply list_elem_of_In, list_elem_of_lookup in Hy as [i Hi].
    apply (Hother (S i) y); [lia | exact Hi].
  - rewrite (Hother 0%nat z); [|lia|reflexivity].
    apply (IH j Hj Hx). intros i y Hi Hy.
    apply (Hother (S i) y); [lia | exact Hy].
Qed.

(** X24.  An election that no other election overlaps ends with one leader.
    When the timer of a tab fires while no message is pending and no
    other tab has an election running, and only deliveries of messages
    and the passing of time follow until nothing is pending, that tab is
    the leader and no other tab is, a former leader included. *)
Theorem unopposed_election_has_one_leader :
  forall (n : LeaderElection.net) (j : nat) (x : LeaderElection.tab)
         (stamp due : Z) (schedule : list LeaderElection.action)
         (final : LeaderElection.net),
    LeaderElection.tabs n !! j = Some x ->
    LeaderElection.electionTimeout (LeaderElection.instance x) = Some stamp ->
    stamp <> 0 ->
    LeaderElection.electionTimer x = Some due ->
    due <= LeaderElection.clock n ->
    (forall i y, LeaderElection.tabs n !! i = Some y ->
                 LeaderElection.inbox y = []
                 /\ (i <> j ->
                     LeaderElection.electionTimer y = None
                     /\ LeaderElection.tabId (LeaderElection.instance y)
                        <> LeaderElection.tabId (LeaderElection.instance x))) ->
    forallb LeaderElection.is_Deliver_or_Tick schedule = true ->
    LeaderElection.run (LeaderElection.Expire j :: schedule) n = Some final ->
    LeaderElection.settled final = true ->
    LeaderElection.leaders final
    = [LeaderElection.tabId (LeaderElection.instance x)].
Proof.
  intros n j x stamp due schedule final Hj Hstamp Hnz Hdue Hle Hquiet Hs
    Hrun Hsettled.
  set (idj := LeaderElection.tabId (LeaderElection.instance x)).
  cbn in Hrun. rewrite Hj in Hrun. cbn in Hrun. rewrite Hdue in Hrun.
  apply Z.leb_le in Hle. rewrite Hle in Hrun.
  unfold LeaderElection.electLeader_timeout in Hrun.
  rewrite Hstamp in Hrun. apply Z.eqb_neq in Hnz. rewrite Hnz in Hrun.
  cbn in Hrun.
  match type of Hrun with
  | LeaderElection.run _ ?n1 = _ =>
      assert (Hinv : LeaderElection.announced j idj n1)
  end.
  { intros i y Hy. cbn in Hy. rewrite lookup_postMessages in Hy.
    destruct (Nat.eq_dec i j) as [-> | Hij].
    - rewrite list_lookup_insert_eq in Hy
        by (apply lookup_lt_is_Some; eauto).
      cbn in Hy. rewrite Nat.eqb_refl in Hy. injection Hy as <-.
      rewrite Nat.eqb_refl. cbn.
      destruct (Hquiet j x Hj) as [Hin _]. repeat split. exact Hin.
    - rewrite list_lookup_insert_ne in Hy by congruence.
      destruct (LeaderElection.tabs n !! i) as [z|] eqn:Ez; [|discriminate].
      cbn in Hy. apply Nat.eqb_neq in Hij. rewrite Hij in Hy |- *.
      injection Hy as <-. cbn.
      apply Nat.eqb_neq in Hij.
      destruct (Hquiet i z Ez) as [Hin Hrest].
      destruct (Hrest Hij) as [Ht Hid].
      rewrite Hin. repeat split; [exact Ht | exact Hid |].
      left. reflexivity. }
  pose proof (announced_run j idj schedule Hs _ final Hinv Hrun) as Hfinal.
  unfold LeaderElection.leaders.
  assert (Hlen : is_Some (LeaderElection.tabs final !! j)).
  { clear -Hrun Hs Hj.
    assert (G : forall schedule n n',
               forallb LeaderElection.is_Deliver_or_Tick schedule = true ->
               LeaderElection.run schedule n = Some n' ->
               length (LeaderElection.tabs n') = length (LeaderElection.tabs n)).
    { clear. induction schedule as [|a schedule IH]; intros n n' Hs Hrun.
      - injection Hrun as <-. reflexivity.
      - cbn in Hs. apply andb_true_iff in Hs as [Ha Hs]. cbn in Hrun.
        destruct (LeaderElection.step a n) as [n1|] eqn:E; [|discriminate].
        cbn in Hrun. rewrite (IH n1 n' Hs Hrun).
        destruct a as [k|k|k|k|d]; cbn in Ha; try discriminate; cbn in E.
        + destruct (LeaderElection.tabs n !! k) as [x|]; [|discriminate].
          cbn in E. destruct (LeaderElection.inbox x); [discriminate|].
          destruct (LeaderElection.onmessage _ _ _). injection E as <-.
          cbn. unfold LeaderElection.postMessages.
          rewrite length_imap, length_insert. reflexivity.
        + destruct (0 <=? d); [|discriminate]. injection E as <-.
          reflexivity. }
    apply lookup_lt_is_Some. rewrite (G _ _ _ Hs Hrun). cbn.
    unfold LeaderElection.postMessages.
    rewrite length_imap, length_insert.
    apply lookup_lt_is_Some. eauto. }
  destruct Hlen as [xj Hxj].
  destruct (Hfinal j xj Hxj) as [_ Hj'].
  rewrite Nat.eqb_refl in Hj'. destruct Hj' as (Hid & Hlead & _).
  rewrite (filter_single _ _ j xj Hxj Hlead).
  - cbn. rewrite Hid. reflexivity.
  - intros i y Hij Hy.
    destruct (Hfinal i y Hy) as [_ Hi].
    apply Nat.eqb_neq in Hij. rewrite Hij in Hi.
    destruct Hi as (_ & [Hin | [_ Hflag]]); [|exact Hflag].
    unfold LeaderElection.settled in Hsettled.
    rewrite forallb_forall in Hsettled.
    assert (Hyin : In y (LeaderElection.tabs final)).
    { apply list_elem_of_In, list_elem_of_lookup. eauto. }
    specialize (Hsettled y Hyin). rewrite Hin in Hsettled. discriminate.
Qed.

Lemma unopposed_election_has_one_leader_witness :
  LeaderElection.tabs Scenario.asked !! 0%nat = Some Scenario.candidate
  /\ LeaderElection.electionTimeout
       (LeaderElection.instance Scenario.candidate) = Some 1000
  /\ 1000 <> 0
  /\ LeaderElection.electionTimer Scenario.candidate = Some 1100
  /\ 1100 <= LeaderElection.clock Scenario.asked
  /\ (forall i y,
        LeaderElection.tabs Scenario.asked !! i = Some y ->
        LeaderElection.inbox y = []
        /\ (i <> 0%nat ->
            LeaderElection.electionTimer y = None
            /\ LeaderElection.tabId (LeaderElection.instance y)
               <> LeaderElection.tabId
                    (LeaderElection.instance Scenario.candidate)))
  /\ forallb LeaderElection.is_Deliver_or_Tick Scenario.afterElection = true
  /\ LeaderElection.run (LeaderElection.Expire 0 :: Scenario.afterElection)
       Scenario.asked = Some Scenario.elected
  /\ LeaderElection.settled Scenario.elected = true
  /\ LeaderElection.leaders Scenario.elected = ["tab-a"].
Proof.
  assert (Hquiet : forall i y,
            LeaderElection.tabs Scenario.asked !! i = Some y ->
            LeaderElection.inbox y = []
            /\ (i <> 0%nat ->
                LeaderElection.electionTimer y = None
                /\ LeaderElection.tabId (LeaderElection.instance y)
                   <> LeaderElection.tabId
                        (LeaderElection.instance Scenario.candidate))).
  { intros [|[|[|i]]] y Hy; vm_compute in Hy; try discriminate Hy;
      injection Hy as <-; (split; [reflexivity|]); intros Hne;
      [contradiction | split; [reflexivity | discriminate]..]. }
  assert (Hasked : 1000 <> 0) by discriminate.
  assert (Hdue : 1100 <= LeaderElection.clock Scenario.asked)
    by discriminate.
  split; [reflexivity|]. split; [reflexivity|]. split; [exact Hasked|].
  split; [reflexivity|]. split; [exact Hdue|]. split; [exact Hquiet|].
  split; [reflexivity|]. split; [reflexivity|]. split; [reflexivity|].
  apply (unopposed_election_has_one_leader Scenario.asked 0
           Scenario.candidate 1000 1100 Scenario.afterElection Scenario.elected
           eq_refl eq_refl Hasked eq_refl Hdue Hquiet eq_refl eq_refl eq_refl).
Defined.


(** ** The retry loop of the HTTP client *)

Section Request.

Context {T : Type}.
Variable executeRequest : nat -> HttpClient.exchange T.
Variable random : nat -> Q.
Variable maxRetries : Z.

Lemma loop_first_decisive (turns : nat) :
  forall (attempt : nat) (lastError : option Caught),
    (0 < turns)%nat ->
    maxRetries < Z.of_nat (attempt + turns) ->
    exists k,
      (attempt <= k < attempt + turns)%nat
      /\ (forall j, (attempt <= j < k)%nat ->
                    HttpClient.decisive maxRetries executeRequest j = false)
      /\ HttpClient.decisive maxRetries executeRequest k = true
      /\ HttpClient.loop executeRequest random maxRetries turns attempt lastError
         = (HttpClient.outcomeOf (executeRequest k),
            List.map (HttpClient.delayAfter executeRequest random)
                     (List.seq attempt (k - attempt))).
Proof.
  induction turns as [|turns IH]; intros attempt lastError Hpos Hlast; [lia|].
  cbn [HttpClient.loop].
  destruct (executeRequest attempt) as [body | error] eqn:Ex.
  - exists attempt. repeat split; try lia.
    + unfold HttpClient.decisive. rewrite Ex. reflexivity.
    + rewrite Ex, Nat.sub_diag. reflexivity.
  - destruct (negb (Caught_retryable error) || (maxRetries <=? Z.of_nat attempt))
      eqn:Estop.
    + exists attempt. repeat split; try lia.
      * unfold HttpClient.decisive. rewrite Ex. exact Estop.
      * rewrite Ex, Nat.sub_diag. reflexivity.
    + apply orb_false_iff in Estop as [Hretry Hmore].
      apply Z.leb_gt in Hmore.
      destruct (IH (S attempt) (Some error)) as (k & Hk & Hbefore & Hdec & Hloop);
        [lia | lia |].
      exists k. repeat split; try lia.
      * intros j Hj. destruct (Nat.eq_dec j attempt) as [-> | Hne].
        -- unfold HttpClient.decisive. rewrite Ex, Hretry. cbn.
           apply Z.leb_gt. exact Hmore.
        -- apply Hbefore. lia.
      * exact Hdec.
      * rewrite Hloop.
        replace (k - attempt)%nat with (S (k - S attempt)) by lia.
        cbn [List.seq List.map]. unfold HttpClient.delayAfter at 2.
        rewrite Ex. reflexivity.
Qed.

End Request.

(** X25.  The retry loop of [request].  With [maxRetries] at least 0 (3 when
    the option is absent) the attempts 0, 1, ... are made up to the
    first attempt [k <= maxRetries] that succeeds, fails with an error
    that is not retryable, or is attempt number [maxRetries]; [request]
    returns the body of that attempt or throws its error, and after each
    failure before it has slept
    [retryAfter ?? calculateBackoff(attempt)].  With a negative
    [maxRetries] no request is made and [null] is thrown. *)
Theorem request_stops_at_first_decisive_attempt :
  forall (T : Type) (maxRetries : option Z)
         (executeRequest : nat -> HttpClient.exchange T) (random : nat -> Q),
    let m := HttpClient.maxRetriesOf maxRetries in
    (m < 0 ->
     HttpClient.request maxRetries executeRequest random
     = (HttpClient.Rejected None, []))
    /\ (0 <= m ->
        exists k,
          Z.of_nat k <= m
          /\ (forall j, (j < k)%nat ->
                        HttpClient.decisive m executeRequest j = false)
          /\ HttpClient.decisive m executeRequest k = true
          /\ HttpClient.request maxRetries executeRequest random
             = (HttpClient.outcomeOf (executeRequest k),
                List.map (HttpClient.delayAfter executeRequest random)
                         (List.seq 0 k))).
Proof.
  intros T maxRetries executeRequest random m. split.
  - intros Hneg. unfold HttpClient.request. fold m.
    replace (Z.to_nat (m + 1)) with 0%nat by lia. reflexivity.
  - intros Hm. unfold HttpClient.request. fold m.
    destruct (loop_first_decisive executeRequest random m (Z.to_nat (m + 1))
                0%nat None) as (k & Hk & Hbefore & Hdec & Hloop); [lia | lia |].
    exists k. repeat split.
    + lia.
    + intros j Hj. apply Hbefore. lia.
    + exact Hdec.
    + rewrite Hloop, Nat.sub_0_r. reflexivity.
Qed.

Lemma request_stops_at_first_decisive_attempt_witness :
  0 <= HttpClient.maxRetriesOf None
  /\ HttpClient.request None Scenario.exchanges Scenario.half
     = (HttpClient.Resolved "[]", [1000; 2000]).
Proof.
  assert (Hm : 0 <= HttpClient.maxRetriesOf None) by discriminate.
  split; [exact Hm|].
  destruct (proj2 (request_stops_at_first_decisive_attempt string None
                     Scenario.exchanges Scenario.half) Hm)
    as (k & Hk & Hbefore & Hdec & Hrequest).
  destruct k as [|[|[|k]]]; try discriminate Hdec.
  - exact Hrequest.
  - specialize (Hbefore 2%nat). cbn in Hbefore.
    assert (Hlt : (2 < S (S (S k)))%nat) by lia.
    specialize (Hbefore Hlt). discriminate Hbefore.
Defined.


(** ** The rate limiter *)

Lemma filter_length_le {A : Type} (p : A -> bool) (l : list A) :
  (length (List.filter p l) <= length l)%nat.
Proof.
  induction l as [|x l IH]; cbn; [lia|]. destruct (p x); cbn; lia.
Qed.

Lemma filter_length_impl {A : Type} (p q : A -> bool) (l : list A) :
  (forall x, In x l -> p x = true -> q x = true) ->
  (length (List.filter p l) <= length (List.filter q l))%nat.
Proof.
  induction l as [|x l IH]; intros H; cbn; [lia|].
  assert (IH' := IH (fun y Hy => H y (or_intror Hy))).
  destruct (p x) eqn:Ep.
  - rewrite (H x (or_introl eq_refl) Ep). cbn. lia.
  - destruct (q x); cbn; lia.
Qed.

Section Throttle.

Variable config : RateLimiter.RateLimitConfig.t.

Let windowMs := RateLimiter.RateLimitConfig.windowMs config.
Let maxRequests := RateLimiter.RateLimitConfig.maxRequests config.

Lemma filter_later (c b : Z) (l : list Z) :
  c <= b ->
  List.filter (fun time => b - windowMs <? time)
    (List.filter (fun time => c - windowMs <? time) l)
  = List.filter (fun time => b - windowMs <? time) l.
Proof.
  intros Hcb. induction l as [|x l IH]; [reflexivity|]. cbn.
  destruct (c - windowMs <? x) eqn:Ec; cbn.
  - rewrite IH. reflexivity.
  - rewrite IH. apply Z.ltb_ge in Ec.
    replace (b - windowMs <? x) with false; [reflexivity|].
    symmetry. apply Z.ltb_ge. lia.
Qed.

Lemma requestsOf_insert (key : string) (entry : RateLimiter.RateLimitEntry.t)
    (limits : RateLimiter.t) :
  RateLimiter.requestsOf key (<[key := entry]> limits)
  = RateLimiter.RateLimitEntry.requests entry.
Proof.
  unfold RateLimiter.requestsOf, RateLimiter.t.
  rewrite lookup_insert_eq. reflexivity.
Qed.

Lemma requestsOf_other (key other : string) (limits limits' : RateLimiter.t) :
  limits' !! other = limits !! other ->
  RateLimiter.requestsOf other limits' = RateLimiter.requestsOf other limits.
Proof. unfold RateLimiter.requestsOf. intros ->. reflexivity. Qed.

Lemma enter_cases (now : Z) (key : string) (limits : RateLimiter.t) :
  let kept :=
    List.filter (fun time => now - windowMs <? time)
                (RateLimiter.requestsOf key limits) in
  (exists limits',
      RateLimiter.enter config now key limits = (RateLimiter.Pass, limits')
      /\ RateLimiter.requestsOf key limits' = (kept ++ [now])%list
      /\ (forall other, other <> key -> limits' !! other = limits !! other)
      /\ Z.of_nat (length kept) < Z.max 1 maxRequests)
  \/ (exists waitTime limits' oldest rest,
         RateLimiter.enter config now key limits
         = (RateLimiter.Wait waitTime, limits')
         /\ RateLimiter.requestsOf key limits' = kept
         /\ (forall other, other <> key -> limits' !! other = limits !! other)
         /\ kept = oldest :: rest
         /\ waitTime = windowMs - (now - oldest)
         /\ 0 < waitTime
         /\ maxRequests <= Z.of_nat (length kept)).
Proof.
  intros kept.
  assert (Hkept :
    kept = List.filter (fun time => now - windowMs <? time)
             (RateLimiter.RateLimitEntry.requests
                match limits !! key with
                | Some entry => entry
                | None => RateLimiter.RateLimitEntry.mk [] now
                end)).
  { unfold kept, RateLimiter.requestsOf. destruct (limits !! key); reflexivity. }
  unfold RateLimiter.enter. fold windowMs maxRequests. rewrite <- Hkept.
  assert (Hpass : forall entry,
    Z.of_nat (length kept) < Z.max 1 maxRequests ->
    exists limits',
      (RateLimiter.Pass,
       <[key := RateLimiter.RateLimitEntry.mk (kept ++ [now]) entry]> limits)
      = (RateLimiter.Pass, limits')
      /\ RateLimiter.requestsOf key limits' = (kept ++ [now])%list
      /\ (forall other, other <> key -> limits' !! other = limits !! other)
      /\ Z.of_nat (length kept) < Z.max 1 maxRequests).
  { intros entry Hlt. eexists. split; [reflexivity|]. split.
    - apply requestsOf_insert.
    - split; [|exact Hlt]. intros other Hne.
      apply lookup_insert_ne. congruence. }
  destruct (maxRequests <=? Z.of_nat (length kept)) eqn:Efull.
  - destruct kept as [|oldest rest] eqn:Ek.
    + left. apply Hpass. cbn. lia.
    + assert (Hin : In oldest kept) by (rewrite Ek; left; reflexivity).
      unfold kept in Hin. apply filter_In in Hin as [_ Hin].
      apply Z.ltb_lt in Hin.
      assert (Hwait : 0 < windowMs - (now - oldest)) by lia.
      apply Z.ltb_lt in Hwait. rewrite Hwait. apply Z.ltb_lt in Hwait.
      right. eexists _, _, oldest, rest. split; [reflexivity|].
      split; [apply requestsOf_insert|].
      split; [intros other Hne; apply lookup_insert_ne; congruence|].
      split; [reflexivity|]. split; [reflexivity|]. split; [exact Hwait|].
      apply Z.leb_le. exact Efull.
  - left. apply Hpass. apply Z.leb_gt in Efull. lia.
Qed.

Lemma throttle_enough (fuel : nat) :
  forall (late : nat -> Z) (now : Z) (key : string) (limits : RateLimiter.t),
    (forall k, 0 <= late k) ->
    Z.of_nat (length (List.filter (fun time => now - windowMs <? time)
                        (RateLimiter.requestsOf key limits)))
    < Z.of_nat fuel + Z.max 1 maxRequests ->
    exists recordedAt limits',
      RateLimiter.throttle config late fuel now key limits
      = Some (recordedAt, limits')
      /\ now <= recordedAt
      /\ RateLimiter.requestsOf key limits'
         = (List.filter (fun time => recordedAt - windowMs <? time)
              (RateLimiter.requestsOf key limits) ++ [recordedAt])%list
      /\ (forall other, other <> key -> limits' !! other = limits !! other).
Proof.
  induction fuel as [|fuel IH]; intros late now key limits Hlate Hlen;
    destruct (enter_cases now key limits)
      as [(limits' & He & Hreq & Hother & _)
         | (waitTime & limits' & oldest & rest & He & Hreq & Hother & Hk
            & Hw & Hpos & Hfull)];
    cbn [RateLimiter.throttle]; rewrite He.
  - exists now, limits'. repeat split; [lia | exact Hreq | exact Hother].
  - exfalso. rewrite Hk in Hlen, Hfull. cbn [length] in Hlen, Hfull. lia.
  - exists now, limits'. repeat split; [lia | exact Hreq | exact Hother].
  - assert (Hnow : now <= now + waitTime + late 0%nat)
      by (specialize (Hlate 0%nat); lia).
    destruct (IH (fun k => late (S k)) (now + waitTime + late 0%nat) key limits')
      as (recordedAt & limits'' & Ht & Hle & Hreq' & Hother').
    + intros k. apply Hlate.
    + rewrite Hreq, Hk. cbn [List.filter].
      replace (now + waitTime + late 0%nat - windowMs <? oldest) with false.
      * pose proof (filter_length_le
                      (fun time => now + waitTime + late 0%nat - windowMs <? time)
                      rest) as Hrest.
        rewrite Hk in Hlen. cbn [length] in Hlen. lia.
      * symmetry. apply Z.ltb_ge. specialize (Hlate 0%nat). lia.
    + exists recordedAt, limits''. split; [exact Ht|]. split; [lia|]. split.
      * rewrite Hreq', Hreq. rewrite filter_later by lia. reflexivity.
      * intros other Hne. rewrite Hother' by exact Hne. apply Hother, Hne.
Qed.

Lemma enter_tracks (key : string) (clock : Z) (history : list Z)
    (limits : RateLimiter.t) (now : Z) (called : string)
    (v : RateLimiter.verdict) (limits' : RateLimiter.t) :
  RateLimiter.tracks config key clock history limits ->
  clock <= now ->
  RateLimiter.enter config now called limits = (v, limits') ->
  RateLimiter.tracks config key now
    (match v with
     | RateLimiter.Pass =>
         if String.eqb called key then history ++ [now] else history
     | RateLimiter.Wait _ => history
     end)%list
    limits'.
Proof.
  intros (Hbound & Hstored & Hwindow) Hclock He.
  fold windowMs maxRequests in Hstored, Hwindow.
  assert (Hbound' : Forall (fun time => time <= now) history).
  { eapply Forall_impl; [exact Hbound|]. cbv beta. intros; lia. }
  assert (Hsame :
    RateLimiter.requestsOf key limits' = RateLimiter.requestsOf key limits ->
    RateLimiter.tracks config key now history limits').
  { intros Hreq. split; [exact Hbound'|]. split; [|exact Hwindow].
    intros b Hb. rewrite Hreq. apply Hstored. lia. }
  destruct (String.eqb called key) eqn:Ekey.
  - apply String.eqb_eq in Ekey. subst called.
    destruct (enter_cases now key limits)
      as [(l1 & He1 & Hreq & _ & Hroom)
         | (waitTime & l1 & oldest & rest & He1 & Hreq & _ & _ & _ & _ & _)];
      rewrite He1 in He; injection He as <- <-.
    + split; [|split].
      * apply Forall_app. split; [exact Hbound'|].
        constructor; [lia | constructor].
      * intros b Hb. fold windowMs. rewrite Hreq, !List.filter_app.
        rewrite filter_later by exact Hb.
        rewrite Hstored by lia. reflexivity.
      * intros t. fold windowMs maxRequests. rewrite List.filter_app, length_app.
        destruct (now <=? t) eqn:Et.
        -- apply Z.leb_le in Et.
           assert (Himp : forall x, In x history ->
                     (t - windowMs <? x) && (x <=? t) = true ->
                     (now - windowMs <? x) = true).
           { intros x _ Hx. apply andb_true_iff in Hx as [Hx _].
             apply Z.ltb_lt in Hx. apply Z.ltb_lt. lia. }
           pose proof (filter_length_impl
                         (fun time => (t - windowMs <? time) && (time <=? t))
                         (fun time => now - windowMs <? time) history Himp)
             as Hle.
           rewrite <- (Hstored now) in Hle by lia.
           pose proof (filter_length_le
                         (fun time => (t - windowMs <? time) && (time <=? t))
                         [now]) as Hone.
           cbn [length] in Hone.
           lia.
        -- cbn [List.filter]. rewrite Et, andb_false_r. cbn [length].
           specialize (Hwindow t). lia.
    + split; [exact Hbound'|]. split; [|exact Hwindow].
      intros b Hb. rewrite Hreq. rewrite filter_later by exact Hb.
      apply Hstored. lia.
  - apply String.eqb_neq in Ekey.
    assert (Hreq : RateLimiter.requestsOf key limits'
                   = RateLimiter.requestsOf key limits).
    { apply (requestsOf_other called).
      destruct (enter_cases now called limits)
        as [(l1 & He1 & _ & Hother & _)
           | (waitTime & l1 & oldest & rest & He1 & _ & Hother & _)];
        rewrite He1 in He; injection He as <- <-; apply Hother; congruence. }
    destruct v; apply Hsame; exact Hreq.
Qed.

Lemma run_tracks (key : string) (calls : list (Z * string)) :
  forall (clock : Z) (history : list Z) (limits : RateLimiter.t),
    RateLimiter.tracks config key clock history limits ->
    StronglySorted Z.le (clock :: List.map fst calls) ->
    exists clock',
      RateLimiter.tracks config key clock'
        (history
         ++ List.map fst
              (List.filter (fun r => String.eqb (snd r) key)
                 (fst (RateLimiter.run config calls limits))))%list
        (snd (RateLimiter.run config calls limits)).
Proof.
  induction calls as [|[now called] calls IH];
    intros clock history limits Htracks Hsorted.
  - exists clock. cbn. rewrite app_nil_r. exact Htracks.
  - cbn [RateLimiter.run].
    destruct (RateLimiter.enter config now called limits) as [v limits'] eqn:He.
    destruct (RateLimiter.run config calls limits') as [recorded final] eqn:Er.
    cbn [List.map fst] in Hsorted.
    apply StronglySorted_inv in Hsorted as [Hsorted Hfirst].
    assert (Hclock : clock <= now) by (inversion Hfirst; assumption).
    pose proof (enter_tracks key clock history limits now called v limits'
                  Htracks Hclock He) as Htracks'.
    destruct (IH now _ limits' Htracks' Hsorted) as [clock' Hfinal].
    rewrite Er in Hfinal. cbn [fst snd] in Hfinal |- *.
    exists clock'.
    destruct v; [|exact Hfinal].
    cbn [List.filter snd]. destruct (String.eqb called key).
    + cbn [List.map fst]. rewrite <- app_assoc in Hfinal. exact Hfinal.
    + exact Hfinal.
Qed.

Lemma inWindow_length (key : string) (t : Z) (recorded : list (Z * string)) :
  length (RateLimiter.inWindow config key t recorded)
  = length (List.filter
              (fun time => (t - windowMs <? time) && (time <=? t))
              (List.map fst
                 (List.filter (fun r => String.eqb (snd r) key) recorded))).
Proof.
  unfold RateLimiter.inWindow. fold windowMs.
  induction recorded as [|[time k] recorded IH]; [reflexivity|].
  cbn [List.filter fst snd].
  destruct (String.eqb k key); cbn [andb List.map List.filter fst].
  - destruct ((t - windowMs <? time) && (time <=? t)); cbn [length];
      rewrite IH; reflexivity.
  - exact IH.
Qed.

End Throttle.

(** X26.  [throttle(key)] returns.  A call that no other call interleaves,
    with timers that never fire early, records its request after at most
    [fuel] sleeps when the entry of the key holds fewer than
    [fuel + max(1, maxRequests)] requests: one sleep is enough for an
    entry within the limit.  The request is recorded at or after the
    time of the call; the entry then holds the earlier requests that are
    still in the window, followed by the new one; no other entry
    changes. *)
Theorem throttle_returns :
  forall (config : RateLimiter.RateLimitConfig.t) (late : nat -> Z)
         (fuel : nat) (now : Z) (key : string) (limits : RateLimiter.t),
    (forall k, 0 <= late k) ->
    Z.of_nat (length (RateLimiter.requestsOf key limits))
    < Z.of_nat fuel
      + Z.max 1 (RateLimiter.RateLimitConfig.maxRequests config) ->
    exists recordedAt limits',
      RateLimiter.throttle config late fuel now key limits
      = Some (recordedAt, limits')
      /\ now <= recordedAt
      /\ RateLimiter.requestsOf key limits'
         = (List.filter
              (fun time =>
                 recordedAt - RateLimiter.RateLimitConfig.windowMs config <? time)
              (RateLimiter.requestsOf key limits) ++ [recordedAt])%list
      /\ (forall other, other <> key -> limits' !! other = limits !! other).
Proof.
  intros config late fuel now key limits Hlate Hlen.
  apply throttle_enough; [exact Hlate|].
  pose proof (filter_length_le
                (fun time =>
                   now - RateLimiter.RateLimitConfig.windowMs config <? time)
                (RateLimiter.requestsOf key limits)).
  lia.
Qed.

Lemma throttle_returns_witness :
  (forall k, 0 <= Scenario.punctual k)
  /\ Z.of_nat (length (RateLimiter.requestsOf "posts" Scenario.busy))
     < Z.of_nat 1
       + Z.max 1 (RateLimiter.RateLimitConfig.maxRequests Scenario.twoPerSecond)
  /\ exists recordedAt limits',
       RateLimiter.throttle Scenario.twoPerSecond Scenario.punctual 1 500
         "posts" Scenario.busy = Some (recordedAt, limits')
       /\ 500 <= recordedAt.
Proof.
  assert (Hlate : forall k, 0 <= Scenario.punctual k).
  { intros k. discriminate. }
  assert (Hlen :
    Z.of_nat (length (RateLimiter.requestsOf "posts" Scenario.busy))
    < Z.of_nat 1
      + Z.max 1 (RateLimiter.RateLimitConfig.maxRequests Scenario.twoPerSecond))
    by reflexivity.
  split; [exact Hlate|]. split; [exact Hlen|].
  destruct (throttle_returns Scenario.twoPerSecond Scenario.punctual 1 500
              "posts" Scenario.busy Hlate Hlen)
    as (recordedAt & limits' & Hthrottle & Hle & _).
  exists recordedAt, limits'. split; [exact Hthrottle | exact Hle].
Defined.

(** X27.  The limit holds in every window.  From a new limiter, with a clock
    that never goes back and however the calls on the keys interleave,
    the requests recorded for a key in a window of [windowMs] ms, ending
    at any time [t], are at most [max(1, maxRequests)]: a limit of 0 or
    less still lets one request through in each window. *)
Theorem throttle_limits_each_window :
  forall (config : RateLimiter.RateLimitConfig.t) (calls : list (Z * string))
         (key : string) (t : Z),
    StronglySorted Z.le (List.map fst calls) ->
    Z.of_nat
      (length (RateLimiter.inWindow config key t
                 (fst (RateLimiter.run config calls RateLimiter.create))))
    <= Z.max 1 (RateLimiter.RateLimitConfig.maxRequests config).
Proof.
  intros config calls key t Hsorted.
  set (clock := match calls with [] => 0 | (now, _) :: _ => now end).
  assert (Hstart : RateLimiter.tracks config key clock [] RateLimiter.create).
  { split; [constructor|]. split; [reflexivity|]. intros t'. cbn. lia. }
  assert (Hsorted' : StronglySorted Z.le (clock :: List.map fst calls)).
  { constructor; [exact Hsorted|].
    destruct calls as [|[now called] calls]; [constructor|].
    cbn [List.map fst] in Hsorted |- *.
    apply StronglySorted_inv in Hsorted as [_ Hrest].
    constructor; [unfold clock; lia | exact Hrest]. }
  destruct (run_tracks config key calls clock [] RateLimiter.create
              Hstart Hsorted') as [clock' (_ & _ & Hwindow)].
  rewrite inWindow_length. apply Hwindow.
Qed.

Lemma throttle_limits_each_window_witness :
  StronglySorted Z.le (List.map fst Scenario.calls)
  /\ Z.of_nat
       (length (RateLimiter.inWindow Scenario.twoPerSecond "posts" 1100
                  (fst (RateLimiter.run Scenario.twoPerSecond Scenario.calls
                          RateLimiter.create))))
     <= Z.max 1 (RateLimiter.RateLimitConfig.maxRequests Scenario.twoPerSecond).
Proof.
  assert (Hsorted : StronglySorted Z.le (List.map fst Scenario.calls)).
  { cbn. repeat constructor; discriminate. }
  split; [exact Hsorted|].
  apply (throttle_limits_each_window Scenario.twoPerSecond Scenario.calls
           "posts" 1100 Hsorted).
Defined.


(** ** Metrics and the health check *)

Lemma perform_total (m : MetricsCollector.t) (c : Health.call) :
  MetricsCollector.total (Health.perform m c) = MetricsCollector.total m.
Proof. destruct c; reflexivity. Qed.

Lemma perform_fold_total (cs : list Health.call) :
  forall m : MetricsCollector.t,
    MetricsCollector.total (List.fold_left Health.perform cs m)
    = MetricsCollector.total m.
Proof.
  induction cs as [|c cs IH]; intros m; [reflexivity|].
  cbn [List.fold_left]. rewrite IH. apply perform_total.
Qed.

Lemma errorRateOf_zero (m : MetricsCollector.t) :
  MetricsCollector.total m = 0 ->
  Qle_bool (Health.errorRateOf m) (1 # 10) = true
  /\ (Health.errorRateOf m == 0)%Q.
Proof.
  intros H. unfold Health.errorRateOf. rewrite H.
  destruct (if MetricsCollector.syncCount m =? 0 then 1
            else MetricsCollector.syncCount m) as [|p|p];
    split; reflexivity.
Qed.

(** X28.  The health check never reports an unhealthy engine.  The engine
    calls [recordSyncStart], [recordPush], [recordPull] and
    [recordSyncComplete] in [sync()] and [updateQueueDepth] and
    [updateOldestItemAge] in [getMetrics()], and never [recordError]:
    after any sequence of these calls [errors.total] is 0, so the error
    rate of [healthCheck()] is 0, [healthy] is true and every issue it
    lists is a warning. *)
Theorem healthCheck_never_unhealthy :
  forall (cs : list Health.call) (now now' : Z) (db : Db.t),
    let checked := Health.healthCheck now now' db (Health.after cs) in
    MetricsCollector.total (snd checked) = 0
    /\ Health.healthy (fst checked) = true
    /\ Forall (fun i => Health.severity i = Health.warning)
              (Health.issues (fst checked))
    /\ (Health.errorRate (fst checked) == 0)%Q.
Proof.
  intros cs now now' db. cbv zeta.
  unfold Health.healthCheck, Health.getMetrics, Health.after.
  cbn [fst snd].
  set (m := List.fold_left Health.perform (Health.getMetricsCalls now db)
              (List.fold_left Health.perform cs MetricsCollector.create)).
  assert (Htotal : MetricsCollector.total m = 0).
  { unfold m. rewrite !perform_fold_total. reflexivity. }
  destruct (errorRateOf_zero m Htotal) as [Hle Hzero].
  split; [exact Htotal|].
  unfold Health.check. rewrite Hle. cbn [negb app].
  rewrite !app_nil_r. cbn [Health.healthy Health.issues Health.errorRate].
  split; [|split; [|exact Hzero]].
  - destruct (100 <? MetricsCollector.depth m);
      destruct (300000 <? now' - MetricsCollector.lastSyncCompleted m);
      reflexivity.
  - destruct (100 <? MetricsCollector.depth m);
      destruct (300000 <? now' - MetricsCollector.lastSyncCompleted m);
      cbn [app]; repeat constructor.
Qed.

Lemma tl_skipn_snoc (x : Z) (l : list Z) :
  forall k, (k < length l)%nat ->
    List.tl (List.skipn k l ++ [x])%list = List.skipn (S k) (l ++ [x])%list.
Proof.
  induction l as [|y l IH]; intros k Hlt; [cbn in Hlt; lia|].
  destruct k as [|k]; [reflexivity|].
  cbn [List.skipn length app] in *. apply IH. lia.
Qed.

Lemma window_skipn (l : list Z) (x : Z) :
  MetricsCollector.window (List.skipn (length l - 100) l) x
  = List.skipn (length (l ++ [x]) - 100) (l ++ [x])%list.
Proof.
  unfold MetricsCollector.window. rewrite !length_app, length_skipn.
  cbn [length].
  destruct (Nat.le_gt_cases (length l) 99) as [Hshort | Hlong].
  - replace (length l - 100)%nat with 0%nat by lia.
    replace (length l + 1 - 100)%nat with 0%nat by lia.
    cbn [List.skipn].
    replace (100 <? length l - 0 + 1)%nat with false; [reflexivity|].
    symmetry. apply Nat.ltb_ge. lia.
  - replace (100 <? length l - (length l - 100) + 1)%nat with true
      by (symmetry; apply Nat.ltb_lt; lia).
    replace (length l + 1 - 100)%nat with (S (length l - 100)) by lia.
    apply tl_skipn_snoc. lia.
Qed.

Lemma recordRequests_snoc (requests : list (Z * Z * Z)) (r : Z * Z * Z)
    (m : MetricsCollector.t) :
  MetricsCollector.recordRequests (requests ++ [r]) m
  = MetricsCollector.recordRequest (fst (fst r)) (snd (fst r)) (snd r)
      (MetricsCollector.recordRequests requests m).
Proof. unfold MetricsCollector.recordRequests. apply fold_left_app. Qed.

(** X29.  [recordRequest] keeps the latencies of the last hundred requests.
    After any number of calls on a new collector [latencies] is the list
    of the latencies recorded with all but the last 100 dropped,
    [requestCount] is the number of calls, and, once there was a call,
    [avgLatency] is the mean of the latencies kept. *)
Theorem recordRequest_keeps_last_hundred :
  forall (requests : list (Z * Z * Z)),
    let m := MetricsCollector.recordRequests requests MetricsCollector.create in
    let all := List.map snd requests in
    MetricsCollector.latencies m = List.skipn (length all - 100) all
    /\ (length (MetricsCollector.latencies m) <= 100)%nat
    /\ MetricsCollector.requestCount m = Z.of_nat (length requests)
    /\ (requests <> [] ->
        MetricsCollector.avgLatency m
        = (inject_Z (MetricsCollector.sum (MetricsCollector.latencies m))
           / inject_Z (Z.of_nat (length (MetricsCollector.latencies m))))%Q).
Proof.
  intros requests. cbv zeta.
  assert (Hmain :
    MetricsCollector.latencies
      (MetricsCollector.recordRequests requests MetricsCollector.create)
    = List.skipn (length (List.map snd requests) - 100)
        (List.map snd requests)
    /\ MetricsCollector.requestCount
         (MetricsCollector.recordRequests requests MetricsCollector.create)
       = Z.of_nat (length requests)
    /\ (requests <> [] ->
        MetricsCollector.avgLatency
          (MetricsCollector.recordRequests requests MetricsCollector.create)
        = (inject_Z
             (MetricsCollector.sum
                (MetricsCollector.latencies
                   (MetricsCollector.recordRequests requests
                      MetricsCollector.create)))
           / inject_Z
               (Z.of_nat
                  (length
                     (MetricsCollector.latencies
                        (MetricsCollector.recordRequests requests
                           MetricsCollector.create)))))%Q)).
  { induction requests as [|r requests IH] using rev_ind.
    - split; [reflexivity|]. split; [reflexivity|]. congruence.
    - destruct IH as (Hlat & Hcount & _).
      rewrite recordRequests_snoc.
      cbn [MetricsCollector.recordRequest MetricsCollector.latencies
           MetricsCollector.requestCount MetricsCollector.avgLatency].
      rewrite Hlat, Hcount, List.map_app. cbn [List.map].
      split; [apply window_skipn|].
      split; [rewrite length_app; cbn [length]; lia|].
      intros _. reflexivity. }
  destruct Hmain as (Hlat & Hcount & Havg).
  split; [exact Hlat|]. split; [|split; [exact Hcount | exact Havg]].
  rewrite Hlat, length_skipn. lia.
Qed.

(** A health check five minutes and more after the only cycle of the
    engine: one warning, and the engine is healthy. *)
Example health_after_a_sync :
  Health.issues
    (fst (Health.healthCheck 400000 400000 Sample.db
            (Health.after (Health.syncCalls 1000 1200))))
  = [Health.mkIssue Health.warning "STALE_SYNC"].
Proof. reflexivity. Qed.


(** ** Starting the engine *)

Lemma startTracking_none (tables : list string) (d : Db.t) :
  (forall name, In name tables -> is_Some (Db.tables d !! name)) ->
  Lifecycle.startTracking tables d = None.
Proof.
  intros H. unfold Lifecycle.startTracking.
  induction tables as [|name tables IH]; [reflexivity|]. cbn [List.find].
  destruct (H name (or_introl eq_refl)) as [rows Hrows].
  rewrite bool_decide_false by congruence.
  apply IH. intros other Hother. apply H. right. exact Hother.
Qed.

Lemma startSyncInterval_fields (e : SyncEngine.t) :
  let e' := SyncEngine.startSyncInterval e in
  SyncEngine.syncInterval e'
  = match SyncConfig.interval (SyncEngine.config e) with
    | Some interval => 0 <? interval
    | None => false
    end
  /\ SyncEngine.leader e' = SyncEngine.leader e
  /\ Lifecycle.apart e' = Lifecycle.apart e.
Proof.
  unfold SyncEngine.startSyncInterval. cbn.
  destruct (SyncConfig.interval (SyncEngine.config e)) as [i|]; cbn;
    [destruct (0 <? i); cbn|]; repeat split.
Qed.

Lemma onLeadershipChange_apart (b : bool) (e : SyncEngine.t) :
  Lifecycle.apart (Lifecycle.onLeadershipChange b e) = Lifecycle.apart e
  /\ SyncEngine.leader (Lifecycle.onLeadershipChange b e) = SyncEngine.leader e.
Proof.
  unfold Lifecycle.onLeadershipChange.
  destruct (b && SyncEngine.isRunning e).
  - destruct (startSyncInterval_fields e) as (_ & Hl & Ha). split; assumption.
  - split; reflexivity.
Qed.

Lemma callbacks_apart (calls : list bool) :
  forall e,
    let e' :=
      fold_left (fun e isLeader => Lifecycle.onLeadershipChange isLeader e)
        calls e in
    Lifecycle.apart e' = Lifecycle.apart e
    /\ SyncEngine.leader e' = SyncEngine.leader e.
Proof.
  induction calls as [|b calls IH]; intros e; cbn [fold_left];
    [split; reflexivity|].
  destruct (IH (Lifecycle.onLeadershipChange b e)) as [Ha Hl].
  destruct (onLeadershipChange_apart b e) as [Ha' Hl'].
  cbv zeta in *. split; congruence.
Qed.

Lemma follow_apart (before after : LeaderElection.t) (e : SyncEngine.t) :
  Lifecycle.apart (Lifecycle.follow before after e) = Lifecycle.apart e
  /\ SyncEngine.leader (Lifecycle.follow before after e)
     = LeaderElection.isLeaderFlag after.
Proof.
  unfold Lifecycle.follow.
  destruct (callbacks_apart
              (List.skipn (length (LeaderElection.notified before))
                 (LeaderElection.notified after))
              (SyncEngine.with_leader (LeaderElection.isLeaderFlag after) e))
    as [Ha Hl].
  cbv zeta in *. rewrite Ha, Hl. split; reflexivity.
Qed.

Lemma deliver_facts (s : Lifecycle.t) (event : Z * LeaderElection.Message.t) :
  let s' := Lifecycle.deliver s event in
  Lifecycle.apart (Lifecycle.engine s') = Lifecycle.apart (Lifecycle.engine s)
  /\ LeaderElection.electionTimeout (Lifecycle.election s')
     = LeaderElection.electionTimeout (Lifecycle.election s)
  /\ LeaderElection.tabId (Lifecycle.election s')
     = LeaderElection.tabId (Lifecycle.election s).
Proof.
  unfold Lifecycle.deliver. cbn [Lifecycle.engine Lifecycle.election].
  destruct (onmessage_keeps_election (fst event) (Lifecycle.election s)
              (snd event)) as [Ht Hid].
  split; [apply follow_apart | split; assumption].
Qed.

Lemma deliver_fold_facts (events : list (Z * LeaderElection.Message.t)) :
  forall s,
    let s' := fold_left Lifecycle.deliver events s in
    Lifecycle.apart (Lifecycle.engine s') = Lifecycle.apart (Lifecycle.engine s)
    /\ LeaderElection.electionTimeout (Lifecycle.election s')
       = LeaderElection.electionTimeout (Lifecycle.election s)
    /\ LeaderElection.tabId (Lifecycle.election s')
       = LeaderElection.tabId (Lifecycle.election s).
Proof.
  induction events as [|event events IH]; intros s; cbn [fold_left];
    [repeat split|].
  destruct (IH (Lifecycle.deliver s event)) as (Ha & Ht & Hid).
  destruct (deliver_facts s event) as (Ha' & Ht' & Hid').
  cbv zeta in *. repeat split; congruence.
Qed.

Lemma skipn_snoc {A : Type} (l : list A) (x : A) :
  List.skipn (length l) (l ++ [x]) = [x].
Proof. induction l as [|y l IH]; [reflexivity | exact IH]. Qed.

Lemma skipn_length {A : Type} (l : list A) : List.skipn (length l) l = [].
Proof. induction l as [|y l IH]; [reflexivity | exact IH]. Qed.

(** The announcement of another tab takes the leadership and stops the
    timer. *)
Lemma deliver_announcement (s : Lifecycle.t) (now : Z) (other : string) :
  other <> LeaderElection.tabId (Lifecycle.election s) ->
  let s' := Lifecycle.deliver s (now, LeaderElection.announcement other) in
  LeaderElection.isLeaderFlag (Lifecycle.election s') = false
  /\ SyncEngine.leader (Lifecycle.engine s') = false
  /\ SyncEngine.syncInterval (Lifecycle.engine s') = false.
Proof.
  intros Hother. unfold Lifecycle.deliver, LeaderElection.onmessage.
  cbn [fst snd LeaderElection.announcement LeaderElection.Message.type
         LeaderElection.Message.tabId].
  apply String.eqb_neq in Hother. rewrite Hother.
  cbn [negb fst Lifecycle.engine Lifecycle.election].
  unfold Lifecycle.follow, LeaderElection.step_down.
  cbn [LeaderElection.notified LeaderElection.isLeaderFlag].
  rewrite skipn_snoc. cbn [fold_left].
  unfold Lifecycle.onLeadershipChange. cbn [andb].
  repeat split.
Qed.

(** Once the leadership is lost no message gives it back. *)
Lemma deliver_keeps_down (s : Lifecycle.t)
    (event : Z * LeaderElection.Message.t) :
  LeaderElection.isLeaderFlag (Lifecycle.election s) = false ->
  SyncEngine.syncInterval (Lifecycle.engine s) = false ->
  let s' := Lifecycle.deliver s event in
  LeaderElection.isLeaderFlag (Lifecycle.election s') = false
  /\ SyncEngine.leader (Lifecycle.engine s') = false
  /\ SyncEngine.syncInterval (Lifecycle.engine s') = false.
Proof.
  intros Hflag Htimer. unfold Lifecycle.deliver, LeaderElection.onmessage.
  cbn [Lifecycle.engine Lifecycle.election].
  destruct (LeaderElection.Message.type (snd event)); cbn [fst];
    repeat match goal with
           | |- context [if ?b then _ else _] => destruct b
           end;
    cbn [fst]; unfold Lifecycle.follow, LeaderElection.step_down;
    cbn [LeaderElection.notified LeaderElection.isLeaderFlag];
    rewrite ?skipn_snoc, ?skipn_length; cbn [fold_left];
    unfold Lifecycle.onLeadershipChange; cbn [andb];
    rewrite ?Hflag; repeat split; try exact Htimer.
Qed.

Lemma deliver_fold_keeps_down (events : list (Z * LeaderElection.Message.t)) :
  forall s,
    LeaderElection.isLeaderFlag (Lifecycle.election s) = false ->
    SyncEngine.syncInterval (Lifecycle.engine s) = false ->
    let s' := fold_left Lifecycle.deliver events s in
    LeaderElection.isLeaderFlag (Lifecycle.election s') = false
    /\ SyncEngine.syncInterval (Lifecycle.engine s') = false.
Proof.
  induction events as [|event events IH]; intros s Hflag Htimer;
    cbn [fold_left]; [split; assumption|].
  destruct (deliver_keeps_down s event Hflag Htimer) as (Hf & _ & Ht).
  apply IH; assumption.
Qed.

Lemma deliver_fold_leader (events : list (Z * LeaderElection.Message.t)) :
  forall s,
    events <> [] ->
    SyncEngine.leader (Lifecycle.engine (fold_left Lifecycle.deliver events s))
    = LeaderElection.isLeaderFlag
        (Lifecycle.election (fold_left Lifecycle.deliver events s)).
Proof.
  induction events as [|event events IH] using rev_ind; intros s Hne;
    [congruence|].
  rewrite fold_left_app. cbn [fold_left].
  unfold Lifecycle.deliver at 1 3. cbn [Lifecycle.engine Lifecycle.election].
  apply follow_apart.
Qed.

Lemma deliver_fold_announced (events : list (Z * LeaderElection.Message.t)) :
  forall s,
    Lifecycle.announcedBy (LeaderElection.tabId (Lifecycle.election s)) events ->
    let s' := fold_left Lifecycle.deliver events s in
    SyncEngine.leader (Lifecycle.engine s') = false
    /\ SyncEngine.syncInterval (Lifecycle.engine s') = false.
Proof.
  intros s (now & other & Hother & Hin). cbv zeta.
  assert (Hne : events <> []) by (intros ->; destruct Hin).
  rewrite (deliver_fold_leader events s Hne).
  apply in_split in Hin as (before & after & ->).
  rewrite fold_left_app. cbn [fold_left].
  set (s1 := fold_left Lifecycle.deliver before s).
  destruct (deliver_fold_facts before s) as (_ & _ & Hid). fold s1 in Hid.
  destruct (deliver_announcement s1 now other) as (Hf & _ & Ht).
  { rewrite Hid. exact Hother. }
  exact (deliver_fold_keeps_down after _ Hf Ht).
Qed.

(** A cycle neither reads nor writes the leader flag and the timer. *)
Lemma sync_apart (env : Env.t) (e : SyncEngine.t) :
  fst (SyncEngine.sync env e) = fst (SyncEngine.sync env (Lifecycle.apart e))
  /\ Lifecycle.apart (snd (SyncEngine.sync env e))
     = snd (SyncEngine.sync env (Lifecycle.apart e))
  /\ SyncEngine.leader (snd (SyncEngine.sync env e)) = SyncEngine.leader e
  /\ SyncEngine.syncInterval (snd (SyncEngine.sync env e))
     = SyncEngine.syncInterval e.
Proof.
  destruct e. unfold SyncEngine.sync, SyncEngine.sync_guard.
  cbn [Lifecycle.apart SyncEngine.with_syncInterval SyncEngine.with_leader
         SyncEngine.onlineStatus SyncEngine.isPausedFlag
         SyncEngine.isSyncingFlag].
  repeat match goal with
         | |- context [if ?b then _ else _] => is_var b; destruct b
         | |- context [negb ?b] => is_var b; destruct b
         end; cbn [negb fst snd]; try (repeat split; fail).
  all: unfold SyncEngine.sync_cycle, SyncEngine.push, SyncEngine.pull;
    cbn -[PushProcessor.push PullProcessor.pull];
    match goal with
    | |- context [PushProcessor.push ?c ?en ?t ?d] =>
        destruct (PushProcessor.push c en t d) as [d1 pushResult]
    end;
    destruct (PushResult.success pushResult);
    cbn -[PushProcessor.push PullProcessor.pull];
    match goal with
    | |- context [PullProcessor.pull ?c ?en ?t ?d ?l] =>
        destruct (PullProcessor.pull c en t d l) as [d2 log2 pullResult]
    end;
    cbn -[PushProcessor.push PullProcessor.pull];
    destruct (PullResult.success pullResult); cbn; repeat split.
Qed.

Lemma apart_fields (e e' : SyncEngine.t) :
  Lifecycle.apart e = Lifecycle.apart e' ->
  SyncEngine.config e = SyncEngine.config e'
  /\ SyncEngine.db e = SyncEngine.db e'
  /\ SyncEngine.onlineStatus e = SyncEngine.onlineStatus e'
  /\ SyncEngine.isRunning e = SyncEngine.isRunning e'
  /\ SyncEngine.isPausedFlag e = SyncEngine.isPausedFlag e'
  /\ SyncEngine.isSyncingFlag e = SyncEngine.isSyncingFlag e'
  /\ SyncEngine.syncCount e = SyncEngine.syncCount e'.
Proof.
  intros H.
  split; [exact (f_equal SyncEngine.config H)|].
  split; [exact (f_equal SyncEngine.db H)|].
  split; [exact (f_equal SyncEngine.onlineStatus H)|].
  split; [exact (f_equal SyncEngine.isRunning H)|].
  split; [exact (f_equal SyncEngine.isPausedFlag H)|].
  split; [exact (f_equal SyncEngine.isSyncingFlag H)|].
  exact (f_equal SyncEngine.syncCount H).
Qed.

Lemma apart_inj (e e' : SyncEngine.t) :
  Lifecycle.apart e = Lifecycle.apart e' ->
  SyncEngine.leader e = SyncEngine.leader e' ->
  SyncEngine.syncInterval e = SyncEngine.syncInterval e' ->
  e = e'.
Proof.
  destruct e, e'. cbn. intros H -> ->. injection H as -> -> -> -> -> -> -> -> -> -> ->.
  reflexivity.
Qed.

Lemma callbacks_timer (calls : list bool) :
  forall e e',
    SyncEngine.config e = SyncEngine.config e' ->
    SyncEngine.isRunning e = SyncEngine.isRunning e' ->
    SyncEngine.syncInterval e = SyncEngine.syncInterval e' ->
    SyncEngine.syncInterval
      (fold_left (fun e isLeader => Lifecycle.onLeadershipChange isLeader e)
         calls e)
    = SyncEngine.syncInterval
        (fold_left (fun e isLeader => Lifecycle.onLeadershipChange isLeader e)
           calls e').
Proof.
  induction calls as [|b calls IH]; intros e e' Hc Hr Ht; cbn [fold_left];
    [exact Ht|].
  destruct (onLeadershipChange_apart b e) as [Ha _].
  destruct (onLeadershipChange_apart b e') as [Ha' _].
  apply apart_fields in Ha as (Hc1 & _ & _ & Hr1 & _).
  apply apart_fields in Ha' as (Hc2 & _ & _ & Hr2 & _).
  apply IH; [congruence | congruence |].
  unfold Lifecycle.onLeadershipChange. rewrite Hr.
  destruct (b && SyncEngine.isRunning e'); [|reflexivity].
  destruct (startSyncInterval_fields e) as (-> & _).
  destruct (startSyncInterval_fields e') as (-> & _).
  rewrite Hc. reflexivity.
Qed.

(** A message dispatched while the cycle is suspended leaves the engine
    as the same message dispatched at the end of the cycle does. *)
Lemma sync_deliver_commute (env : Env.t) (s : Lifecycle.t)
    (event : Z * LeaderElection.Message.t) :
  let during := SyncEngine.sync env (Lifecycle.engine (Lifecycle.deliver s event)) in
  let before := SyncEngine.sync env (Lifecycle.engine s) in
  fst during = fst before
  /\ snd during
     = Lifecycle.engine
         (Lifecycle.deliver (Lifecycle.mk (snd before) (Lifecycle.election s))
            event).
Proof.
  cbv zeta.
  destruct (deliver_facts s event) as (Ha & _).
  destruct (sync_apart env (Lifecycle.engine (Lifecycle.deliver s event)))
    as (Hf1 & Ha1 & Hl1 & Ht1).
  destruct (sync_apart env (Lifecycle.engine s)) as (Hf2 & Ha2 & Hl2 & Ht2).
  rewrite Ha in Hf1, Ha1.
  split; [congruence|].
  unfold Lifecycle.deliver in *. cbn [Lifecycle.engine Lifecycle.election] in *.
  set (me := fst (LeaderElection.onmessage (fst event) (Lifecycle.election s)
                    (snd event))) in *.
  apply apart_inj.
  - rewrite Ha1, <- Ha2. symmetry. apply follow_apart.
  - rewrite Hl1.
    rewrite (proj2 (follow_apart (Lifecycle.election s) me (Lifecycle.engine s))).
    symmetry. apply follow_apart.
  - rewrite Ht1. unfold Lifecycle.follow.
    assert (Hsame : Lifecycle.apart (snd (SyncEngine.sync env (Lifecycle.engine s)))
                    = snd (SyncEngine.sync env
                             (Lifecycle.apart (Lifecycle.engine s))))
      by exact Ha2.
    destruct (SyncEngine.sync_guard (Lifecycle.engine s)) as [message|] eqn:Hg.
    + unfold SyncEngine.sync. rewrite Hg. reflexivity.
    + destruct (sync_returns env (Lifecycle.engine s) Hg)
        as (result & e2 & E & _ & _ & Hi2 & Hr2 & _).
      rewrite E. cbn [snd].
      apply callbacks_timer; cbn; try congruence.
      rewrite E in Ht2. cbn [snd] in *.
      clear - E Hg. unfold SyncEngine.sync in E. rewrite Hg in E.
      unfold SyncEngine.sync_cycle, SyncEngine.push, SyncEngine.pull in E.
      destruct (PushProcessor.push _ _ _ _) as [d1 pushResult].
      injection E as _ <-.
      repeat match goal with
             | |- context [if ?b then _ else _] => destruct b
             end; reflexivity.
Qed.

Lemma start_again (env : Env.t) (tables excludeTables : option (list string))
    (asked : Z) (waiting syncing : list (Z * LeaderElection.Message.t))
    (s : Lifecycle.t) :
  SyncEngine.isRunning (Lifecycle.engine s) = true ->
  Lifecycle.start env tables excludeTables asked waiting syncing s
  = (Js.Returned tt, s).
Proof. intros H. unfold Lifecycle.start. rewrite H. reflexivity. Qed.

Lemma getSyncedTables_config (tables excludeTables : option (list string))
    (e e' : SyncEngine.t) :
  SyncEngine.config e = SyncEngine.config e' ->
  Lifecycle.getSyncedTables tables excludeTables e
  = Lifecycle.getSyncedTables tables excludeTables e'.
Proof. intros H. unfold Lifecycle.getSyncedTables. rewrite H. reflexivity. Qed.

Lemma start_steps (env : Env.t) (tables excludeTables : option (list string))
    (asked : Z) (waiting syncing : list (Z * LeaderElection.Message.t))
    (s : Lifecycle.t) :
  let e := Lifecycle.engine s in
  SyncEngine.isRunning e = false ->
  SyncEngine.isSyncingFlag e = false ->
  asked <> 0 ->
  (forall name, In name (Lifecycle.getSyncedTables tables excludeTables e) ->
                is_Some (Db.tables (SyncEngine.db e) !! name)) ->
  exists e1 me,
    Lifecycle.start env tables excludeTables asked waiting syncing s
    = match SyncEngine.sync env e1 with
      | (Js.Returned _, e') =>
          (Js.Returned tt,
           fold_left Lifecycle.deliver syncing (Lifecycle.mk e' me))
      | (Js.Thrown message, e') => (Js.Thrown message, Lifecycle.mk e' me)
      end
    /\ LeaderElection.isLeaderFlag me = true
    /\ LeaderElection.tabId me = LeaderElection.tabId (Lifecycle.election s)
    /\ SyncEngine.isRunning e1 = true
    /\ SyncEngine.leader e1 = true
    /\ SyncEngine.syncInterval e1
       = match SyncConfig.interval (SyncEngine.config e) with
         | Some interval => 0 <? interval
         | None => false
         end
    /\ SyncEngine.isSyncingFlag e1 = false
    /\ SyncEngine.isPausedFlag e1 = SyncEngine.isPausedFlag e
    /\ SyncEngine.onlineStatus e1 = SyncEngine.onlineStatus e
    /\ SyncEngine.syncCount e1 = SyncEngine.syncCount e
    /\ SyncEngine.db e1 = SyncEngine.db e.
Proof.
  intros e Hrun Hsync Hasked Htables. subst e.
  unfold Lifecycle.start. rewrite Hrun. cbv zeta.
  set (requested := Lifecycle.mk (Lifecycle.engine s)
                      (fst (LeaderElection.electLeader_request asked
                              (Lifecycle.election s)))).
  set (heard := fold_left Lifecycle.deliver waiting requested).
  destruct (deliver_fold_facts waiting requested) as (Ha & Ht & Hid).
  fold heard in Ha, Ht, Hid.
  change (Lifecycle.engine requested) with (Lifecycle.engine s) in Ha.
  change (LeaderElection.electionTimeout (Lifecycle.election requested))
    with (Some asked) in Ht.
  change (LeaderElection.tabId (Lifecycle.election requested))
    with (LeaderElection.tabId (Lifecycle.election s)) in Hid.
  assert (Hme : fst (LeaderElection.electLeader_timeout (Lifecycle.election heard))
                = LeaderElection.mk
                    (LeaderElection.tabId (Lifecycle.election heard)) true
                    (LeaderElection.electionTimeout (Lifecycle.election heard))
                    true
                    (LeaderElection.notified (Lifecycle.election heard) ++ [true])).
  { unfold LeaderElection.electLeader_timeout. rewrite Ht.
    apply Z.eqb_neq in Hasked. rewrite Hasked. reflexivity. }
  rewrite Hme.
  set (me := LeaderElection.mk _ true _ true _).
  apply apart_fields in Ha as (Hc & Hd & Ho & Hr & Hp & Hs & Hn).
  assert (Hel : Lifecycle.follow (Lifecycle.election heard) me
                  (Lifecycle.engine heard)
                = SyncEngine.stopSyncInterval
                    (SyncEngine.with_leader true (Lifecycle.engine heard))).
  { unfold Lifecycle.follow. subst me.
    cbn [LeaderElection.notified LeaderElection.isLeaderFlag].
    rewrite skipn_snoc. cbn [fold_left].
    unfold Lifecycle.onLeadershipChange.
    change (SyncEngine.isRunning
              (SyncEngine.with_leader true (Lifecycle.engine heard)))
      with (SyncEngine.isRunning (Lifecycle.engine heard)).
    rewrite Hr, Hrun. reflexivity. }
  rewrite Hel.
  set (elected := SyncEngine.stopSyncInterval
                    (SyncEngine.with_leader true (Lifecycle.engine heard))).
  rewrite (getSyncedTables_config tables excludeTables elected
             (Lifecycle.engine s)) by exact Hc.
  change (SyncEngine.db elected) with (SyncEngine.db (Lifecycle.engine heard)).
  rewrite Hd, (startTracking_none _ _ Htables).
  change (SyncEngine.leader elected) with true. cbv iota.
  destruct (startSyncInterval_fields elected) as (Hi & Hl & Hap).
  cbv zeta in Hi, Hl, Hap.
  change (SyncEngine.leader
            (SyncEngine.with_isRunning true
               (SyncEngine.startSyncInterval elected)))
    with (SyncEngine.leader (SyncEngine.startSyncInterval elected)).
  rewrite Hl. change (SyncEngine.leader elected) with true. cbv iota.
  apply apart_fields in Hap as (Hc' & Hd' & Ho' & Hr' & Hp' & Hs' & Hn').
  exists (SyncEngine.with_isRunning true (SyncEngine.startSyncInterval elected)),
    me.
  split; [reflexivity|]. split; [reflexivity|]. split; [exact Hid|].
  split; [reflexivity|]. split; [exact Hl|].
  split; [cbn [SyncEngine.with_isRunning SyncEngine.syncInterval];
          rewrite Hi;
          change (SyncEngine.config elected)
            with (SyncEngine.config (Lifecycle.engine heard));
          rewrite Hc; reflexivity|].
  cbn [SyncEngine.with_isRunning SyncEngine.isSyncingFlag SyncEngine.isPausedFlag
         SyncEngine.onlineStatus SyncEngine.syncCount SyncEngine.db].
  cbn in Hd', Ho', Hp', Hs', Hn'.
  repeat split; congruence.
Qed.

(** X30.  [start()] leaves the engine running whatever its first [sync()]
    does.  The engine is not running, its synced tables exist, and
    [Date.now()] is not 0 when the election is asked; any messages
    arrive during the 100 ms of the election and during the first
    cycle.  Then the engine runs, [isLeader()] is the flag of the
    election object, and a second [start()] returns at once.  Offline,
    or paused, it is [start()] itself that throws the error of [sync()],
    with the store untouched, the tab leader and the timer armed exactly
    when [sync.interval] is positive.  Online and not paused, [start()]
    returns after one cycle; the tab is leader with its timer armed as
    said when no message arrives during the cycle, and is not leader,
    with no timer, when another tab announces itself during the cycle. *)
Theorem start_leaves_the_engine_running :
  forall (env : Env.t) (tables excludeTables : option (list string))
         (asked : Z) (waiting syncing : list (Z * LeaderElection.Message.t))
         (s : Lifecycle.t),
    SyncEngine.isRunning (Lifecycle.engine s) = false ->
    SyncEngine.isSyncingFlag (Lifecycle.engine s) = false ->
    asked <> 0 ->
    (forall name,
        In name (Lifecycle.getSyncedTables tables excludeTables
                   (Lifecycle.engine s)) ->
        is_Some (Db.tables (SyncEngine.db (Lifecycle.engine s)) !! name)) ->
    let e := Lifecycle.engine s in
    let armed :=
      match SyncConfig.interval (SyncEngine.config e) with
      | Some interval => 0 <? interval
      | None => false
      end in
    let started :=
      Lifecycle.start env tables excludeTables asked waiting syncing s in
    let outcome := fst started in
    let e' := Lifecycle.engine (snd started) in
    SyncEngine.isRunning e' = true
    /\ SyncEngine.leader e'
       = LeaderElection.isLeaderFlag (Lifecycle.election (snd started))
    /\ (forall env2 tables2 excludeTables2 asked2 waiting2 syncing2,
           Lifecycle.start env2 tables2 excludeTables2 asked2 waiting2 syncing2
             (snd started)
           = (Js.Returned tt, snd started))
    /\ (SyncEngine.onlineStatus e = false ->
        outcome = Js.Thrown "Cannot sync while offline"
        /\ SyncEngine.db e' = SyncEngine.db e
        /\ SyncEngine.syncCount e' = SyncEngine.syncCount e
        /\ SyncEngine.leader e' = true
        /\ SyncEngine.syncInterval e' = armed)
    /\ (SyncEngine.onlineStatus e = true ->
        SyncEngine.isPausedFlag e = true ->
        outcome = Js.Thrown "Sync is paused"
        /\ SyncEngine.db e' = SyncEngine.db e
        /\ SyncEngine.syncCount e' = SyncEngine.syncCount e
        /\ SyncEngine.leader e' = true
        /\ SyncEngine.syncInterval e' = armed)
    /\ (SyncEngine.onlineStatus e = true ->
        SyncEngine.isPausedFlag e = false ->
        outcome = Js.Returned tt
        /\ SyncEngine.syncCount e' = (SyncEngine.syncCount e + 1)%N
        /\ (syncing = [] ->
            SyncEngine.leader e' = true /\ SyncEngine.syncInterval e' = armed)
        /\ (Lifecycle.announcedBy
              (LeaderElection.tabId (Lifecycle.election s)) syncing ->
            SyncEngine.leader e' = false
            /\ SyncEngine.syncInterval e' = false)).
Proof.
  intros env tables excludeTables asked waiting syncing s Hrun Hsync Hasked
    Htables e armed started outcome e'.
  destruct (start_steps env tables excludeTables asked waiting syncing s
              Hrun Hsync Hasked Htables)
    as (e1 & me & E & Hflag & Hid & Hr1 & Hl1 & Hi1 & Hs1 & Hp1 & Ho1 & Hc1
        & Hd1).
  fold e in Hi1, Hp1, Ho1, Hc1, Hd1. fold armed in Hi1.
  subst outcome e' started. rewrite E. clear E.
  destruct (SyncEngine.sync_guard e1) as [message|] eqn:Hg.
  - assert (E : SyncEngine.sync env e1 = (Js.Thrown message, e1)).
    { unfold SyncEngine.sync. rewrite Hg. reflexivity. }
    rewrite E. cbn [fst snd Lifecycle.engine Lifecycle.election].
    rewrite sync_guard_cases, Ho1, Hp1, Hs1 in Hg.
    split; [exact Hr1|]. split; [congruence|].
    split; [intros; apply start_again; exact Hr1|].
    split; [|split].
    + intros Hoff. rewrite Hoff in Hg. cbn in Hg. injection Hg as <-.
      repeat split; assumption.
    + intros Hon Hp. rewrite Hon, Hp in Hg. cbn in Hg. injection Hg as <-.
      repeat split; assumption.
    + intros Hon Hp. rewrite Hon, Hp in Hg. discriminate Hg.
  - destruct (sync_returns env e1 Hg)
      as (result & e2 & E & _ & _ & Hi2 & Hr2 & Hl2 & _ & _ & Hc2).
    rewrite E. cbn [fst snd].
    rewrite sync_guard_cases, Ho1, Hp1, Hs1 in Hg.
    destruct (deliver_fold_facts syncing (Lifecycle.mk e2 me))
      as (Ha & _ & Hid').
    cbv zeta in Ha, Hid'. cbn [Lifecycle.engine Lifecycle.election] in Ha, Hid'.
    apply apart_fields in Ha as (_ & _ & _ & Hr3 & _ & _ & Hc3).
    split; [congruence|].
    split.
    { destruct syncing as [|event syncing];
        [cbn; congruence | apply deliver_fold_leader; discriminate]. }
    split; [intros; apply start_again; congruence|].
    split; [|split].
    + intros Hoff. rewrite Hoff in Hg. discriminate Hg.
    + intros Hon Hp. rewrite Hon, Hp in Hg. discriminate Hg.
    + intros _ _. split; [reflexivity|]. split; [congruence|]. split.
      * intros ->. cbn. split; congruence.
      * intros Hannounced. apply deliver_fold_announced.
        cbn [Lifecycle.election]. rewrite Hid. exact Hannounced.
Qed.

Lemma start_leaves_the_engine_running_witness :
  SyncEngine.isRunning (Lifecycle.engine Scenario.starting) = false
  /\ SyncEngine.isSyncingFlag (Lifecycle.engine Scenario.starting) = false
  /\ 1000 <> 0
  /\ (forall name,
         In name (Lifecycle.getSyncedTables None None
                    (Lifecycle.engine Scenario.starting)) ->
         is_Some (Db.tables (SyncEngine.db (Lifecycle.engine Scenario.starting))
                  !! name))
  /\ SyncEngine.onlineStatus (Lifecycle.engine Scenario.starting) = true
  /\ SyncEngine.isPausedFlag (Lifecycle.engine Scenario.starting) = false
  /\ Lifecycle.announcedBy "tab-a" [Scenario.rivalLeads]
  /\ fst Scenario.startedAlone = Js.Returned tt
  /\ SyncEngine.isRunning (Lifecycle.engine (snd Scenario.startedAlone)) = true
  /\ SyncEngine.leader (Lifecycle.engine (snd Scenario.startedAlone)) = true
  /\ SyncEngine.syncInterval (Lifecycle.engine (snd Scenario.startedAlone)) = true
  /\ fst Scenario.startedRaced = Js.Returned tt
  /\ SyncEngine.isRunning (Lifecycle.engine (snd Scenario.startedRaced)) = true
  /\ SyncEngine.leader (Lifecycle.engine (snd Scenario.startedRaced)) = false
  /\ SyncEngine.syncInterval (Lifecycle.engine (snd Scenario.startedRaced)) = false.
Proof.
  assert (Hasked : 1000 <> 0) by lia.
  assert (Htables : forall name,
            In name (Lifecycle.getSyncedTables None None
                       (Lifecycle.engine Scenario.starting)) ->
            is_Some (Db.tables
                       (SyncEngine.db (Lifecycle.engine Scenario.starting))
                     !! name)).
  { intros name [<- | []]. vm_compute. eauto. }
  assert (Hrival : Lifecycle.announcedBy "tab-a" [Scenario.rivalLeads]).
  { exists 1140, "tab-b". split; [discriminate | left; reflexivity]. }
  destruct (start_leaves_the_engine_running Sample.env None None 1000
              [Scenario.rivalAsks] [] Scenario.starting
              eq_refl eq_refl Hasked Htables)
    as (Hrunning & _ & _ & _ & _ & Honline).
  destruct (Honline eq_refl eq_refl) as (Hout & _ & Hquiet & _).
  destruct (Hquiet eq_refl) as (Hleader & Htimer).
  destruct (start_leaves_the_engine_running Sample.env None None 1000
              [Scenario.rivalAsks] [Scenario.rivalLeads] Scenario.starting
              eq_refl eq_refl Hasked Htables)
    as (Hrunning' & _ & _ & _ & _ & Honline').
  destruct (Honline' eq_refl eq_refl) as (Hout' & _ & _ & Hraced).
  destruct (Hraced Hrival) as (Hleader' & Htimer').
  split; [reflexivity|]. split; [reflexivity|]. split; [exact Hasked|].
  split; [exact Htables|]. split; [reflexivity|]. split; [reflexivity|].
  split; [exact Hrival|].
  split; [exact Hout|]. split; [exact Hrunning|]. split; [exact Hleader|].
  split; [exact Htimer|].
  split; [exact Hout'|]. split; [exact Hrunning'|]. split; [exact Hleader'|].
  exact Htimer'.
Defined.
